(** * podsos-crowdsource-server: the consensus engine of [db.py]

    A shallow embedding of the crowdsourcing server's database layer
    ([src/db.py], with the constants of [src/config.py] and the report
    handler of [src/main.py]) and the properties its specification states
    about it.

    - Python [float] and PostgreSQL [float8] are IEEE binary64 numbers; they
      are modelled bit-exactly with the [SpecFloat] operations of the
      standard library (precision 53, maximal exponent 1024).
    - Python [int] and the integer columns are [Z].
    - Python [str] is modelled by [string]: a sequence of code points below
      256 (the Latin-1 range), on which [str.strip], [str.lower], the
      ordering used by [sorted] and the UTF-8 [encode] are written out.
    - [hashlib.sha256] is implemented on 32-bit words held in [Z].
    - The two tables are lists of records in storage order; every SQL
      statement of [db.py] is a function on the store. *)

From Stdlib Require Import ZArith List Bool Lia Arith.
From Stdlib Require Import Strings.String Strings.Ascii.
From Stdlib Require Import Sorting.Sorted Sorting.Permutation Sorting.Mergesort.
From Stdlib Require Import Structures.Orders.
From Stdlib Require Import Floats.SpecFloat.
Import ListNotations.

Local Open Scope string_scope.
Local Open Scope list_scope.
Local Open Scope Z_scope.

(* ================================================================= *)
(** ** IEEE binary64 arithmetic *)

Module Float64.

Definition float : Type := spec_float.

Definition prec : Z := 53.
Definition emax : Z := 1024.

(** An integer as an exact (unrounded) dyadic number. *)
Definition of_Z_exact (n : Z) : float :=
  match n with
  | Z0 => S754_zero false
  | Zpos p => S754_finite false p 0
  | Zneg p => S754_finite true p 0
  end.

(** Conversion of an integer to the nearest binary64 number. *)
Definition of_Z (n : Z) : float := binary_normalize prec emax n 0 false.

Definition div (x y : float) : float := SFdiv prec emax x y.
Definition mul (x y : float) : float := SFmul prec emax x y.
Definition add (x y : float) : float := SFadd prec emax x y.

(** Python's [a / b] on two [int]s: the quotient of the two integers,
    rounded once to the nearest binary64 number.  The caller guards
    against [b = 0] (Python raises [ZeroDivisionError] there). *)
Definition py_truediv (a b : Z) : float :=
  div (of_Z_exact a) (of_Z_exact b).

(** IEEE comparisons, as Python's [>=] and [<] on floats. *)
Definition geb (x y : float) : bool := SFleb y x.
Definition ltb (x y : float) : bool := SFltb x y.

(** PostgreSQL's total order on [float8]: the IEEE order on numbers,
    NaN equal to itself and above every number. *)
Definition is_nan (x : float) : bool :=
  match x with S754_nan => true | _ => false end.

Definition pg_cmp (x y : float) : comparison :=
  match SFcompare x y with
  | Some c => c
  | None =>
      match is_nan x, is_nan y with
      | true, true => Eq
      | true, false => Gt
      | _, _ => Lt
      end
  end.

Definition pg_ge (x y : float) : bool :=
  match pg_cmp x y with Lt => false | _ => true end.
Definition pg_lt (x y : float) : bool :=
  match pg_cmp x y with Lt => true | _ => false end.
Definition pg_eq (x y : float) : bool :=
  match pg_cmp x y with Eq => true | _ => false end.

(** The decimal literals of [config.py], each the binary64 number nearest
    to the decimal fraction. *)
Definition lit_0_60 : float := S754_finite false 5404319552844595 (-53).
Definition lit_0_40 : float := S754_finite false 7205759403792794 (-54).
Definition lit_0_70 : float := S754_finite false 6305039478318694 (-53).

End Float64.

(* ================================================================= *)
(** ** config.py *)

Module Config.

(** [int(os.environ.get("MAX_REPORTS_PER_HOUR", "10"))]: the default. *)
Definition MAX_REPORTS_PER_HOUR : Z := 10.
Definition MIN_VOTES_VERIFIED : Z := 5.
Definition VERIFIED_RATE_THRESHOLD : Float64.float := Float64.lit_0_60.
Definition STALE_RATE_THRESHOLD : Float64.float := Float64.lit_0_40.
Definition STALE_DAYS : Z := 7.
Definition MAX_STRATEGIES_RESPONSE : Z := 5.
Definition MIN_PROVIDER_STRATEGIES : Z := 3.
Definition FALLBACK_SUCCESS_RATE : Float64.float := Float64.lit_0_70.

End Config.

(* ================================================================= *)
(** ** The status of a strategy *)

Inductive Status : Type :=
| unconfirmed
| verified
| degraded
| stale.

Definition Status_eqb (a b : Status) : bool :=
  match a, b with
  | unconfirmed, unconfirmed | verified, verified
  | degraded, degraded | stale, stale => true
  | _, _ => false
  end.

(** [db._compute_status] *)
Definition _compute_status (success_count fail_count : Z) : Status :=
  let total := success_count + fail_count in
  if total <? Config.MIN_VOTES_VERIFIED then unconfirmed
  else
    let rate := Float64.py_truediv success_count total in
    if Float64.geb rate Config.VERIFIED_RATE_THRESHOLD then verified
    else if Float64.ltb rate Config.STALE_RATE_THRESHOLD then stale
    else unconfirmed.

(* ================================================================= *)
(** ** Sorting

    A stable insertion sort; [leb x y] says that [x] may stand before
    [y].  It serves for Python's [sorted] and for SQL's [ORDER BY], where
    rows that tie on every key keep their storage order. *)

Section Sorting.

Context {A : Type} (leb : A -> A -> bool).

Fixpoint insert_sorted (x : A) (l : list A) : list A :=
  match l with
  | [] => [x]
  | y :: r => if leb x y then x :: l else y :: insert_sorted x r
  end.

Fixpoint insertion_sort (l : list A) : list A :=
  match l with
  | [] => []
  | x :: r => insert_sorted x (insertion_sort r)
  end.

End Sorting.

(* ================================================================= *)
(** ** Python strings *)

Module PyStr.

(** [ord] and [chr] on the code points below 256. *)
Definition ord (c : ascii) : Z := Z.of_N (N_of_ascii c).
Definition chr (n : Z) : ascii := ascii_of_N (Z.to_N n).

(** [str.isspace] on one character: TAB..CR, FS..US, SPACE, NEL, NBSP. *)
Definition isspace (c : ascii) : bool :=
  let n := ord c in
  ((9 <=? n) && (n <=? 13)) || ((28 <=? n) && (n <=? 32))
  || (n =? 133) || (n =? 160).

(** [str.lower] on one character: A..Z and the Latin-1 capitals
    U+00C0..U+00DE (the multiplication sign U+00D7 apart). *)
Definition lower_char (c : ascii) : ascii :=
  let n := ord c in
  if ((65 <=? n) && (n <=? 90))
     || ((192 <=? n) && (n <=? 222) && negb (n =? 215))
  then chr (n + 32) else c.

Fixpoint lower (s : string) : string :=
  match s with
  | EmptyString => EmptyString
  | String c r => String (lower_char c) (lower r)
  end.

Fixpoint lstrip (s : string) : string :=
  match s with
  | EmptyString => EmptyString
  | String c r => if isspace c then lstrip r else s
  end.

Fixpoint rstrip (s : string) : string :=
  match s with
  | EmptyString => EmptyString
  | String c r =>
      match rstrip r with
      | EmptyString => if isspace c then EmptyString else String c EmptyString
      | r' => String c r'
      end
  end.

(** [str.strip()] *)
Definition strip (s : string) : string := rstrip (lstrip s).

(** Truth value of a [str]: non-empty. *)
Definition truthy (s : string) : bool := negb (String.eqb s EmptyString).

(** ["sep".join(l)] *)
Definition join (sep : string) (l : list string) : string :=
  String.concat sep l.

(** [sorted] on a list of [str]: the order is lexicographic on code
    points, and equal strings are identical, so every sorting algorithm
    returns the same list. *)
Definition sorted (l : list string) : list string :=
  insertion_sort String.leb l.

(** [str.encode()]: UTF-8, one byte below U+0080 and two bytes above. *)
Definition encode_char (c : ascii) : list Z :=
  let n := ord c in
  if n <? 128 then [n]
  else [Z.lor 192 (Z.shiftr n 6); Z.lor 128 (Z.land n 63)].

Fixpoint encode (s : string) : list Z :=
  match s with
  | EmptyString => []
  | String c r => encode_char c ++ encode r
  end.

(** [sub in s] for a one-character [sub]. *)
Fixpoint contains (c : ascii) (s : string) : bool :=
  match s with
  | EmptyString => false
  | String d r => Ascii.eqb c d || contains c r
  end.

End PyStr.

(* ================================================================= *)
(** ** hashlib.sha256 *)

Module SHA256.

Definition mask32 : Z := 4294967295.

Definition add32 (a b : Z) : Z := Z.land (a + b) mask32.
Definition not32 (a : Z) : Z := Z.lxor a mask32.
Definition rotr (n x : Z) : Z :=
  Z.land (Z.lor (Z.shiftr x n) (Z.shiftl x (32 - n))) mask32.

Definition Ch (x y z : Z) : Z := Z.lxor (Z.land x y) (Z.land (not32 x) z).
Definition Maj (x y z : Z) : Z :=
  Z.lxor (Z.lxor (Z.land x y) (Z.land x z)) (Z.land y z).
Definition Sigma0 (x : Z) : Z :=
  Z.lxor (Z.lxor (rotr 2 x) (rotr 13 x)) (rotr 22 x).
Definition Sigma1 (x : Z) : Z :=
  Z.lxor (Z.lxor (rotr 6 x) (rotr 11 x)) (rotr 25 x).
Definition sigma0 (x : Z) : Z :=
  Z.lxor (Z.lxor (rotr 7 x) (rotr 18 x)) (Z.shiftr x 3).
Definition sigma1 (x : Z) : Z :=
  Z.lxor (Z.lxor (rotr 17 x) (rotr 19 x)) (Z.shiftr x 10).

(** The constants of the standard are fractional parts of roots of the
    first primes; they are computed here rather than copied. *)
Definition is_prime (n : Z) : bool :=
  forallb (fun d => negb (n mod Z.of_nat d =? 0)) (seq 2 (Z.to_nat n - 2)).

Definition first_primes (count : nat) : list Z :=
  firstn count (filter is_prime (map Z.of_nat (seq 2 310))).

(** The integer cube root, found bit by bit from [2^bits] down. *)
Fixpoint cube_root (bits : nat) (n root : Z) : Z :=
  match bits with
  | O => root
  | S k =>
      let candidate := root + 2 ^ Z.of_nat k in
      cube_root k n
        (if candidate * candidate * candidate <=? n then candidate else root)
  end.

(** The first 32 bits of the fractional part of the cube root of each of
    the first 64 primes. *)
Definition K : list Z :=
  Eval vm_compute in
    map (fun p => Z.land (cube_root 36 (p * 2 ^ 96) 0) mask32) (first_primes 64).

(** The first 32 bits of the fractional part of the square root of each of
    the first 8 primes. *)
Definition H0 : list Z :=
  Eval vm_compute in
    map (fun p => Z.land (Z.sqrt (p * 2 ^ 64)) mask32) (first_primes 8).

(** Big-endian bytes of a number, [n] of them. *)
Fixpoint be_bytes (n : nat) (x : Z) : list Z :=
  match n with
  | O => []
  | S k => Z.land (Z.shiftr x (8 * Z.of_nat k)) 255 :: be_bytes k x
  end.

(** Padding: the bit 1, zeros up to 56 modulo 64, the bit length on
    eight bytes. *)
Definition pad (msg : list Z) : list Z :=
  let len := Z.of_nat (List.length msg) in
  msg ++ [128]
      ++ List.repeat 0 (Z.to_nat ((55 - len) mod 64))
      ++ be_bytes 8 (8 * len).

Fixpoint words (bytes : list Z) : list Z :=
  match bytes with
  | a :: b :: c :: d :: r =>
      Z.lor (Z.lor (Z.lor (Z.shiftl a 24) (Z.shiftl b 16)) (Z.shiftl c 8)) d
      :: words r
  | _ => []
  end.

(** The message schedule: sixteen words extended to sixty-four. *)
Fixpoint extend (n : nat) (w : list Z) : list Z :=
  match n with
  | O => w
  | S k =>
      let t := List.length w in
      let at_ (i : nat) := nth (t - i) w 0 in
      extend k
        (w ++ [add32 (add32 (sigma1 (at_ 2%nat)) (at_ 7%nat))
                     (add32 (sigma0 (at_ 15%nat)) (at_ 16%nat))])
  end.

Record regs : Type :=
  mk_regs { ra : Z; rb : Z; rc : Z; rd : Z; re : Z; rf : Z; rg : Z; rh : Z }.

Definition round (s : regs) (kw : Z * Z) : regs :=
  let t1 :=
    add32 (add32 (add32 (rh s) (Sigma1 (re s)))
                 (add32 (Ch (re s) (rf s) (rg s)) (fst kw))) (snd kw) in
  let t2 := add32 (Sigma0 (ra s)) (Maj (ra s) (rb s) (rc s)) in
  mk_regs (add32 t1 t2) (ra s) (rb s) (rc s)
          (add32 (rd s) t1) (re s) (rf s) (rg s).

Definition regs_of (h : list Z) : regs :=
  mk_regs (nth 0 h 0) (nth 1 h 0) (nth 2 h 0) (nth 3 h 0)
          (nth 4 h 0) (nth 5 h 0) (nth 6 h 0) (nth 7 h 0).

Definition list_of (s : regs) : list Z :=
  [ra s; rb s; rc s; rd s; re s; rf s; rg s; rh s].

Definition compress (h : list Z) (block : list Z) : list Z :=
  let w := extend 48 block in
  let s := fold_left round (combine K w) (regs_of h) in
  map (fun p => add32 (fst p) (snd p)) (combine h (list_of s)).

(** The blocks of sixteen words each, folded from the left. *)
Fixpoint blocks (fuel : nat) (h : list Z) (ws : list Z) : list Z :=
  match fuel, ws with
  | S k, _ :: _ => blocks k (compress h (firstn 16 ws)) (skipn 16 ws)
  | _, _ => h
  end.

Definition digest (msg : list Z) : list Z :=
  let ws := words (pad msg) in
  blocks (List.length ws) H0 ws.

Definition hex_digit (n : Z) : ascii :=
  if n <? 10 then PyStr.chr (48 + n) else PyStr.chr (87 + n).

Fixpoint hex_word (n : nat) (x : Z) : string :=
  match n with
  | O => EmptyString
  | S k => String (hex_digit (Z.land (Z.shiftr x (4 * Z.of_nat k)) 15))
                  (hex_word k x)
  end.

(** [hashlib.sha256(msg).hexdigest()] *)
Definition hexdigest (msg : list Z) : string :=
  String.concat EmptyString (map (hex_word 8) (digest msg)).

End SHA256.

(* ================================================================= *)
(** ** Fingerprinting of a configuration *)

(** The generator expression of [compute_strategy_hash]:
    [arg.strip().lower() for arg in zapret_args if arg.strip()]. *)
Definition normalize_arg (arg : string) : string :=
  PyStr.lower (PyStr.strip arg).

Definition normalized_args (zapret_args : list string) : list string :=
  map normalize_arg (filter (fun arg => PyStr.truthy (PyStr.strip arg)) zapret_args).

(** The string handed to the digest: the sorted parameters joined by a
    vertical bar. *)
Definition pre_digest (zapret_args : list string) : string :=
  PyStr.join "|"%string (PyStr.sorted (normalized_args zapret_args)).

(** [db.compute_strategy_hash] *)
Definition compute_strategy_hash (zapret_args : list string) : string :=
  SHA256.hexdigest (PyStr.encode (pre_digest zapret_args)).

(* ================================================================= *)
(** ** The store

    The schema file [init.sql] is applied by [init_pool] but is not among
    the sources; the two tables are declared here from the columns the
    statements of [db.py] name. *)

(** [timestamptz]: microseconds on the time line. *)
Definition timestamp : Type := Z.

Definition one_hour : Z := 3600 * 1000000.
Definition one_day : Z := 24 * one_hour.

Module Strategy.

(** Modelled from the spec: the [strategies] relation of [init.sql], with
    the fields of section 3 of the specification.  [id] is the serial
    key, [zapret_args] the stored JSON list, [avg_latency_ms] a double
    precision number, and [last_confirmed] is nullable with no default:
    it is absent until a successful report sets it. *)
Record t : Type := mk {
  id : Z;
  provider_id : string;
  service_id : string;
  zapret_args : list string;
  strategy_hash : string;
  success_count : Z;
  fail_count : Z;
  avg_latency_ms : Float64.float;
  status : Status;
  first_reported : timestamp;
  last_confirmed : option timestamp
}.

Definition set_status (r : t) (s : Status) : t :=
  mk (id r) (provider_id r) (service_id r) (zapret_args r)
     (strategy_hash r) (success_count r) (fail_count r)
     (avg_latency_ms r) s (first_reported r) (last_confirmed r).

End Strategy.

Module Report.

(** Modelled from the spec: the [reports] relation of [init.sql];
    [reported_at] is not given by the INSERT of [upsert_strategy] and
    defaults to the time of the insertion. *)
Record t : Type := mk {
  strategy_id : Z;
  fingerprint : string;
  success : bool;
  latency_ms : Float64.float;
  client_version : string;
  reported_at : timestamp
}.

End Report.

Record Store : Type := mkStore {
  strategies : list Strategy.t;
  reports : list Report.t
}.

(* ================================================================= *)
(** ** GET /strategies *)

Module Row.

(** A row of the two SELECTs of [get_strategies], as the [dict] built
    from it. *)
Record t : Type := mk {
  id : Z;
  zapret_args : list string;
  success_count : Z;
  fail_count : Z;
  avg_latency_ms : Float64.float;
  status : Status;
  last_confirmed : option timestamp;
  success_rate : Float64.float
}.

End Row.

(** [CASE WHEN (success_count + fail_count) > 0
         THEN success_count::float / (success_count + fail_count)
         ELSE 0 END] *)
Definition sql_success_rate (r : Strategy.t) : Float64.float :=
  let total := Strategy.success_count r + Strategy.fail_count r in
  if 0 <? total
  then Float64.div (Float64.of_Z (Strategy.success_count r)) (Float64.of_Z total)
  else Float64.of_Z 0.

(** The SELECT list. *)
Definition select_row (r : Strategy.t) : Row.t :=
  Row.mk (Strategy.id r) (Strategy.zapret_args r)
         (Strategy.success_count r) (Strategy.fail_count r)
         (Strategy.avg_latency_ms r) (Strategy.status r)
         (Strategy.last_confirmed r) (sql_success_rate r).

(** [last_confirmed DESC]: later first, and NULL before every timestamp
      (PostgreSQL sorts NULL as the largest value). *)
Definition last_confirmed_desc (a b : option timestamp) : bool :=
  match a, b with
  | None, _ => true
  | Some _, None => false
  | Some x, Some y => y <=? x
  end.

(** [ORDER BY success_rate DESC, last_confirmed DESC] *)
Definition order_leb (a b : Row.t) : bool :=
  match Float64.pg_cmp (Row.success_rate a) (Row.success_rate b) with
  | Gt => true
  | Lt => false
  | Eq => last_confirmed_desc (Row.last_confirmed a) (Row.last_confirmed b)
  end.

(** The ORDER BY says nothing of two rows that are level in both columns:
    the engine returns them in an order of its own, which no statement
    fixes.  [tie] is that order, a rank the engine gives to each row: of
    two level rows the one of lower rank comes first. *)
Definition order_leb_tie (tie : Row.t -> Z) (a b : Row.t) : bool :=
  order_leb a b && (negb (order_leb b a) || (tie a <=? tie b)).

Definition order_by_rate (tie : Row.t -> Z) (rows : list Row.t) : list Row.t :=
  insertion_sort (order_leb_tie tie) rows.

(** [LIMIT n] *)
Definition limit (n : Z) (rows : list Row.t) : list Row.t :=
  firstn (Z.to_nat n) rows.

Definition primary_where (provider service : string) (r : Strategy.t) : bool :=
  String.eqb (Strategy.provider_id r) provider
  && String.eqb (Strategy.service_id r) service
  && (Status_eqb (Strategy.status r) verified
      || Status_eqb (Strategy.status r) unconfirmed).

Definition fallback_where (provider service : string) (r : Strategy.t) : bool :=
  String.eqb (Strategy.service_id r) service
  && negb (String.eqb (Strategy.provider_id r) provider)
  && Status_eqb (Strategy.status r) verified
  && Float64.pg_ge (sql_success_rate r) Config.FALLBACK_SUCCESS_RATE.

(** The first SELECT of [get_strategies]. *)
Definition primary_query (tie : Row.t -> Z) (st : Store)
  (provider service : string) : list Row.t :=
  limit Config.MAX_STRATEGIES_RESPONSE
    (order_by_rate tie
       (map select_row (filter (primary_where provider service) (strategies st)))).

(** The second SELECT, with its own LIMIT. *)
Definition fallback_query (tie : Row.t -> Z) (st : Store)
  (provider service : string) (n : Z) : list Row.t :=
  limit n
    (order_by_rate tie
       (map select_row (filter (fallback_where provider service) (strategies st)))).

(** [r["id"] not in existing_hashes] *)
Definition not_in (existing : list Z) (r : Row.t) : bool :=
  negb (existsb (Z.eqb (Row.id r)) existing).

(** [db.get_strategies] *)
Definition get_strategies (tie : Row.t -> Z) (st : Store)
  (provider_id service_id : string)
  : list Row.t :=
  let results := primary_query tie st provider_id service_id in
  let results :=
    if Z.of_nat (List.length results) <? Config.MIN_PROVIDER_STRATEGIES then
      let existing_hashes := map Row.id results in
      let fallback_rows :=
        fallback_query tie st provider_id service_id
          (Config.MAX_STRATEGIES_RESPONSE - Z.of_nat (List.length results)) in
      results ++ filter (not_in existing_hashes) fallback_rows
    else results in
  firstn (Z.to_nat Config.MAX_STRATEGIES_RESPONSE) results.

(* ================================================================= *)
(** ** POST /report: the rate limit *)

(** [SELECT COUNT( * ) FROM reports
     WHERE fingerprint = $1 AND reported_at > NOW() - INTERVAL '1 hour'] *)
Definition in_rate_window (now : timestamp) (fp : string) (r : Report.t) : bool :=
  String.eqb (Report.fingerprint r) fp
  && (now - one_hour <? Report.reported_at r).

Definition count_recent_reports (now : timestamp) (fp : string)
  (log : list Report.t) : Z :=
  Z.of_nat (List.length (filter (in_rate_window now fp) log)).

(** [db.check_rate_limit] *)
Definition check_rate_limit (now : timestamp) (st : Store) (fingerprint : string)
  : bool :=
  count_recent_reports now fingerprint (reports st) <? Config.MAX_REPORTS_PER_HOUR.

(* ================================================================= *)
(** ** POST /report: the transactional upsert *)

(** The three statements run inside the transaction of [upsert_strategy],
    and the COMMIT sent when its block ends. *)
Inductive Statement : Type :=
| stmt_upsert
| stmt_set_status
| stmt_insert_report
| stmt_commit.

(** An exception raised by the driver while a statement runs. *)
Inductive Error : Type :=
| PersistenceFailure (s : Statement).

Inductive Result (A : Type) : Type :=
| Ok (a : A)
| Raised (e : Error).

Arguments Ok {A} a.
Arguments Raised {A} e.

(** A computation on a connection: it changes the store as it goes, and an
    exception stops it where it stands. *)
Definition DB (A : Type) : Type := Store -> Store * Result A.

Definition ret {A : Type} (a : A) : DB A := fun st => (st, Ok a).

Definition bind {A B : Type} (m : DB A) (k : A -> DB B) : DB B :=
  fun st =>
    match m st with
    | (st', Ok a) => k a st'
    | (st', Raised e) => (st', Raised e)
    end.

Notation "x <- m ;; k" := (bind m (fun x => k))
  (at level 61, m at next level, right associativity).

(** One statement on the connection: [faults] tells which statements the
    engine refuses, for whatever reason (a violated constraint, a number
    out of range, a lost connection); a refused statement changes nothing
    and raises. *)
Definition execute {A : Type} (faults : Statement -> bool) (s : Statement)
  (run : Store -> Store * A) : DB A :=
  fun st =>
    if faults s then (st, Raised (PersistenceFailure s))
    else let (st', a) := run st in (st', Ok a).

(** [async with conn.transaction():] commit when the block ends, roll back
    to the state at entry when it raises, and let the exception out; a
    COMMIT that the engine refuses leaves the state at entry too. *)
Definition transaction {A : Type} (faults : Statement -> bool) (body : DB A)
  : DB A :=
  fun st =>
    match body st with
    | (st', Ok a) =>
        if faults stmt_commit then (st, Raised (PersistenceFailure stmt_commit))
        else (st', Ok a)
    | (_, Raised e) => (st, Raised e)
    end.

(** The unique key [(provider_id, service_id, strategy_hash)]. *)
Definition same_key (provider service hash : string) (r : Strategy.t) : bool :=
  String.eqb (Strategy.provider_id r) provider
  && String.eqb (Strategy.service_id r) service
  && String.eqb (Strategy.strategy_hash r) hash.

(** [INSERT ... ON CONFLICT (key) DO UPDATE SET ... RETURNING ...]: the row
    in conflict is updated in place, otherwise the new row is appended;
    the row as it stands afterwards is returned. *)
Fixpoint insert_on_conflict (key : Strategy.t -> bool)
  (update : Strategy.t -> Strategy.t) (new : Strategy.t)
  (rows : list Strategy.t) : list Strategy.t * Strategy.t :=
  match rows with
  | [] => ([new], new)
  | r :: rest =>
      if key r then (update r :: rest, update r)
      else
        let (rest', out) := insert_on_conflict key update new rest in
        (r :: rest', out)
  end.

(** The row of the INSERT of a successful report:
    [VALUES ($1, $2, $3::jsonb, $4, 1, 0, $5, NOW(), NOW(), 'unconfirmed')]. *)
Definition inserted_on_success (now : timestamp) (new_id : Z)
  (provider service : string) (args : list string) (hash : string)
  (latency : Float64.float) : Strategy.t :=
  Strategy.mk new_id provider service args hash 1 0 latency unconfirmed
              now (Some now).

(** Its [DO UPDATE SET] clause. *)
Definition updated_on_success (now : timestamp) (latency : Float64.float)
  (r : Strategy.t) : Strategy.t :=
  Strategy.mk (Strategy.id r) (Strategy.provider_id r) (Strategy.service_id r)
    (Strategy.zapret_args r) (Strategy.strategy_hash r)
    (Strategy.success_count r + 1)
    (Strategy.fail_count r)
    (Float64.div
       (Float64.add
          (Float64.mul (Strategy.avg_latency_ms r)
                       (Float64.of_Z (Strategy.success_count r)))
          latency)
       (Float64.of_Z (Strategy.success_count r + 1)))
    (Strategy.status r)
    (Strategy.first_reported r)
    (Some now).

(** The row of the INSERT of a failed report:
    [VALUES ($1, $2, $3::jsonb, $4, 0, 1, 0, NOW(), 'unconfirmed')];
    [last_confirmed] is not among the columns. *)
Definition inserted_on_failure (now : timestamp) (new_id : Z)
  (provider service : string) (args : list string) (hash : string)
  : Strategy.t :=
  Strategy.mk new_id provider service args hash 0 1 (Float64.of_Z 0)
              unconfirmed now None.

(** Its [DO UPDATE SET fail_count = strategies.fail_count + 1]. *)
Definition updated_on_failure (r : Strategy.t) : Strategy.t :=
  Strategy.mk (Strategy.id r) (Strategy.provider_id r) (Strategy.service_id r)
    (Strategy.zapret_args r) (Strategy.strategy_hash r)
    (Strategy.success_count r)
    (Strategy.fail_count r + 1)
    (Strategy.avg_latency_ms r)
    (Strategy.status r)
    (Strategy.first_reported r)
    (Strategy.last_confirmed r).

(** The first statement, in its two forms.  [id] is a serial key: the
    INSERT draws the next value of its sequence, [new_id], before the
    conflict is looked for, so the value is used up also when the row
    conflicts, and a rollback does not give it back.  The sequence is
    not part of the two tables: as with the clock, each call is handed
    the value it draws. *)
Definition run_upsert (now : timestamp) (new_id : Z) (provider service : string)
  (args : list string) (hash : string) (success : bool)
  (latency : Float64.float) (st : Store) : Store * Strategy.t :=
  let rows := strategies st in
  let res :=
    if success then
      insert_on_conflict (same_key provider service hash)
        (updated_on_success now latency)
        (inserted_on_success now new_id provider service args hash latency)
        rows
    else
      insert_on_conflict (same_key provider service hash)
        updated_on_failure
        (inserted_on_failure now new_id provider service args hash)
        rows in
  (mkStore (fst res) (reports st), snd res).

(** [UPDATE strategies SET status = $1 WHERE id = $2] *)
Definition run_set_status (new_status : Status) (strategy_id : Z) (st : Store)
  : Store * unit :=
  (mkStore
     (map (fun r => if Strategy.id r =? strategy_id
                    then Strategy.set_status r new_status else r)
          (strategies st))
     (reports st), tt).

(** [INSERT INTO reports (strategy_id, fingerprint, success, latency_ms,
    client_version) VALUES ($1, $2, $3, $4, $5)] *)
Definition run_insert_report (now : timestamp) (strategy_id : Z)
  (fingerprint : string) (success : bool) (latency : Float64.float)
  (client_version : string) (st : Store) : Store * unit :=
  (mkStore (strategies st)
     (reports st
      ++ [Report.mk strategy_id fingerprint success latency client_version now]),
   tt).

(** The block under [async with conn.transaction():] in
    [upsert_strategy]: the three statements in sequence. *)
Definition upsert_statements (faults : Statement -> bool) (now : timestamp)
  (new_id : Z) (provider_id service_id : string) (zapret_args : list string)
  (strategy_hash : string) (success : bool) (latency_ms : Float64.float)
  (fingerprint client_version : string) : DB (Z * Status) :=
  row <- execute faults stmt_upsert
           (run_upsert now new_id provider_id service_id zapret_args
                       strategy_hash success latency_ms) ;;
  let strategy_id := Strategy.id row in
  let new_status :=
    _compute_status (Strategy.success_count row) (Strategy.fail_count row) in
  _ <- execute faults stmt_set_status
         (run_set_status new_status strategy_id) ;;
  _ <- execute faults stmt_insert_report
         (run_insert_report now strategy_id fingerprint success latency_ms
                            client_version) ;;
  ret (strategy_id, new_status).

(** [db.upsert_strategy]; [now] is the time of the transaction and
    [new_id] the value its INSERT draws from the sequence of the key. *)
Definition upsert_strategy (faults : Statement -> bool) (now : timestamp)
  (new_id : Z) (provider_id service_id : string) (zapret_args : list string)
  (success : bool) (latency_ms : Float64.float)
  (fingerprint client_version : string) : DB (Z * Status) :=
  let strategy_hash := compute_strategy_hash zapret_args in
  transaction faults
    (upsert_statements faults now new_id provider_id service_id zapret_args
       strategy_hash success latency_ms fingerprint client_version).

(** No statement fails. *)
Definition no_fault (_ : Statement) : bool := false.

(** [models.ReportRequest] *)
Module ReportRequest.

Record t : Type := mk {
  provider_id : string;
  service_id : string;
  zapret_args : list string;
  success : bool;
  latency_ms : Float64.float;
  fingerprint : string;
  client_version : string
}.

End ReportRequest.

(** The answers of [main.post_report]. *)
Inductive Response : Type :=
| Accepted (strategy_id : Z) (strategy_status : Status)
| TooManyRequests (retry_after : Z)
| InternalError (e : Error).

(** [main.post_report] *)
Definition post_report (faults : Statement -> bool) (now : timestamp)
  (new_id : Z) (body : ReportRequest.t) (st : Store) : Store * Response :=
  let allowed := check_rate_limit now st (ReportRequest.fingerprint body) in
  if negb allowed then (st, TooManyRequests 3600)
  else
    match upsert_strategy faults now new_id
            (ReportRequest.provider_id body) (ReportRequest.service_id body)
            (ReportRequest.zapret_args body) (ReportRequest.success body)
            (ReportRequest.latency_ms body) (ReportRequest.fingerprint body)
            (ReportRequest.client_version body) st with
    | (st', Ok (strategy_id, strategy_status)) =>
        (st', Accepted strategy_id strategy_status)
    | (st', Raised e) => (st', InternalError e)
    end.

(* ================================================================= *)
(** ** POST /maintenance/cleanup *)

(** [UPDATE strategies SET status = s WHERE cond]: the new table and the
    number of rows the command tag reports. *)
Definition sql_update_status (cond : Strategy.t -> bool) (s : Status)
  (rows : list Strategy.t) : list Strategy.t * Z :=
  (map (fun r => if cond r then Strategy.set_status r s else r) rows,
   Z.of_nat (List.length (filter cond rows))).

(** [last_confirmed < NOW() - INTERVAL '7 days' AND status NOT IN ('stale')];
    a comparison with NULL is not true.  A day is twenty-four hours (a
    session time zone without daylight saving). *)
Definition stale_where (now : timestamp) (r : Strategy.t) : bool :=
  match Strategy.last_confirmed r with
  | Some t => t <? now - Config.STALE_DAYS * one_day
  | None => false
  end
  && negb (Status_eqb (Strategy.status r) stale).

(** [(success_count + fail_count) >= $1
     AND success_count::float / (success_count + fail_count) < $2
     AND status NOT IN ('stale', 'degraded')] *)
Definition degraded_where (r : Strategy.t) : bool :=
  let total := Strategy.success_count r + Strategy.fail_count r in
  (Config.MIN_VOTES_VERIFIED <=? total)
  && Float64.pg_lt
       (Float64.div (Float64.of_Z (Strategy.success_count r)) (Float64.of_Z total))
       Config.STALE_RATE_THRESHOLD
  && negb (Status_eqb (Strategy.status r) stale
           || Status_eqb (Strategy.status r) degraded).

Definition mark_stale (now : timestamp) (rows : list Strategy.t)
  : list Strategy.t * Z :=
  sql_update_status (stale_where now) stale rows.

Definition mark_degraded (rows : list Strategy.t) : list Strategy.t * Z :=
  sql_update_status degraded_where degraded rows.

(** [db.run_cleanup]: the store afterwards and
    [(stale_marked, degraded_marked)]. *)
Definition run_cleanup (now : timestamp) (st : Store) : Store * (Z * Z) :=
  let (rows1, stale_count) := mark_stale now (strategies st) in
  let (rows2, degraded_count) := mark_degraded rows1 in
  (mkStore rows2 (reports st), (stale_count, degraded_count)).

(* ================================================================= *)
(** ** GET /services *)

Module Service.

(** A row of [services_catalog], with the columns that [get_services]
    selects. *)
Record t : Type := mk {
  id : string;
  display_name : string;
  category : string;
  main_domain : string;
  icon_emoji : string
}.

End Service.

Module ServiceRow.

(** A row of the SELECT of [get_services]. *)
Record t : Type := mk {
  id : string;
  display_name : string;
  category : string;
  main_domain : string;
  icon_emoji : string;
  strategy_count : Z
}.

End ServiceRow.

(** The grouped subquery:
    [SELECT service_id, COUNT( * ) FROM strategies
     WHERE provider_id = $1 AND status IN ('verified', 'unconfirmed')
     GROUP BY service_id], read at one [service_id]; a service without a
    group gets [COALESCE(NULL, 0)], the count of no row. *)
Definition counted_for (provider service : string) (r : Strategy.t) : bool :=
  String.eqb (Strategy.provider_id r) provider
  && (Status_eqb (Strategy.status r) verified
      || Status_eqb (Strategy.status r) unconfirmed)
  && String.eqb (Strategy.service_id r) service.

Definition strategy_count_of (st : Store) (provider service : string) : Z :=
  Z.of_nat (List.length (filter (counted_for provider service) (strategies st))).

(** The LEFT JOIN: one row for each row of the catalog. *)
Definition service_row (st : Store) (provider : string) (sc : Service.t)
  : ServiceRow.t :=
  ServiceRow.mk (Service.id sc) (Service.display_name sc) (Service.category sc)
    (Service.main_domain sc) (Service.icon_emoji sc)
    (strategy_count_of st provider (Service.id sc)).

(** [ORDER BY strategy_count DESC, sc.display_name]; [collate] is the
    order of the column's collation. *)
Definition service_leb (collate : string -> string -> bool)
  (a b : ServiceRow.t) : bool :=
  match ServiceRow.strategy_count a ?= ServiceRow.strategy_count b with
  | Gt => true
  | Lt => false
  | Eq => collate (ServiceRow.display_name a) (ServiceRow.display_name b)
  end.

(** [db.get_services], on the catalog table [catalog]. *)
Definition get_services (collate : string -> string -> bool)
  (catalog : list Service.t) (st : Store) (provider_id : string)
  : list ServiceRow.t :=
  insertion_sort (service_leb collate)
    (map (service_row st provider_id) catalog).

(* ================================================================= *)
(** ** GET /health *)

Module HealthStats.

(** The row of [get_health_stats], as the [dict] built from it. *)
Record t : Type := mk {
  total : Z;
  verified : Z;
  unconfirmed : Z;
  degraded : Z;
  stale : Z
}.

End HealthStats.

(** [COUNT( * ) FILTER (WHERE status = s)] *)
Definition count_status (s : Status) (rows : list Strategy.t) : Z :=
  Z.of_nat (List.length (filter (fun r => Status_eqb (Strategy.status r) s) rows)).

(** [db.get_health_stats] *)
Definition get_health_stats (st : Store) : HealthStats.t :=
  HealthStats.mk (Z.of_nat (List.length (strategies st)))
    (count_status verified (strategies st))
    (count_status unconfirmed (strategies st))
    (count_status degraded (strategies st))
    (count_status stale (strategies st)).

Module HealthResponse.

(** [models.HealthResponse] *)
Record t : Type := mk {
  status : string;
  strategies_count : Z;
  verified_count : Z;
  unconfirmed_count : Z;
  degraded_count : Z;
  stale_count : Z;
  db_connected : bool
}.

End HealthResponse.

(** [main.health]; [db_raises] tells whether the query raises. *)
Definition health (db_raises : bool) (st : Store) : HealthResponse.t :=
  if db_raises then HealthResponse.mk "error" 0 0 0 0 0 false
  else
    let stats := get_health_stats st in
    HealthResponse.mk "ok" (HealthStats.total stats) (HealthStats.verified stats)
      (HealthStats.unconfirmed stats) (HealthStats.degraded stats)
      (HealthStats.stale stats) true.

(* ================================================================= *)
(** ** GET /strategies: the endpoint *)

Module StrategyItem.

(** [models.StrategyItem]; [last_confirmed] is declared [datetime], not
    [Optional[datetime]]. *)
Record t : Type := mk {
  id : Z;
  zapret_args : list string;
  success_count : Z;
  fail_count : Z;
  success_rate : Float64.float;
  avg_latency_ms : Float64.float;
  status : Status;
  last_confirmed : timestamp
}.

End StrategyItem.

Module StrategiesResponse.

(** [models.StrategiesResponse] *)
Record t : Type := mk {
  strategies : list StrategyItem.t;
  count : Z
}.

End StrategiesResponse.

Module Main.

(** The value of a jsonb column as the driver hands it to Python: its
    JSON text, a [str], or the decoded list when the connection has a
    codec for the type. *)
Inductive Jsonb : Type :=
| json_text (text : string)
| json_list (items : list string).

(** [r["zapret_args"]].  [init_pool] creates the pool with no codec for
    jsonb, the type the column is written with ([$3::jsonb] in
    [upsert_strategy]), so the handler reads the text of the column;
    [jsonb_out] is the text that PostgreSQL gives a list. *)
Definition fetched_zapret_args (jsonb_out : list string -> string)
  (r : Row.t) : Jsonb :=
  json_text (jsonb_out (Row.zapret_args r)).

(** The field [zapret_args: list[str]] of [StrategyItem]: a list of [str]
    is valid; a [str] is not a list, and the constructor raises ([None]
    here). *)
Definition validate_zapret_args (v : Jsonb) : option (list string) :=
  match v with
  | json_list items => Some items
  | json_text _ => None
  end.

(** The body of the loop of [main.get_strategies]: the rate is computed
    again from the two counts, and [StrategyItem(...)] validates its
    fields: [zapret_args] as above, and [last_confirmed], which has no
    valid [datetime] when it is [None]; the other fields are taken as
    the types of the model give them.  [round] is the built-in, applied
    with 4 and with 1 digits. *)
Definition strategy_item (jsonb_out : list string -> string)
  (round : Float64.float -> Z -> Float64.float)
  (r : Row.t) : option StrategyItem.t :=
  let total := Row.success_count r + Row.fail_count r in
  let rate :=
    if 0 <? total then Float64.py_truediv (Row.success_count r) total
    else Float64.of_Z 0 in
  match validate_zapret_args (fetched_zapret_args jsonb_out r),
        Row.last_confirmed r with
  | Some args, Some t =>
      Some (StrategyItem.mk (Row.id r) args
              (Row.success_count r) (Row.fail_count r) (round rate 4)
              (round (Row.avg_latency_ms r) 1) (Row.status r) t)
  | _, _ => None
  end.

(** The loop: the first row that raises ends the request. *)
Fixpoint strategy_items (jsonb_out : list string -> string)
  (round : Float64.float -> Z -> Float64.float)
  (rows : list Row.t) : option (list StrategyItem.t) :=
  match rows with
  | [] => Some []
  | r :: rest =>
      match strategy_item jsonb_out round r with
      | Some item =>
          match strategy_items jsonb_out round rest with
          | Some items => Some (item :: items)
          | None => None
          end
      | None => None
      end
  end.

(** [main.get_strategies]; [None] is the request that ends in an
    exception. *)
Definition get_strategies (jsonb_out : list string -> string)
  (round : Float64.float -> Z -> Float64.float) (tie : Row.t -> Z)
  (st : Store) (provider service : string) : option StrategiesResponse.t :=
  match strategy_items jsonb_out round
          (get_strategies tie st provider service) with
  | Some strategies =>
      Some (StrategiesResponse.mk strategies
              (Z.of_nat (List.length strategies)))
  | None => None
  end.

End Main.

(* ================================================================= *)
(** ** Vocabulary of the specification *)

Fixpoint all_whitespace (s : string) : bool :=
  match s with
  | EmptyString => true
  | String c r => PyStr.isspace c && all_whitespace r
  end.

(** One parameter written differently: other casing, character by
    character (the two spellings have the same lower-case form), or
    whitespace put before and after it. *)
Inductive arg_variant : string -> string -> Prop :=
| variant_case (a b : string) :
    PyStr.lower a = PyStr.lower b -> arg_variant a b
| variant_space (w1 a w2 : string) :
    all_whitespace w1 = true -> all_whitespace w2 = true ->
    arg_variant a (w1 ++ a ++ w2).

(** One configuration written differently: parameters reordered, each
    written with other casing or surrounding whitespace, empty and
    whitespace-only entries added or dropped. *)
Inductive config_variant : list string -> list string -> Prop :=
| variant_nil : config_variant [] []
| variant_arg (a b : string) (l l' : list string) :
    arg_variant a b -> config_variant l l' -> config_variant (a :: l) (b :: l')
| variant_blank (w : string) (l l' : list string) :
    all_whitespace w = true -> config_variant l l' -> config_variant l (w :: l')
| variant_perm (l l' : list string) :
    Permutation l l' -> config_variant l l'
| variant_sym (l l' : list string) :
    config_variant l l' -> config_variant l' l
| variant_trans (l l' l'' : list string) :
    config_variant l l' -> config_variant l' l'' -> config_variant l l''.

(** Two configurations denote the same set of normalized parameters. *)
Definition same_parameter_set (a b : list string) : Prop :=
  forall x : string, In x (normalized_args a) <-> In x (normalized_args b).

(** No normalized parameter of the configuration holds the separator. *)
Definition separator_free (a : list string) : Prop :=
  forall x : string, In x (normalized_args a) -> PyStr.contains "|"%char x = false.

(** The order of the recommendations: a higher success rate first, and at
    equal rates the later [last_confirmed] first. *)
Definition ranks_before (a b : Row.t) : Prop :=
  Float64.pg_cmp (Row.success_rate a) (Row.success_rate b) = Gt
  \/ (Float64.pg_cmp (Row.success_rate a) (Row.success_rate b) = Eq
      /\ forall ta tb : timestamp,
           Row.last_confirmed a = Some ta -> Row.last_confirmed b = Some tb ->
           tb <= ta).

(** A run of [post_report] calls, each at its own time; [ids k] is the
    value that the sequence of the key yields in the call number [k]. *)
Fixpoint post_reports (faults : Statement -> bool) (ids : nat -> Z)
  (requests : list (timestamp * ReportRequest.t)) (st : Store)
  : Store * list Response :=
  match requests with
  | [] => (st, [])
  | (now, body) :: rest =>
      let (st1, answer) := post_report faults now (ids 0%nat) body st in
      let (st2, answers) := post_reports faults (fun k => ids (S k)) rest st1 in
      (st2, answer :: answers)
  end.

(** The report was taken. *)
Definition accepted (r : Response) : bool :=
  match r with
  | Accepted _ _ => true
  | _ => false
  end.

(** Every report asked for comes from [fp], less than an hour after
    [t1]. *)
Definition within_burst (fp : string) (t1 : timestamp)
  (requests : list (timestamp * ReportRequest.t)) : Prop :=
  forall now body, In (now, body) requests ->
    ReportRequest.fingerprint body = fp /\ t1 <= now < t1 + one_hour.

(* ================================================================= *)
(** ** Definitions used in the proofs *)

(** A rank that orders the floats as PostgreSQL does: the sign class
    first, then exponent and mantissa. *)
Definition float_rank (x : Float64.float) : Z * Z * Z :=
  match x with
  | S754_nan => (3, 0, 0)
  | S754_infinity false => (2, 0, 0)
  | S754_infinity true => (-2, 0, 0)
  | S754_zero _ => (0, 0, 0)
  | S754_finite false m e => (1, e, Zpos m)
  | S754_finite true m e => (-1, - e, Zneg m)
  end.

Definition lex_compare (a b : Z * Z * Z) : comparison :=
  let '(a1, a2, a3) := a in
  let '(b1, b2, b3) := b in
  match a1 ?= b1 with
  | Eq => match a2 ?= b2 with Eq => a3 ?= b3 | c => c end
  | c => c
  end.

Definition lex_ge (a b : Z * Z * Z) : Prop :=
  let '(a1, a2, a3) := a in
  let '(b1, b2, b3) := b in
  b1 < a1 \/ (a1 = b1 /\ (b2 < a2 \/ (a2 = b2 /\ b3 <= a3))).

(** The sort key of a row: the rank of its rate, then [last_confirmed]
    with NULL above every timestamp. *)
Definition null_rank (t : option timestamp) : Z * Z :=
  match t with
  | None => (1, 0)
  | Some x => (0, x)
  end.

Definition pair_ge (a b : Z * Z) : Prop :=
  let '(a1, a2) := a in
  let '(b1, b2) := b in
  b1 < a1 \/ (a1 = b1 /\ b2 <= a2).

Definition row_ge (a b : Row.t) : Prop :=
  let ra := float_rank (Row.success_rate a) in
  let rb := float_rank (Row.success_rate b) in
  (lex_ge ra rb /\ ra <> rb)
  \/ (ra = rb
      /\ pair_ge (null_rank (Row.last_confirmed a)) (null_rank (Row.last_confirmed b))).

(** The store a call leaves when every statement goes through. *)
Definition committed (now : timestamp) (new_id : Z) (provider service : string)
  (args : list string) (success : bool) (latency : Float64.float)
  (fingerprint client_version : string) (st : Store) : Store :=
  let hash := compute_strategy_hash args in
  let st1 := fst (run_upsert now new_id provider service args hash success latency st) in
  let row := snd (run_upsert now new_id provider service args hash success latency st) in
  let new_status :=
    _compute_status (Strategy.success_count row) (Strategy.fail_count row) in
  let st2 := fst (run_set_status new_status (Strategy.id row) st1) in
  fst (run_insert_report now (Strategy.id row) fingerprint success latency
         client_version st2).

Definition returned (now : timestamp) (new_id : Z) (provider service : string)
  (args : list string) (success : bool) (latency : Float64.float)
  (st : Store) : Z * Status :=
  let hash := compute_strategy_hash args in
  let row := snd (run_upsert now new_id provider service args hash success latency st) in
  (Strategy.id row,
   _compute_status (Strategy.success_count row) (Strategy.fail_count row)).

(** An engine that returns level rows in the order of the table. *)
Definition table_order : Row.t -> Z := fun _ => 0.

(** The votes that the counters of a table hold. *)
Definition votes_counted (rows : list Strategy.t) : Z :=
  fold_right
    (fun r n => Strategy.success_count r + Strategy.fail_count r + n) 0 rows.

(** What the two UPDATEs of [run_cleanup] do to one row. *)
Definition swept_stale (now : timestamp) (r : Strategy.t) : Strategy.t :=
  if stale_where now r then Strategy.set_status r stale else r.

Definition swept_degraded (r : Strategy.t) : Strategy.t :=
  if degraded_where r then Strategy.set_status r degraded else r.

Definition swept (now : timestamp) (r : Strategy.t) : Strategy.t :=
  swept_degraded (swept_stale now r).

(** What a location says of a remainder [r] among [t] steps. *)
Definition location_of (l : location) (r t : Z) : Prop :=
  match l with
  | loc_Exact => r = 0
  | loc_Inexact Lt => 0 < r /\ 2 * r < t
  | loc_Inexact Eq => 0 < r /\ 2 * r = t
  | loc_Inexact Gt => 0 < r /\ t < 2 * r
  end.

(* ================================================================= *)
(** ** Definitions used in the further properties *)

(** Every character is a lower-case hexadecimal digit. *)
Fixpoint all_hex (s : string) : bool :=
  match s with
  | EmptyString => true
  | String c r =>
      let n := PyStr.ord c in
      (((48 <=? n) && (n <=? 57)) || ((97 <=? n) && (n <=? 102))) && all_hex r
  end.

(** A finite number within half a unit in the last place of [s / t]. *)
Definition rounds_quotient (s t : Z) (x : Float64.float) : Prop :=
  exists m e,
    x = S754_finite false m e
    /\ 2 ^ 52 <= Zpos m < 2 ^ 53 /\ e <= -51
    /\ 2 * Z.abs (s * 2 ^ (- e) - Zpos m * t) <= t.

(** The unique key of a row. *)
Definition strategy_key (r : Strategy.t) : string * string * string :=
  (Strategy.provider_id r, Strategy.service_id r, Strategy.strategy_hash r).

(** The reports of the log that vote for strategy [id] with the outcome
    [outcome]. *)
Definition votes_of (id : Z) (outcome : bool) (log : list Report.t) : Z :=
  Z.of_nat
    (List.length
       (filter (fun rep => (Report.strategy_id rep =? id)
                           && Bool.eqb (Report.success rep) outcome) log)).

(** The store is in order: ids and keys are not repeated, every report
    belongs to a strategy, and the two counters of each strategy are the
    numbers of its reports in the log. *)
Record consistent (st : Store) : Prop := mk_consistent {
  ids_distinct : NoDup (map Strategy.id (strategies st));
  keys_distinct : NoDup (map strategy_key (strategies st));
  reports_owned :
    forall rep, In rep (reports st) ->
                In (Report.strategy_id rep) (map Strategy.id (strategies st));
  votes_logged :
    forall r, In r (strategies st) ->
      Strategy.success_count r = votes_of (Strategy.id r) true (reports st)
      /\ Strategy.fail_count r = votes_of (Strategy.id r) false (reports st)
}.

(** The stores that the service can be in, with the last value drawn
    from the sequence of the key: the empty store, and the stores that a
    report, a sweep or a sweep cut short after its first statement
    leaves.  The sequence only grows: a report draws a value above all
    values drawn before, and the values lost to conflicts, refused
    statements and rollbacks are the gaps. *)
Inductive reachable_at : Z -> Store -> Prop :=
| reach_empty : reachable_at 0 (mkStore [] [])
| reach_report (faults : Statement -> bool) (now : timestamp)
    (new_id : Z) (body : ReportRequest.t) (last : Z) (st : Store) :
    reachable_at last st -> last < new_id ->
    reachable_at new_id (fst (post_report faults now new_id body st))
| reach_cleanup (now : timestamp) (last : Z) (st : Store) :
    reachable_at last st -> reachable_at last (fst (run_cleanup now st))
| reach_cleanup_cut (now : timestamp) (last : Z) (st : Store) :
    reachable_at last st ->
    reachable_at last
      (mkStore (fst (mark_stale now (strategies st))) (reports st)).

Definition reachable (st : Store) : Prop := exists last, reachable_at last st.

(** Every status is the one the counts give, or stale. *)
Definition statuses_current (st : Store) : Prop :=
  forall r, In r (strategies st) ->
    Strategy.status r = stale
    \/ Strategy.status r
       = _compute_status (Strategy.success_count r) (Strategy.fail_count r).

(** The two forms of the upsert, by the outcome reported. *)
Definition upsert_update (now : timestamp) (success : bool)
  (latency : Float64.float) : Strategy.t -> Strategy.t :=
  if success then updated_on_success now latency else updated_on_failure.

Definition upsert_insert (now : timestamp) (new_id : Z)
  (provider service : string) (args : list string) (hash : string)
  (success : bool) (latency : Float64.float) : Strategy.t :=
  if success
  then inserted_on_success now new_id provider service args hash latency
  else inserted_on_failure now new_id provider service args hash.

(** The status written by the second statement. *)
Definition recomputed (r : Strategy.t) : Strategy.t :=
  Strategy.set_status r
    (_compute_status (Strategy.success_count r) (Strategy.fail_count r)).

(** A request used in the examples. *)
Definition sample_report (provider : string) (success : bool)
  : ReportRequest.t :=
  ReportRequest.mk provider "video" ["--dpi-desync=fake"; " --TTL=3 "] success
    (Float64.of_Z 40) "0123456789abcdef" "1.0".

(** What every row written by [upsert_strategy] satisfies: the stored
    hash is the fingerprint of the stored parameters, the row has a
    vote, and [last_confirmed] is absent exactly when no success was
    reported. *)
Definition well_formed (r : Strategy.t) : Prop :=
  Strategy.strategy_hash r = compute_strategy_hash (Strategy.zapret_args r)
  /\ 0 <= Strategy.success_count r
  /\ 0 <= Strategy.fail_count r
  /\ 1 <= Strategy.success_count r + Strategy.fail_count r
  /\ (Strategy.last_confirmed r = None <-> Strategy.success_count r = 0).

(** The configuration of [sample_report], written differently. *)
Definition sample_variant : ReportRequest.t :=
  ReportRequest.mk "isp" "video" [" --ttl=3 "; "  "; "--DPI-Desync=fake"] true
    (Float64.of_Z 55) "fedcba9876543210" "1.1".

(** The two tests of the sweep that do not read the status, and the
    status the two UPDATEs leave. *)
Definition aged (now : timestamp) (r : Strategy.t) : bool :=
  match Strategy.last_confirmed r with
  | Some t => t <? now - Config.STALE_DAYS * one_day
  | None => false
  end.

Definition rate_low (r : Strategy.t) : bool :=
  let total := Strategy.success_count r + Strategy.fail_count r in
  (Config.MIN_VOTES_VERIFIED <=? total)
  && Float64.pg_lt
       (Float64.div (Float64.of_Z (Strategy.success_count r)) (Float64.of_Z total))
       Config.STALE_RATE_THRESHOLD.

Definition sweep_status (is_aged is_low : bool) (s : Status) : Status :=
  let s1 := if is_aged && negb (Status_eqb s stale) then stale else s in
  if is_low && negb (Status_eqb s1 stale || Status_eqb s1 degraded)
  then degraded else s1.

(** A log that has used up the limit of one fingerprint. *)
Definition busy_log : list Report.t :=
  repeat (Report.mk 1 "0123456789abcdef" true (Float64.of_Z 40) "1.0" 5) 10.

(** One for a test that holds, zero otherwise. *)
Definition ind (b : bool) : Z := if b then 1 else 0.

(** [ORDER BY strategy_count DESC, sc.display_name], as a relation. *)
Definition listed_before (collate : string -> string -> bool)
  (a b : ServiceRow.t) : Prop :=
  ServiceRow.strategy_count b < ServiceRow.strategy_count a
  \/ (ServiceRow.strategy_count a = ServiceRow.strategy_count b
      /\ collate (ServiceRow.display_name a) (ServiceRow.display_name b) = true).

(** A catalog used in the examples. *)
Definition sample_catalog : list Service.t :=
  [Service.mk "video" "Video" "media" "video.example" "v";
   Service.mk "chat" "Chat" "social" "chat.example" "c";
   Service.mk "audio" "Audio" "media" "audio.example" "a"].

(* ================================================================= *)
(** * Properties *)

(* ================================================================= *)
(** ** Sorting *)

Section SortingFacts.

Context {A : Type} (leb : A -> A -> bool).
Hypothesis leb_total : forall x y, leb x y = true \/ leb y x = true.
Hypothesis leb_trans : forall x y z, leb x y = true -> leb y z = true -> leb x z = true.

Let le (x y : A) : Prop := leb x y = true.

Lemma insert_sorted_perm (x : A) (l : list A) :
  Permutation (x :: l) (insert_sorted leb x l).
Proof.
  induction l as [| y r IH]; simpl; [reflexivity|].
  destruct (leb x y); [reflexivity|].
  rewrite perm_swap. now constructor.
Qed.

Lemma insertion_sort_perm (l : list A) :
  Permutation l (insertion_sort leb l).
Proof.
  induction l as [| x r IH]; simpl; [constructor|].
  rewrite <- insert_sorted_perm. now constructor.
Qed.

Lemma insert_sorted_strongly (x : A) (l : list A) :
  StronglySorted le l -> StronglySorted le (insert_sorted leb x l).
Proof.
  induction 1 as [| y r Hr IH Hy]; simpl.
  - repeat constructor.
  - destruct (leb x y) eqn:Hxy.
    + constructor; [now constructor|].
      constructor; [exact Hxy|].
      rewrite Forall_forall in *. intros z Hz.
      apply (leb_trans x y z); [exact Hxy | now apply Hy].
    + constructor; [exact IH|].
      assert (Hyx : le y x) by (destruct (leb_total x y); [congruence | assumption]).
      rewrite Forall_forall in *. intros z Hz.
      apply (Permutation_in z (Permutation_sym (insert_sorted_perm x r))) in Hz.
      destruct Hz as [<- | Hz]; [exact Hyx | now apply Hy].
Qed.

Lemma insertion_sort_strongly (l : list A) :
  StronglySorted le (insertion_sort leb l).
Proof.
  induction l as [| x r IH]; simpl; [constructor|].
  now apply insert_sorted_strongly.
Qed.

Hypothesis leb_antisym : forall x y, leb x y = true -> leb y x = true -> x = y.

Lemma strongly_sorted_perm_eq (l1 l2 : list A) :
  StronglySorted le l1 -> StronglySorted le l2 -> Permutation l1 l2 -> l1 = l2.
Proof.
  intros H1; revert l2.
  induction H1 as [| a r1 Hr1 IH Ha]; intros l2 H2 HP.
  - now apply Permutation_nil in HP.
  - destruct H2 as [| b r2 Hr2 Hb].
    + apply Permutation_sym, Permutation_nil in HP. discriminate.
    + assert (a = b) as <-.
      { rewrite Forall_forall in Ha, Hb.
        assert (Ina : In a (b :: r2)) by (apply (Permutation_in a HP); now left).
        assert (Inb : In b (a :: r1))
          by (apply (Permutation_in b (Permutation_sym HP)); now left).
        destruct Ina as [-> | Ina]; [reflexivity|].
        destruct Inb as [-> | Inb]; [reflexivity|].
        apply leb_antisym; [now apply Ha | now apply Hb]. }
      f_equal. apply IH; [exact Hr2|].
      now apply Permutation_cons_inv in HP.
Qed.

Lemma insertion_sort_perm_eq (l1 l2 : list A) :
  Permutation l1 l2 -> insertion_sort leb l1 = insertion_sort leb l2.
Proof.
  intros HP. apply strongly_sorted_perm_eq; try apply insertion_sort_strongly.
  rewrite <- !insertion_sort_perm. exact HP.
Qed.

End SortingFacts.

(** ** String order *)

Lemma ascii_compare_N (a b : ascii) :
  Ascii.compare a b = N.compare (N_of_ascii a) (N_of_ascii b).
Proof. reflexivity. Qed.

Lemma string_compare_trans_le (s1 s2 s3 : string) :
  String.compare s1 s2 <> Gt -> String.compare s2 s3 <> Gt ->
  String.compare s1 s3 <> Gt.
Proof.
  revert s2 s3. induction s1 as [| a r1 IH]; intros [| b r2] [| c r3]; simpl;
    try congruence.
  rewrite !ascii_compare_N.
  destruct (N.compare_spec (N_of_ascii a) (N_of_ascii b)) as [Hab | Hab | Hab];
    destruct (N.compare_spec (N_of_ascii b) (N_of_ascii c)) as [Hbc | Hbc | Hbc];
    try congruence;
    destruct (N.compare_spec (N_of_ascii a) (N_of_ascii c)) as [Hac | Hac | Hac];
    try congruence; try lia.
  intros. eapply IH; eassumption.
Qed.

Lemma string_leb_trans (x y z : string) :
  String.leb x y = true -> String.leb y z = true -> String.leb x z = true.
Proof.
  unfold String.leb. intros H1 H2.
  assert (String.compare x z <> Gt).
  { apply (string_compare_trans_le x y z).
    - destruct (String.compare x y); congruence.
    - destruct (String.compare y z); congruence. }
  destruct (String.compare x z); congruence.
Qed.

Lemma sorted_perm_eq (l1 l2 : list string) :
  Permutation l1 l2 -> PyStr.sorted l1 = PyStr.sorted l2.
Proof.
  apply insertion_sort_perm_eq.
  - apply String.leb_total.
  - apply string_leb_trans.
  - apply String.leb_antisym.
Qed.

(* ================================================================= *)
(** ** Fingerprinting *)

Lemma isspace_lower_char (c : ascii) :
  PyStr.isspace (PyStr.lower_char c) = PyStr.isspace c.
Proof. destruct c as [[] [] [] [] [] [] [] []]; reflexivity. Qed.

Lemma lower_char_idem (c : ascii) :
  PyStr.lower_char (PyStr.lower_char c) = PyStr.lower_char c.
Proof. destruct c as [[] [] [] [] [] [] [] []]; reflexivity. Qed.

Lemma lower_lstrip (s : string) :
  PyStr.lower (PyStr.lstrip s) = PyStr.lstrip (PyStr.lower s).
Proof.
  induction s as [| c r IH]; simpl; [reflexivity|].
  rewrite isspace_lower_char. destruct (PyStr.isspace c); [exact IH | reflexivity].
Qed.

Lemma lower_rstrip (s : string) :
  PyStr.lower (PyStr.rstrip s) = PyStr.rstrip (PyStr.lower s).
Proof.
  induction s as [| c r IH]; simpl; [reflexivity|].
  rewrite <- IH, isspace_lower_char.
  destruct (PyStr.rstrip r); simpl; [destruct (PyStr.isspace c)|]; reflexivity.
Qed.

Lemma lower_strip (s : string) :
  PyStr.lower (PyStr.strip s) = PyStr.strip (PyStr.lower s).
Proof. unfold PyStr.strip. now rewrite lower_rstrip, lower_lstrip. Qed.

Lemma lower_empty (s : string) :
  PyStr.lower s = EmptyString <-> s = EmptyString.
Proof. destruct s; simpl; split; congruence. Qed.

Lemma truthy_lower (s : string) :
  PyStr.truthy (PyStr.lower s) = PyStr.truthy s.
Proof. destruct s; reflexivity. Qed.

Lemma truthy_strip_normalize (a : string) :
  PyStr.truthy (PyStr.strip a) = PyStr.truthy (normalize_arg a).
Proof. unfold normalize_arg. now rewrite truthy_lower. Qed.

Lemma lstrip_all_whitespace (w s : string) :
  all_whitespace w = true -> PyStr.lstrip (w ++ s) = PyStr.lstrip s.
Proof.
  induction w as [| c r IH]; simpl; [reflexivity|].
  intros H. apply andb_prop in H as [Hc Hr]. rewrite Hc. now apply IH.
Qed.

Lemma rstrip_all_whitespace_nil (w : string) :
  all_whitespace w = true -> PyStr.rstrip w = EmptyString.
Proof.
  induction w as [| c r IH]; simpl; [reflexivity|].
  intros H. apply andb_prop in H as [Hc Hr]. now rewrite (IH Hr), Hc.
Qed.

Lemma rstrip_all_whitespace (s w : string) :
  all_whitespace w = true -> PyStr.rstrip (s ++ w) = PyStr.rstrip s.
Proof.
  intros Hw. induction s as [| c r IH]; simpl.
  - now apply rstrip_all_whitespace_nil.
  - now rewrite IH.
Qed.

Lemma lstrip_all_whitespace_nil (w : string) :
  all_whitespace w = true -> PyStr.lstrip w = EmptyString.
Proof.
  induction w as [| c r IH]; simpl; [reflexivity|].
  intros H. apply andb_prop in H as [Hc Hr]. rewrite Hc. now apply IH.
Qed.

Lemma lstrip_app_whitespace (a w : string) :
  all_whitespace w = true ->
  PyStr.lstrip (a ++ w) =
    match PyStr.lstrip a with
    | EmptyString => EmptyString
    | r => (r ++ w)%string
    end.
Proof.
  intros Hw. induction a as [| c r IH]; simpl.
  - now apply lstrip_all_whitespace_nil.
  - destruct (PyStr.isspace c); [exact IH | reflexivity].
Qed.

Lemma strip_padded (w1 a w2 : string) :
  all_whitespace w1 = true -> all_whitespace w2 = true ->
  PyStr.strip (w1 ++ a ++ w2) = PyStr.strip a.
Proof.
  intros H1 H2. unfold PyStr.strip.
  rewrite (lstrip_all_whitespace _ _ H1), (lstrip_app_whitespace _ _ H2).
  destruct (PyStr.lstrip a) as [| c r] eqn:Ha; [reflexivity|].
  now apply (rstrip_all_whitespace (String c r)).
Qed.

Lemma strip_all_whitespace (w : string) :
  all_whitespace w = true -> PyStr.strip w = EmptyString.
Proof. intros H. unfold PyStr.strip. now rewrite (lstrip_all_whitespace_nil _ H). Qed.

Lemma arg_variant_normalize (a b : string) :
  arg_variant a b -> normalize_arg a = normalize_arg b.
Proof.
  unfold normalize_arg. intros [x y H | w1 x w2 H1 H2].
  - now rewrite !lower_strip, H.
  - now rewrite strip_padded.
Qed.

Lemma normalized_args_cons (a : string) (l : list string) :
  normalized_args (a :: l) =
    if PyStr.truthy (normalize_arg a)
    then normalize_arg a :: normalized_args l
    else normalized_args l.
Proof.
  unfold normalized_args. simpl. rewrite truthy_strip_normalize.
  now destruct (PyStr.truthy (normalize_arg a)).
Qed.

Lemma normalized_args_perm (l l' : list string) :
  Permutation l l' -> Permutation (normalized_args l) (normalized_args l').
Proof.
  intros H. unfold normalized_args. apply Permutation_map.
  induction H; simpl.
  - constructor.
  - destruct (PyStr.truthy (PyStr.strip x)); [now constructor | assumption].
  - destruct (PyStr.truthy (PyStr.strip x)), (PyStr.truthy (PyStr.strip y));
      try reflexivity. apply perm_swap.
  - etransitivity; eassumption.
Qed.

Lemma config_variant_normalized (l l' : list string) :
  config_variant l l' -> Permutation (normalized_args l) (normalized_args l').
Proof.
  induction 1 as [| a b l l' Hab _ IH | w l l' Hw _ IH | l l' HP
                 | l l' _ IH | l l' l'' _ IH1 _ IH2].
  - constructor.
  - rewrite !normalized_args_cons, (arg_variant_normalize a b Hab).
    destruct (PyStr.truthy (normalize_arg b)); [now constructor | exact IH].
  - rewrite normalized_args_cons. unfold normalize_arg.
    now rewrite (strip_all_whitespace w Hw).
  - now apply normalized_args_perm.
  - now symmetry.
  - etransitivity; eassumption.
Qed.

Lemma contains_app (c : ascii) (x y : string) :
  PyStr.contains c (x ++ y) = PyStr.contains c x || PyStr.contains c y.
Proof.
  induction x as [| d r IH]; simpl; [reflexivity|].
  now rewrite IH, orb_assoc.
Qed.

Lemma split_at_separator (c : ascii) (x y r1 r2 : string) :
  PyStr.contains c x = false -> PyStr.contains c y = false ->
  (x ++ String c r1)%string = (y ++ String c r2)%string ->
  x = y /\ r1 = r2.
Proof.
  revert y. induction x as [| a x IH]; intros [| b y]; simpl; intros Hx Hy E.
  - now inversion E.
  - inversion E; subst. now rewrite Ascii.eqb_refl in Hy.
  - inversion E; subst. now rewrite Ascii.eqb_refl in Hx.
  - apply orb_false_elim in Hx as [_ Hx]. apply orb_false_elim in Hy as [_ Hy].
    inversion E; subst.
    destruct (IH y Hx Hy H1) as [-> ->]. now split.
Qed.

Lemma join_cons (sep x : string) (l : list string) :
  PyStr.join sep (x :: l) =
    match l with
    | [] => x
    | _ :: _ => (x ++ sep ++ PyStr.join sep l)%string
    end.
Proof. reflexivity. Qed.

Lemma join_injective (l1 l2 : list string) :
  (forall x, In x l1 -> x <> EmptyString /\ PyStr.contains "|" x = false) ->
  (forall x, In x l2 -> x <> EmptyString /\ PyStr.contains "|" x = false) ->
  PyStr.join "|" l1 = PyStr.join "|" l2 -> l1 = l2.
Proof.
  revert l2. induction l1 as [| x r1 IH]; intros [| y r2] H1 H2 E.
  - reflexivity.
  - exfalso. destruct (H2 y (or_introl eq_refl)) as [Hy _].
    rewrite join_cons in E. simpl in E.
    destruct r2; [congruence|]. destruct y; [congruence | discriminate].
  - exfalso. destruct (H1 x (or_introl eq_refl)) as [Hx _].
    rewrite join_cons in E. simpl in E.
    destruct r1; [congruence|]. destruct x; [congruence | discriminate].
  - destruct (H1 x (or_introl eq_refl)) as [_ Hx].
    destruct (H2 y (or_introl eq_refl)) as [_ Hy].
    rewrite !join_cons in E.
    destruct r1 as [| x' r1'], r2 as [| y' r2'].
    + now subst.
    + exfalso. subst x. rewrite contains_app in Hx.
      apply orb_false_elim in Hx as [_ Hx]. simpl in Hx. discriminate.
    + exfalso. subst y. rewrite contains_app in Hy.
      apply orb_false_elim in Hy as [_ Hy]. simpl in Hy. discriminate.
    + simpl append in E.
      destruct (split_at_separator "|" x y _ _ Hx Hy E) as [-> E'].
      f_equal. apply IH.
      * intros z Hz. apply H1. now right.
      * intros z Hz. apply H2. now right.
      * exact E'.
Qed.

Lemma normalized_args_nonempty (a : list string) (x : string) :
  In x (normalized_args a) -> x <> EmptyString.
Proof.
  unfold normalized_args. rewrite in_map_iff.
  intros (y & <- & Hy). apply filter_In in Hy as [_ Hy].
  unfold normalize_arg, PyStr.truthy in *.
  destruct (PyStr.strip y); simpl in *; congruence.
Qed.

(** The digest on the test vectors of the standard. *)
Example sha256_empty :
  SHA256.hexdigest (PyStr.encode "")
  = "e3b0c44298fc1c149afbf4c8996fb92427ae41e4649b934ca495991b7852b855".
Proof. vm_compute. reflexivity. Qed.

Example sha256_abc :
  SHA256.hexdigest (PyStr.encode "abc")
  = "ba7816bf8f01cfea414140de5dae2223b00361a396177a9cb410ff61f20015ad".
Proof. vm_compute. reflexivity. Qed.

Example sha256_two_blocks :
  SHA256.hexdigest
    (PyStr.encode "abcdbcdecdefdefgefghfghighijhijkijkljklmklmnlmnomnopnopq")
  = "248d6a61d20638b8e5c026930c3e6039a33ce45964ff2167f6ecedd419db06c1".
Proof. vm_compute. reflexivity. Qed.

Lemma pre_digest_perm (a b : list string) :
  Permutation (normalized_args a) (normalized_args b) ->
  pre_digest a = pre_digest b.
Proof. intros H. unfold pre_digest. now rewrite (sorted_perm_eq _ _ H). Qed.

Lemma separator_free_sorted (a : list string) (x : string) :
  separator_free a -> In x (PyStr.sorted (normalized_args a)) ->
  x <> EmptyString /\ PyStr.contains "|" x = false.
Proof.
  intros Ha Hx.
  apply (Permutation_in x
           (Permutation_sym (insertion_sort_perm String.leb (normalized_args a))))
    in Hx.
  split; [now apply (normalized_args_nonempty a) | now apply Ha].
Qed.

(** C4. Reordering the parameters of a configuration, changing the case of
    a parameter, putting whitespace before or after it, and adding or
    dropping empty and whitespace-only entries leave the hash unchanged. *)
Theorem hash_invariant_under_variation (a b : list string) :
  config_variant a b -> compute_strategy_hash a = compute_strategy_hash b.
Proof.
  intros H. unfold compute_strategy_hash.
  now rewrite (pre_digest_perm a b (config_variant_normalized a b H)).
Qed.

Lemma hash_invariant_under_variation_witness :
  config_variant ["--DPI-Desync=Fake"; "--ttl=5"]
                 ["--dpi-desync=fake"; ""; "  --TTL=5 "; "   "]
  /\ compute_strategy_hash ["--DPI-Desync=Fake"; "--ttl=5"]
     = compute_strategy_hash ["--dpi-desync=fake"; ""; "  --TTL=5 "; "   "].
Proof.
  assert (H : config_variant ["--DPI-Desync=Fake"; "--ttl=5"]
                ["--dpi-desync=fake"; ""; "  --TTL=5 "; "   "]).
  { apply variant_arg; [now apply variant_case|].
    apply variant_blank; [reflexivity|].
    apply (variant_trans _ ["--TTL=5"]).
    - apply variant_arg; [now apply variant_case | apply variant_nil].
    - apply variant_arg; [apply (variant_space "  " "--TTL=5" " "); reflexivity|].
      apply variant_blank; [reflexivity | apply variant_nil]. }
  split; [exact H | exact (hash_invariant_under_variation _ _ H)].
Defined.

(** C3 (amended). Two configurations with the same normalized parameters,
    counted with their repetitions, have the same hash; and when no
    normalized parameter holds the separator, the strings handed to the
    digest are equal exactly when the normalized parameters, counted with
    their repetitions, are the same. *)
Theorem hash_identifies_parameter_multiset (a b : list string) :
  (Permutation (normalized_args a) (normalized_args b) ->
   compute_strategy_hash a = compute_strategy_hash b)
  /\ (separator_free a -> separator_free b ->
      (pre_digest a = pre_digest b
       <-> Permutation (normalized_args a) (normalized_args b))).
Proof.
  split.
  - intros H. unfold compute_strategy_hash. now rewrite (pre_digest_perm a b H).
  - intros Ha Hb. split; [| apply pre_digest_perm].
    unfold pre_digest. intros E.
    apply join_injective in E.
    + rewrite (insertion_sort_perm String.leb (normalized_args a)).
      rewrite (insertion_sort_perm String.leb (normalized_args b)).
      fold (PyStr.sorted (normalized_args a)). fold (PyStr.sorted (normalized_args b)).
      now rewrite E.
    + intros x. now apply separator_free_sorted.
    + intros x. now apply separator_free_sorted.
Qed.

Lemma hash_identifies_parameter_multiset_witness :
  separator_free ["--B"; "--a"; "--a"] /\ separator_free [" --A "; "--b"; "--a"]
  /\ pre_digest ["--B"; "--a"; "--a"] = pre_digest [" --A "; "--b"; "--a"]
  /\ Permutation (normalized_args ["--B"; "--a"; "--a"])
                 (normalized_args [" --A "; "--b"; "--a"])
  /\ compute_strategy_hash ["--B"; "--a"; "--a"]
     = compute_strategy_hash [" --A "; "--b"; "--a"].
Proof.
  assert (Ha : separator_free ["--B"; "--a"; "--a"]).
  { intros x Hx. vm_compute in Hx.
    destruct Hx as [<- | [<- | [<- | []]]]; reflexivity. }
  assert (Hb : separator_free [" --A "; "--b"; "--a"]).
  { intros x Hx. vm_compute in Hx.
    destruct Hx as [<- | [<- | [<- | []]]]; reflexivity. }
  assert (E : pre_digest ["--B"; "--a"; "--a"] = pre_digest [" --A "; "--b"; "--a"])
    by reflexivity.
  pose proof (hash_identifies_parameter_multiset
                ["--B"; "--a"; "--a"] [" --A "; "--b"; "--a"]) as [H1 H2].
  pose proof (proj1 (H2 Ha Hb) E) as HP.
  split; [exact Ha | split; [exact Hb | split; [exact E |]]].
  split; [exact HP | exact (H1 HP)].
Defined.

(** C3, as stated, fails twice: a parameter may hold the separator, so two
    different parameter sets meet in one digest input; and repetitions are
    kept, so one parameter set has several hashes. *)
Lemma hash_not_determined_by_parameter_set :
  ~ (compute_strategy_hash ["a|b"] = compute_strategy_hash ["a"; "b"]
     <-> same_parameter_set ["a|b"] ["a"; "b"])
  /\ ~ (compute_strategy_hash ["a"; "a"] = compute_strategy_hash ["a"]
        <-> same_parameter_set ["a"; "a"] ["a"])
  /\ PyStr.contains "|" (normalize_arg "a|b") = true
  /\ pre_digest ["a|b"] = pre_digest ["a"; "b"].
Proof.
  split; [| split; [| split; reflexivity]].
  - intros [H _].
    assert (E : compute_strategy_hash ["a|b"] = compute_strategy_hash ["a"; "b"])
      by reflexivity.
    specialize (H E "a"). vm_compute in H.
    destruct H as [_ H]. destruct (H (or_introl eq_refl)) as [H' | []].
    discriminate H'.
  - intros [_ H].
    assert (S : same_parameter_set ["a"; "a"] ["a"]).
    { intros x. vm_compute. tauto. }
    specialize (H S). apply String.eqb_eq in H. vm_compute in H. discriminate H.
Qed.

(* ================================================================= *)
(** ** The status function *)

Lemma ltb_0_40_not_geb_0_60 (x : Float64.float) :
  Float64.ltb x Float64.lit_0_40 = true ->
  Float64.geb x Float64.lit_0_60 = false.
Proof.
  unfold Float64.ltb, Float64.geb, SFltb, SFleb,
    Float64.lit_0_40, Float64.lit_0_60.
  destruct x as [sx | sx | | sx m e]; cbn [SFcompare];
    try (destruct sx; congruence).
  - congruence.
  - destruct sx; [reflexivity|].
    destruct (Z.compare_spec e (-54)) as [He | He | He];
    destruct (Z.compare_spec (-53) e) as [He' | He' | He']; try lia; try congruence; reflexivity.
Qed.

(** *** Rounding of a quotient of integers *)

Lemma digits2_pos_bounds (p : positive) :
  2 ^ (Zpos (digits2_pos p) - 1) <= Zpos p < 2 ^ Zpos (digits2_pos p).
Proof.
  induction p as [p IH | p IH |]; cbn [digits2_pos];
    [rewrite Pos2Z.inj_succ, Pos2Z.inj_xI
    | rewrite Pos2Z.inj_succ; change (Zpos p~0) with (2 * Zpos p)
    | split; [apply Z.leb_le | apply Z.ltb_lt]; reflexivity];
    ((replace (Z.succ (Zpos (digits2_pos p)) - 1)
        with (Z.succ (Zpos (digits2_pos p) - 1)) by lia);
     (rewrite !Z.pow_succ_r by lia);
     set (a := 2 ^ (Zpos (digits2_pos p) - 1)) in *;
     set (b := 2 ^ Zpos (digits2_pos p)) in *; lia).
Qed.

Lemma Zdigits2_unique (n k : Z) :
  2 ^ (k - 1) <= n < 2 ^ k -> 0 < k -> Zdigits2 n = k.
Proof.
  intros [Hlo Hhi] Hk.
  assert (0 < n) by (pose proof (Z.pow_pos_nonneg 2 (k - 1)); lia).
  destruct n as [| p | p]; try lia. cbn [Zdigits2].
  pose proof (digits2_pos_bounds p) as [Dlo Dhi].
  set (d := Zpos (digits2_pos p)) in *.
  destruct (Z.lt_trichotomy d k) as [L | [E | L]]; [| exact E |].
  - pose proof (Z.pow_le_mono_r 2 d (k - 1)). lia.
  - pose proof (Z.pow_le_mono_r 2 k (d - 1)). lia.
Qed.

Lemma fexp_normal (e : Z) :
  -1021 <= e -> fexp 53 1024 e = e - 53.
Proof. unfold fexp, emin. lia. Qed.

Lemma shr_1_pos (m : Z) (r s : bool) :
  0 < m ->
  shr_1 (Build_shr_record m r s)
  = Build_shr_record (Z.div2 m) (Z.odd m) (r || s).
Proof. destruct m as [| [p | p |] | p]; try lia; reflexivity. Qed.

Lemma new_location_of (t r : Z) :
  0 <= r < t -> location_of (new_location t r) r t.
Proof.
  intros H. unfold new_location, new_location_even, new_location_odd.
  destruct (Z.even t) eqn:Ev.
  - destruct (Z.eqb_spec r 0) as [E | E]; [exact E|].
    destruct (Z.compare_spec (2 * r) t); cbn [location_of]; lia.
  - destruct (Z.eqb_spec r 0) as [E | E]; [exact E|].
    assert (Hodd : Z.odd t = true) by (rewrite <- Z.negb_even, Ev; reflexivity).
    apply Z.odd_spec in Hodd as [k Hk].
    destruct (Z.compare_spec (2 * r + 1) t); cbn [location_of]; lia.
Qed.

(** The last step of [binary_round_aux]: a mantissa of 53 bits is kept,
    and [2^53] is written [2^52] one exponent higher. *)
Lemma round_final (m e : Z) :
  2 ^ 52 <= m <= 2 ^ 53 -> -1074 <= e <= 970 ->
  exists m' j,
    (let '(mrs, e') := shr_fexp 53 1024 m e loc_Exact in
     match shr_m mrs with
     | Z0 => S754_zero false
     | Zpos p => if e' <=? 1024 - 53 then S754_finite false p e'
                 else S754_infinity false
     | Zneg _ => S754_nan
     end) = S754_finite false m' (e + j)
    /\ 2 ^ 52 <= Zpos m' < 2 ^ 53 /\ 0 <= j <= 1
    /\ Zpos m' * 2 ^ j = m.
Proof.
  intros Hm He. unfold shr_fexp.
  destruct (Z.eq_dec m (2 ^ 53)) as [E | NE].
  - subst m. exists (Z.to_pos (2 ^ 52)), 1.
    rewrite (Zdigits2_unique (2 ^ 53) 54) by (simpl; lia).
    rewrite fexp_normal by lia.
    replace (54 + e - 53 - e) with 1 by lia.
    cbn [shr iter_pos shr_record_of_loc].
    rewrite shr_1_pos by (simpl; lia). cbn [shr_m].
    change (Z.div2 (2 ^ 53)) with (Zpos (Z.to_pos (2 ^ 52))).
    replace (e + 1 <=? 1024 - 53) with true by (symmetry; apply Z.leb_le; lia).
    split; [reflexivity|]. split; [simpl; lia|]. split; [lia | reflexivity].
  - exists (Z.to_pos m), 0.
    rewrite (Zdigits2_unique m 53) by lia.
    rewrite fexp_normal by lia.
    replace (53 + e - 53 - e) with 0 by lia.
    cbn [shr shr_record_of_loc shr_m].
    assert (0 < m) by (simpl in Hm; lia).
    destruct m as [| p | p]; try lia.
    replace (e <=? 1024 - 53) with true by (symmetry; apply Z.leb_le; lia).
    rewrite Z.add_0_r. split; [reflexivity|]. cbn [Z.to_pos].
    split; [lia|]. split; lia.
Qed.

Lemma shr_record_of_loc_m (m : Z) (l : location) :
  shr_m (shr_record_of_loc m l) = m.
Proof. destruct l as [| []]; reflexivity. Qed.

Lemma loc_of_shr_record_of_loc (m : Z) (l : location) :
  loc_of_shr_record (shr_record_of_loc m l) = l.
Proof. destruct l as [| []]; reflexivity. Qed.

(** Rounding to nearest moves a mantissa by at most half a unit. *)
Lemma round_nearest_even_near (m r t : Z) (l : location) :
  0 <= r < t -> location_of l r t ->
  m <= round_nearest_even m l <= m + 1
  /\ 2 * Z.abs (m * t + r - round_nearest_even m l * t) <= t.
Proof.
  intros Hr Hl. destruct l as [| []]; cbn [round_nearest_even location_of] in *.
  - subst r. split; [lia|]. replace (m * t + 0 - m * t) with 0 by lia. simpl. lia.
  - destruct (Z.even m).
    + split; [lia|]. replace (m * t + r - m * t) with r by lia. lia.
    + split; [lia|]. replace (m * t + r - (m + 1) * t) with (r - t) by lia. lia.
  - split; [lia|]. replace (m * t + r - m * t) with r by lia. lia.
  - split; [lia|]. replace (m * t + r - (m + 1) * t) with (r - t) by lia. lia.
Qed.

(** One shift to the right: the mantissa is halved and the location
    speaks of the remainder [(q mod 2) * t + r] among [2 * t] steps. *)
Lemma shifted_location (q r t : Z) (l : location) :
  0 < q -> 0 <= r < t -> location_of l r t ->
  let mrs := shr_1 (shr_record_of_loc q l) in
  shr_m mrs = q / 2
  /\ location_of (loc_of_shr_record mrs) ((q mod 2) * t + r) (2 * t).
Proof.
  intros Hq Hr Hl. cbv zeta.
  assert (E : shr_record_of_loc q l
              = Build_shr_record q
                  (match l with loc_Inexact (Eq | Gt) => true | _ => false end)
                  (match l with loc_Inexact (Lt | Gt) => true | _ => false end))
    by (destruct l as [| []]; reflexivity).
  rewrite E, shr_1_pos by exact Hq. cbn [shr_m].
  split; [apply Z.div2_div|].
  rewrite Zmod_odd.
  destruct (Z.odd q), l as [| []]; cbn [loc_of_shr_record orb location_of] in *; lia.
Qed.

Lemma binary_round_aux_near (q e r t : Z) (l : location) :
  2 ^ 52 <= q < 2 ^ 54 -> -1074 <= e <= 960 ->
  0 <= r < t -> location_of l r t ->
  exists m j,
    binary_round_aux 53 1024 false q e l = S754_finite false m (e + j)
    /\ 2 ^ 52 <= Zpos m < 2 ^ 53 /\ 0 <= j <= 2
    /\ 2 * Z.abs (q * t + r - Zpos m * 2 ^ j * t) <= 2 ^ j * t.
Proof.
  intros Hq He Hr Hl. unfold binary_round_aux.
  destruct (Z_lt_le_dec q (2 ^ 53)) as [H53 | H54].
  - (* a quotient of 53 bits *)
    unfold shr_fexp at 1.
    rewrite (Zdigits2_unique q 53) by lia.
    rewrite fexp_normal by lia.
    replace (53 + e - 53 - e) with 0 by lia.
    cbn [shr]. rewrite shr_record_of_loc_m, loc_of_shr_record_of_loc.
    destruct (round_nearest_even_near q r t l Hr Hl) as [Hm Hnear].
    destruct (round_final (round_nearest_even q l) e) as (m & j & -> & Hm' & Hj & Em);
      [lia | lia |].
    exists m, j. split; [reflexivity|]. split; [exact Hm'|]. split; [lia|].
    rewrite Em.
    assert (1 <= 2 ^ j) by (pose proof (Z.pow_pos_nonneg 2 j); lia).
    set (p := 2 ^ j) in *. nia.
  - (* a quotient of 54 bits *)
    unfold shr_fexp at 1.
    rewrite (Zdigits2_unique q 54) by lia.
    rewrite fexp_normal by lia.
    replace (54 + e - 53 - e) with 1 by lia.
    cbn [shr iter_pos].
    destruct (shifted_location q r t l) as [Em1 Hl1]; [lia | exact Hr | exact Hl |].
    rewrite Em1.
    set (l1 := loc_of_shr_record (shr_1 (shr_record_of_loc q l))) in *.
    pose proof (Z.div_mod q 2 ltac:(lia)) as Hdiv.
    pose proof (Z.mod_pos_bound q 2 ltac:(lia)) as Hmod.
    set (m1 := q / 2) in *. set (b := q mod 2) in *.
    destruct (round_nearest_even_near m1 (b * t + r) (2 * t) l1) as [Hm Hnear];
      [nia | exact Hl1 |].
    destruct (round_final (round_nearest_even m1 l1) (e + 1))
      as (m & j & -> & Hm' & Hj & Em); [lia | lia |].
    exists m, (1 + j). split; [f_equal; lia|]. split; [exact Hm'|]. split; [lia|].
    rewrite Z.pow_add_r by lia. change (2 ^ 1) with 2.
    assert (1 <= 2 ^ j) by (pose proof (Z.pow_pos_nonneg 2 j); lia).
    set (p := 2 ^ j) in *.
    replace (Zpos m * (2 * p) * t) with (2 * (round_nearest_even m1 l1 * t)) by nia.
    replace (q * t + r) with (2 * (m1 * t) + (b * t + r)) by nia.
    nia.
Qed.

Lemma div_core_positive (ps pt : positive) :
  let d1 := Zpos (digits2_pos ps) in
  let d2 := Zpos (digits2_pos pt) in
  let sh := 53 + d2 - d1 in
  d1 <= d2 -> d2 <= 1000 ->
  SFdiv_core_binary 53 1024 (Zpos ps) 0 (Zpos pt) 0
  = ((Zpos ps * 2 ^ sh) / Zpos pt, - sh,
     new_location (Zpos pt) ((Zpos ps * 2 ^ sh) mod Zpos pt)).
Proof.
  cbv zeta. intros H12 H2. unfold SFdiv_core_binary. cbn [Zdigits2].
  set (d1 := Zpos (digits2_pos ps)) in *. set (d2 := Zpos (digits2_pos pt)) in *.
  assert (0 < d1) by (unfold d1; lia).
  rewrite !Z.add_0_r, fexp_normal by lia.
  replace (Z.min (d1 - d2 - 53) (0 - 0)) with (- (53 + d2 - d1)) by lia.
  replace (0 - 0 - - (53 + d2 - d1)) with (53 + d2 - d1) by lia.
  destruct (53 + d2 - d1) as [| sh | sh] eqn:Esh; try lia.
  rewrite Z.shiftl_mul_pow2 by lia.
  unfold Z.div, Z.modulo.
  now destruct (Z.div_eucl (Zpos ps * 2 ^ Zpos sh) (Zpos pt)).
Qed.

(** The quotient of two positive integers [s <= t] is a normal number
    within half a unit in the last place of the exact quotient. *)
Lemma py_truediv_near (s t : Z) :
  0 < s <= t -> t < 2 ^ 1000 ->
  exists m e,
    Float64.py_truediv s t = S754_finite false m e
    /\ 2 ^ 52 <= Zpos m < 2 ^ 53 /\ e <= -51
    /\ 2 * Z.abs (s * 2 ^ (- e) - Zpos m * t) <= t.
Proof.
  intros Hs Ht.
  destruct s as [| ps | ps]; try lia. destruct t as [| pt | pt]; try lia.
  pose proof (digits2_pos_bounds ps) as Ds.
  pose proof (digits2_pos_bounds pt) as Dt.
  set (d1 := Zpos (digits2_pos ps)) in *. set (d2 := Zpos (digits2_pos pt)) in *.
  assert (Hd1 : 0 < d1) by (unfold d1; lia).
  assert (Hd2 : 0 < d2) by (unfold d2; lia).
  assert (H12 : d1 <= d2).
  { destruct (Z_le_gt_dec d1 d2) as [L | G]; [exact L | exfalso].
    pose proof (Z.pow_le_mono_r 2 d2 (d1 - 1)). lia. }
  assert (H2 : d2 <= 1000).
  { destruct (Z_le_gt_dec d2 1000) as [L | G]; [exact L | exfalso].
    pose proof (Z.pow_le_mono_r 2 1000 (d2 - 1)). lia. }
  unfold Float64.py_truediv, Float64.div, Float64.of_Z_exact, SFdiv,
    Float64.prec, Float64.emax.
  rewrite (div_core_positive ps pt H12 H2). fold d1 d2.
  set (sh := 53 + d2 - d1) in *.
  assert (Epow : 2 ^ sh * 2 ^ (d1 - 1) = 2 ^ 53 * 2 ^ (d2 - 1)).
  { rewrite <- !Z.pow_add_r by lia. f_equal. lia. }
  assert (E1 : 2 ^ d1 = 2 * 2 ^ (d1 - 1)).
  { rewrite <- Z.pow_succ_r by lia. f_equal. lia. }
  assert (E2 : 2 ^ d2 = 2 * 2 ^ (d2 - 1)).
  { rewrite <- Z.pow_succ_r by lia. f_equal. lia. }
  assert (HP : 0 < 2 ^ sh) by (apply Z.pow_pos_nonneg; lia).
  pose proof (Z.div_mod (Zpos ps * 2 ^ sh) (Zpos pt) ltac:(lia)) as Hdiv.
  pose proof (Z.mod_pos_bound (Zpos ps * 2 ^ sh) (Zpos pt) ltac:(lia)) as Hmod.
  set (q := (Zpos ps * 2 ^ sh) / Zpos pt) in *.
  set (r := (Zpos ps * 2 ^ sh) mod Zpos pt) in *.
  assert (Hq : 2 ^ 52 <= q < 2 ^ 54).
  { rewrite E1 in Ds. rewrite E2 in Dt.
    set (A := 2 ^ (d1 - 1)) in *. set (B := 2 ^ (d2 - 1)) in *.
    set (P := 2 ^ sh) in *.
    assert (A * P <= Zpos ps * P) by nia.
    assert (Zpos ps * P < 2 * A * P) by nia.
    change (2 ^ 53) with 9007199254740992 in Epow.
    change (2 ^ 52) with 4503599627370496.
    change (2 ^ 54) with 18014398509481984.
    split; nia. }
  destruct (binary_round_aux_near q (- sh) r (Zpos pt) (new_location (Zpos pt) r))
    as (m & j & E & Hm & Hj & Hnear);
    [exact Hq | lia | exact Hmod | now apply new_location_of |].
  cbn [xorb]. rewrite E.
  exists m, (- sh + j). split; [reflexivity|]. split; [exact Hm|]. split; [lia|].
  replace (- (- sh + j)) with (sh - j) by lia.
  assert (EP : 2 ^ sh = 2 ^ (sh - j) * 2 ^ j).
  { rewrite <- Z.pow_add_r by lia. f_equal. lia. }
  replace (q * Zpos pt + r) with (Zpos ps * (2 ^ (sh - j) * 2 ^ j)) in Hnear
    by (rewrite <- EP; lia).
  set (P := 2 ^ (sh - j)) in *.
  assert (Hj' : j = 0 \/ j = 1 \/ j = 2) by lia.
  destruct Hj' as [-> | [-> | ->]].
  - change (2 ^ 0) with 1 in Hnear. lia.
  - change (2 ^ 1) with 2 in Hnear. lia.
  - change (2 ^ 2) with 4 in Hnear. lia.
Qed.

Lemma geb_finite (m m' : positive) (e e' : Z) :
  Float64.geb (S754_finite false m e) (S754_finite false m' e') = true
  <-> e' < e \/ (e = e' /\ Zpos m' <= Zpos m).
Proof.
  unfold Float64.geb, SFleb. cbn [SFcompare].
  destruct (Z.compare_spec e' e) as [E | L | G].
  - rewrite Pos.compare_cont_spec. cbn [Pos.switch_Eq].
    pose proof (Pos.compare_spec m' m) as C.
    destruct C; split; intros; try lia; try discriminate; try reflexivity.
  - split; [lia | reflexivity].
  - split; [discriminate | lia].
Qed.

Lemma ltb_finite (m m' : positive) (e e' : Z) :
  Float64.ltb (S754_finite false m e) (S754_finite false m' e') = true
  <-> e < e' \/ (e = e' /\ Zpos m < Zpos m').
Proof.
  unfold Float64.ltb, SFltb. cbn [SFcompare].
  destruct (Z.compare_spec e e') as [E | L | G].
  - rewrite Pos.compare_cont_spec. cbn [Pos.switch_Eq].
    pose proof (Pos.compare_spec m m') as C.
    destruct C; split; intros; try lia; try discriminate; try reflexivity.
  - split; [lia | reflexivity].
  - split; [discriminate | lia].
Qed.

(** On totals below [2^51] the comparison of the rounded rate with the
    literal [0.60] is the comparison of the exact rate with 3/5. *)
Lemma geb_0_60_exact (s t : Z) :
  0 <= s <= t -> 0 < t < 2 ^ 51 ->
  (Float64.geb (Float64.py_truediv s t) Float64.lit_0_60 = true <-> 3 * t <= 5 * s).
Proof.
  intros Hs Ht.
  destruct (Z.eq_dec s 0) as [-> | Hs0].
  - destruct t as [| pt | pt]; try lia. cbn. split; [discriminate | lia].
  - destruct (py_truediv_near s t) as (m & e & -> & Hm & He & Hnear);
      [lia | | ].
    { pose proof (Z.pow_lt_mono_r 2 51 1000). lia. }
    unfold Float64.lit_0_60. rewrite geb_finite.
    change (2 ^ 51) with 2251799813685248 in Ht.
    change (2 ^ 52) with 4503599627370496 in Hm.
    change (2 ^ 53) with 9007199254740992 in Hm.
    destruct (Z.lt_trichotomy e (-53)) as [L | [-> | G]].
    + (* below one half *)
      assert (HP : 2 ^ 54 <= 2 ^ (- e)) by (apply Z.pow_le_mono_r; lia).
      change (2 ^ 54) with 18014398509481984 in HP.
      set (P := 2 ^ (- e)) in *.
      assert (s * 18014398509481984 <= s * P) by nia.
      assert (Zpos m * t < 9007199254740992 * t) by nia.
      split; [lia | intros; exfalso; lia].
    + change (2 ^ (- -53)) with 9007199254740992 in Hnear.
      split.
      * intros [? | [_ Hge]]; [lia|].
        assert (5404319552844595 * t <= Zpos m * t) by nia. lia.
      * intros H. right. split; [reflexivity|].
        destruct (Z_le_gt_dec 5404319552844595 (Zpos m)) as [? | Hlt];
          [assumption | exfalso].
        assert (Zpos m * t <= 5404319552844594 * t) by nia. lia.
    + assert (He' : e = -52 \/ e = -51) by lia.
      assert (4503599627370496 * t <= Zpos m * t) by nia.
      destruct He' as [-> | ->].
      * change (2 ^ (- -52)) with 4503599627370496 in Hnear.
        split; [intros _; lia | intros _; left; lia].
      * change (2 ^ (- -51)) with 2251799813685248 in Hnear.
        split; [intros _; lia | intros _; left; lia].
Qed.

(** And the comparison with the literal [0.40] is the comparison of the
    exact rate with 2/5. *)
Lemma ltb_0_40_exact (s t : Z) :
  0 <= s <= t -> 0 < t < 2 ^ 51 ->
  (Float64.ltb (Float64.py_truediv s t) Float64.lit_0_40 = true <-> 5 * s < 2 * t).
Proof.
  intros Hs Ht.
  destruct (Z.eq_dec s 0) as [-> | Hs0].
  - destruct t as [| pt | pt]; try lia. cbn. split; [lia | reflexivity].
  - destruct (py_truediv_near s t) as (m & e & -> & Hm & He & Hnear);
      [lia | | ].
    { pose proof (Z.pow_lt_mono_r 2 51 1000). lia. }
    unfold Float64.lit_0_40. rewrite ltb_finite.
    change (2 ^ 51) with 2251799813685248 in Ht.
    change (2 ^ 52) with 4503599627370496 in Hm.
    change (2 ^ 53) with 9007199254740992 in Hm.
    destruct (Z.lt_trichotomy e (-54)) as [L | [-> | G]].
    + assert (HP : 2 ^ 55 <= 2 ^ (- e)) by (apply Z.pow_le_mono_r; lia).
      change (2 ^ 55) with 36028797018963968 in HP.
      set (P := 2 ^ (- e)) in *.
      assert (s * 36028797018963968 <= s * P) by nia.
      assert (Zpos m * t < 9007199254740992 * t) by nia.
      split; [intros _; lia | intros _; left; lia].
    + change (2 ^ (- -54)) with 18014398509481984 in Hnear.
      split.
      * intros [? | [_ Hlt]]; [lia|].
        assert (Zpos m * t <= 7205759403792793 * t) by nia. lia.
      * intros H. right. split; [reflexivity|].
        destruct (Z_lt_le_dec (Zpos m) 7205759403792794) as [? | Hge];
          [assumption | exfalso].
        assert (7205759403792794 * t <= Zpos m * t) by nia. lia.
    + assert (He' : e = -53 \/ e = -52 \/ e = -51) by lia.
      assert (4503599627370496 * t <= Zpos m * t) by nia.
      destruct He' as [-> | [-> | ->]].
      * change (2 ^ (- -53)) with 9007199254740992 in Hnear.
        split; [intros [? | [? _]]; lia | intros; exfalso; lia].
      * change (2 ^ (- -52)) with 4503599627370496 in Hnear.
        split; [intros [? | [? _]]; lia | intros; exfalso; lia].
      * change (2 ^ (- -51)) with 2251799813685248 in Hnear.
        split; [intros [? | [? _]]; lia | intros; exfalso; lia].
Qed.

(** C1. [_compute_status] is a total function of the two counts.  For
    non-negative counts: a total below five gives unconfirmed; otherwise,
    with [rate] the quotient of the successes by the total, the result is
    verified when [rate >= 0.60], stale when [rate < 0.40], and unconfirmed
    otherwise.  The rate is the binary64 quotient and the thresholds are
    the binary64 literals; on totals below [2^51] these comparisons are
    those of the exact fraction with 3/5 and 2/5.  In particular (4,0)
    gives unconfirmed, (3,2) verified, (1,4) stale and (2,3), whose rate is
    the stale threshold itself, unconfirmed. *)
Theorem compute_status_spec (s f : Z) :
  0 <= s -> 0 <= f ->
  (s + f < 5 -> _compute_status s f = unconfirmed)
  /\ (5 <= s + f ->
      let rate := Float64.py_truediv s (s + f) in
      (Float64.geb rate Config.VERIFIED_RATE_THRESHOLD = true ->
       _compute_status s f = verified)
      /\ (Float64.ltb rate Config.STALE_RATE_THRESHOLD = true ->
          _compute_status s f = stale)
      /\ (Float64.geb rate Config.VERIFIED_RATE_THRESHOLD = false ->
          Float64.ltb rate Config.STALE_RATE_THRESHOLD = false ->
          _compute_status s f = unconfirmed))
  /\ (5 <= s + f < 2 ^ 51 ->
      (3 * (s + f) <= 5 * s -> _compute_status s f = verified)
      /\ (5 * s < 2 * (s + f) -> _compute_status s f = stale)
      /\ (2 * (s + f) <= 5 * s < 3 * (s + f) ->
          _compute_status s f = unconfirmed))
  /\ _compute_status 4 0 = unconfirmed
  /\ _compute_status 3 2 = verified
  /\ _compute_status 1 4 = stale
  /\ _compute_status 2 3 = unconfirmed.
Proof.
  intros Hs Hf.
  assert (Hfloat : 5 <= s + f ->
      let rate := Float64.py_truediv s (s + f) in
      (Float64.geb rate Config.VERIFIED_RATE_THRESHOLD = true ->
       _compute_status s f = verified)
      /\ (Float64.ltb rate Config.STALE_RATE_THRESHOLD = true ->
          _compute_status s f = stale)
      /\ (Float64.geb rate Config.VERIFIED_RATE_THRESHOLD = false ->
          Float64.ltb rate Config.STALE_RATE_THRESHOLD = false ->
          _compute_status s f = unconfirmed)).
  { intros Ht. cbv zeta. unfold _compute_status.
    unfold Config.VERIFIED_RATE_THRESHOLD, Config.STALE_RATE_THRESHOLD.
    replace (s + f <? Config.MIN_VOTES_VERIFIED) with false
      by (symmetry; apply Z.ltb_ge; exact Ht).
    split; [| split].
    - now intros ->.
    - intros H. rewrite (ltb_0_40_not_geb_0_60 _ H). now rewrite H.
    - now intros -> ->. }
  split; [| split; [exact Hfloat | split; [| repeat split; reflexivity]]].
  - intros Ht. unfold _compute_status.
    now replace (s + f <? Config.MIN_VOTES_VERIFIED) with true
      by (symmetry; apply Z.ltb_lt; exact Ht).
  - intros [Ht Hb]. destruct (Hfloat Ht) as (Hv & Hst & Hu).
    unfold Config.VERIFIED_RATE_THRESHOLD, Config.STALE_RATE_THRESHOLD in *.
    pose proof (geb_0_60_exact s (s + f) ltac:(lia) ltac:(lia)) as G.
    pose proof (ltb_0_40_exact s (s + f) ltac:(lia) ltac:(lia)) as L.
    split; [| split].
    + intros H. apply Hv, G, H.
    + intros H. apply Hst, L, H.
    + intros [H1 H2]. apply Hu.
      * apply not_true_is_false. intros E. apply G in E. lia.
      * apply not_true_is_false. intros E. apply L in E. lia.
Qed.

Lemma compute_status_spec_witness :
  0 <= 3 /\ 0 <= 2 /\ 5 <= 3 + 2 < 2 ^ 51 /\ 3 * (3 + 2) <= 5 * 3
  /\ _compute_status 3 2 = verified.
Proof.
  assert (H3 : 0 <= 3) by lia. assert (H2 : 0 <= 2) by lia.
  assert (Ht : 5 <= 3 + 2 < 2 ^ 51) by (split; [lia | reflexivity]).
  assert (Hr : 3 * (3 + 2) <= 5 * 3) by lia.
  split; [exact H3 | split; [exact H2 | split; [exact Ht | split; [exact Hr|]]]].
  exact (proj1 (proj1 (proj2 (proj2 (compute_status_spec 3 2 H3 H2))) Ht) Hr).
Defined.

(** Beyond [2^51] the rounded rate may reach a threshold that the exact
    fraction misses: here the fraction is below 3/5 and its binary64
    rounding is the literal 0.60. *)
Remark rounded_rate_on_large_counts :
  5 * (3 * 10 ^ 17 - 1) < 3 * (3 * 10 ^ 17 - 1 + (2 * 10 ^ 17 + 1))
  /\ _compute_status (3 * 10 ^ 17 - 1) (2 * 10 ^ 17 + 1) = verified.
Proof. split; reflexivity. Qed.

(* ================================================================= *)
(** ** Ranking and fallback *)

(** *** The order of [float8] values *)

Lemma pg_cmp_rank (x y : Float64.float) :
  Float64.pg_cmp x y = lex_compare (float_rank x) (float_rank y).
Proof.
  unfold Float64.pg_cmp, lex_compare.
  destruct x as [sx | sx | | sx mx ex], y as [sy | sy | | sy my ey];
    cbn [SFcompare float_rank Float64.is_nan];
    try destruct sx; try destruct sy; try reflexivity.
  change (-1 ?= -1) with Eq. cbv iota.
  destruct (Z.compare_spec ex ey); destruct (Z.compare_spec (- ex) (- ey));
    try lia; reflexivity.
Qed.

Lemma lex_compare_cases (a b : Z * Z * Z) :
  match lex_compare a b with
  | Gt => lex_ge a b /\ a <> b
  | Eq => a = b
  | Lt => lex_ge b a /\ a <> b
  end.
Proof.
  destruct a as [[a1 a2] a3], b as [[b1 b2] b3]. unfold lex_compare, lex_ge.
  destruct (Z.compare_spec a1 b1); [| split; [lia | intros E; inversion E; lia] ..].
  destruct (Z.compare_spec a2 b2); [| split; [lia | intros E; inversion E; lia] ..].
  destruct (Z.compare_spec a3 b3); [congruence | split; [lia | intros E; inversion E; lia] ..].
Qed.

Lemma last_confirmed_desc_iff (a b : option timestamp) :
  last_confirmed_desc a b = true <-> pair_ge (null_rank a) (null_rank b).
Proof.
  destruct a as [x |], b as [y |]; simpl; rewrite ?Z.leb_le; intuition (try lia; try congruence).
Qed.

Lemma order_leb_iff (a b : Row.t) :
  order_leb a b = true <-> row_ge a b.
Proof.
  unfold order_leb, row_ge. rewrite pg_cmp_rank.
  pose proof (lex_compare_cases (float_rank (Row.success_rate a))
                (float_rank (Row.success_rate b))) as H.
  destruct (lex_compare _ _).
  - rewrite last_confirmed_desc_iff. intuition congruence.
  - destruct H as [H Hne]. split; [discriminate|].
    intros [[H1 _] | [E _]]; [| congruence].
    exfalso. apply Hne.
    destruct (float_rank (Row.success_rate a)) as [[a1 a2] a3],
             (float_rank (Row.success_rate b)) as [[b1 b2] b3].
    unfold lex_ge in *. f_equal; [f_equal|]; lia.
  - tauto.
Qed.

Lemma order_leb_total (a b : Row.t) :
  order_leb a b = true \/ order_leb b a = true.
Proof.
  rewrite !order_leb_iff. unfold row_ge.
  destruct (float_rank (Row.success_rate a)) as [[a1 a2] a3],
           (float_rank (Row.success_rate b)) as [[b1 b2] b3],
           (null_rank (Row.last_confirmed a)) as [a4 a5],
           (null_rank (Row.last_confirmed b)) as [b4 b5].
  unfold lex_ge, pair_ge.
  destruct (Z.lt_trichotomy a1 b1) as [L | [E | L]];
    [right; left; split; [lia | intros X; inversion X; lia] |
    | left; left; split; [lia | intros X; inversion X; lia]].
  destruct (Z.lt_trichotomy a2 b2) as [L | [E' | L]];
    [right; left; split; [lia | intros X; inversion X; lia] |
    | left; left; split; [lia | intros X; inversion X; lia]].
  destruct (Z.lt_trichotomy a3 b3) as [L | [E'' | L]];
    [right; left; split; [lia | intros X; inversion X; lia] |
    | left; left; split; [lia | intros X; inversion X; lia]].
  subst.
  assert (H : (b4 < a4 \/ a4 = b4 /\ b5 <= a5) \/ (a4 < b4 \/ b4 = a4 /\ a5 <= b5))
    by lia.
  destruct H as [H | H]; [left | right]; right; (split; [reflexivity | exact H]).
Qed.

Lemma order_leb_trans (a b c : Row.t) :
  order_leb a b = true -> order_leb b c = true -> order_leb a c = true.
Proof.
  rewrite !order_leb_iff. unfold row_ge.
  destruct (float_rank (Row.success_rate a)) as [[a1 a2] a3],
           (float_rank (Row.success_rate b)) as [[b1 b2] b3],
           (float_rank (Row.success_rate c)) as [[c1 c2] c3],
           (null_rank (Row.last_confirmed a)) as [a4 a5],
           (null_rank (Row.last_confirmed b)) as [b4 b5],
           (null_rank (Row.last_confirmed c)) as [c4 c5].
  unfold lex_ge, pair_ge.
  intros [[H1 N1] | [E1 H1]] [[H2 N2] | [E2 H2]].
  - left. split; [lia|]. intros E; inversion E; subst.
    apply N1. f_equal; [f_equal|]; lia.
  - inversion E2; subst. left. now split.
  - inversion E1; subst. left. now split.
  - inversion E1; inversion E2; subst. right. split; [reflexivity | lia].
Qed.

(** *** Lists *)

Lemma in_firstn {A : Type} (n : nat) (l : list A) (x : A) :
  In x (firstn n l) -> In x l.
Proof.
  intros H. rewrite <- (firstn_skipn n l). apply in_or_app. now left.
Qed.

Lemma NoDup_firstn {A : Type} (n : nat) (l : list A) :
  NoDup l -> NoDup (firstn n l).
Proof.
  intros H. rewrite <- (firstn_skipn n l) in H.
  now apply NoDup_app_remove_r in H.
Qed.

Lemma StronglySorted_firstn {A : Type} (R : A -> A -> Prop) (n : nat) (l : list A) :
  StronglySorted R l -> StronglySorted R (firstn n l).
Proof.
  intros H. revert n. induction H as [| a l Hl IH Ha]; intros [| n]; simpl;
    try constructor.
  - apply IH.
  - rewrite Forall_forall in *. intros x Hx. apply Ha. now apply in_firstn in Hx.
Qed.

Lemma StronglySorted_weaken {A : Type} (R R' : A -> A -> Prop) (l : list A) :
  (forall a b, R a b -> R' a b) -> StronglySorted R l -> StronglySorted R' l.
Proof.
  intros HR. induction 1 as [| a l Hl IH Ha]; constructor; [exact IH|].
  rewrite Forall_forall in *. auto.
Qed.

Lemma filter_keeps_distinct (A B : Type) (image : A -> B) (keep : A -> bool) :
  forall rows : list A,
    NoDup (map image rows) -> NoDup (map image (filter keep rows)).
Proof.
  intros l. set (f := image). set (p := keep).
  induction l as [| a l IH]; simpl; intros H; [constructor|].
  inversion H as [| x xs Hx Hxs]; subst.
  destruct (p a); simpl; [constructor|]; auto.
  intros Hin. apply Hx. rewrite in_map_iff in *.
  destruct Hin as (y & Hy & Hin). exists y. split; [exact Hy|].
  now apply filter_In in Hin.
Qed.

Lemma NoDup_map_injective_on {A B : Type} (f : A -> B) (l : list A) (a b : A) :
  NoDup (map f l) -> In a l -> In b l -> f a = f b -> a = b.
Proof.
  induction l as [| x l IH]; simpl; intros H Ha Hb E; [contradiction|].
  inversion H as [| y ys Hy Hys]; subst.
  destruct Ha as [-> | Ha], Hb as [-> | Hb].
  - reflexivity.
  - exfalso. apply Hy. rewrite E. now apply in_map.
  - exfalso. apply Hy. rewrite <- E. now apply in_map.
  - now apply IH.
Qed.

(** *** The order among level rows *)

Lemma order_leb_tie_leb (tie : Row.t -> Z) (a b : Row.t) :
  order_leb_tie tie a b = true -> order_leb a b = true.
Proof. unfold order_leb_tie. now intros H%andb_true_iff. Qed.

Lemma order_leb_tie_total (tie : Row.t -> Z) (a b : Row.t) :
  order_leb_tie tie a b = true \/ order_leb_tie tie b a = true.
Proof.
  unfold order_leb_tie.
  destruct (order_leb a b) eqn:Hab, (order_leb b a) eqn:Hba; cbn [andb negb orb].
  - destruct (Z.leb_spec (tie a) (tie b)); [now left | right].
    apply Z.leb_le. lia.
  - now left.
  - now right.
  - destruct (order_leb_total a b); congruence.
Qed.

Lemma order_leb_tie_trans (tie : Row.t -> Z) (a b c : Row.t) :
  order_leb_tie tie a b = true -> order_leb_tie tie b c = true ->
  order_leb_tie tie a c = true.
Proof.
  unfold order_leb_tie. rewrite !andb_true_iff, !orb_true_iff, !negb_true_iff.
  intros [Hab Tab] [Hbc Tbc].
  split; [now apply (order_leb_trans a b c)|].
  destruct (order_leb c a) eqn:Hca; [right | now left].
  assert (Hba : order_leb b a = true) by now apply (order_leb_trans b c a).
  assert (Hcb : order_leb c b = true) by now apply (order_leb_trans c a b).
  destruct Tab as [Tab | Tab]; [congruence|].
  destruct Tbc as [Tbc | Tbc]; [congruence|].
  apply Z.leb_le in Tab, Tbc. apply Z.leb_le. lia.
Qed.

(** *** The two SELECTs of [get_strategies] *)

Section Select.

Variable tie : Row.t -> Z.
Variable st : Store.
Variable cond : Strategy.t -> bool.
Variable n : Z.

Let selected : list Row.t :=
  limit n (order_by_rate tie (map select_row (filter cond (strategies st)))).

Lemma select_in (row : Row.t) :
  In row selected ->
  exists s, In s (strategies st) /\ cond s = true /\ row = select_row s.
Proof.
  unfold selected, limit, order_by_rate. intros H. apply in_firstn in H.
  apply (Permutation_in row
           (Permutation_sym (insertion_sort_perm (order_leb_tie tie) _))) in H.
  apply in_map_iff in H as (s & <- & Hs). apply filter_In in Hs as [Hs Hc].
  now exists s.
Qed.

Lemma select_sorted : StronglySorted ranks_before selected.
Proof.
  unfold selected, limit, order_by_rate. apply StronglySorted_firstn.
  apply (StronglySorted_weaken (fun a b => order_leb_tie tie a b = true)).
  - intros a b Htie. apply order_leb_tie_leb in Htie. revert Htie.
    unfold order_leb, ranks_before.
    destruct (Float64.pg_cmp (Row.success_rate a) (Row.success_rate b));
      [| discriminate | now left].
    intros H. right. split; [reflexivity|]. intros ta tb Ea Eb.
    rewrite Ea, Eb in H. simpl in H. now apply Z.leb_le.
  - apply insertion_sort_strongly.
    + apply order_leb_tie_total.
    + apply order_leb_tie_trans.
Qed.

Lemma select_length : (List.length selected <= Z.to_nat n)%nat.
Proof. apply firstn_le_length. Qed.

Lemma select_ids :
  NoDup (map Strategy.id (strategies st)) -> NoDup (map Row.id selected).
Proof.
  intros H. unfold selected, limit, order_by_rate.
  rewrite <- firstn_map. apply NoDup_firstn.
  apply (Permutation_NoDup
           (Permutation_map Row.id (insertion_sort_perm (order_leb_tie tie) _))).
  rewrite map_map. simpl. now apply filter_keeps_distinct.
Qed.

End Select.

Lemma primary_where_iff (provider service : string) (s : Strategy.t) :
  primary_where provider service s = true <->
  Strategy.provider_id s = provider /\ Strategy.service_id s = service
  /\ (Strategy.status s = verified \/ Strategy.status s = unconfirmed).
Proof.
  unfold primary_where. rewrite !andb_true_iff, orb_true_iff, !String.eqb_eq.
  destruct (Strategy.status s); simpl; intuition congruence.
Qed.

Lemma fallback_where_iff (provider service : string) (s : Strategy.t) :
  fallback_where provider service s = true <->
  Strategy.service_id s = service /\ Strategy.provider_id s <> provider
  /\ Strategy.status s = verified
  /\ Float64.pg_ge (sql_success_rate s) Config.FALLBACK_SUCCESS_RATE = true.
Proof.
  unfold fallback_where.
  rewrite !andb_true_iff, negb_true_iff, String.eqb_eq, String.eqb_neq.
  destruct (Strategy.status s); simpl; intuition congruence.
Qed.

Lemma primary_length (tie : Row.t -> Z) (st : Store) (provider service : string) :
  (List.length (primary_query tie st provider service) <= 5)%nat.
Proof. unfold primary_query. apply select_length. Qed.

Lemma get_strategies_unfold (tie : Row.t -> Z) (st : Store)
  (provider service : string) :
  get_strategies tie st provider service =
    let primary := primary_query tie st provider service in
    if (List.length primary <? 3)%nat
    then primary
         ++ firstn (5 - List.length primary)
              (filter (not_in (map Row.id primary))
                 (fallback_query tie st provider service
                    (5 - Z.of_nat (List.length primary))))
    else primary.
Proof.
  unfold get_strategies. cbv zeta.
  pose proof (primary_length tie st provider service) as Hlen.
  set (primary := primary_query tie st provider service) in *.
  change Config.MIN_PROVIDER_STRATEGIES with 3.
  change Config.MAX_STRATEGIES_RESPONSE with 5.
  change (Z.to_nat 5) with 5%nat.
  destruct (Nat.ltb_spec (List.length primary) 3) as [H | H].
  - replace (Z.of_nat (List.length primary) <? 3) with true
      by (symmetry; apply Z.ltb_lt; lia).
    rewrite firstn_app, (firstn_all2 primary) by lia. reflexivity.
  - replace (Z.of_nat (List.length primary) <? 3) with false
      by (symmetry; apply Z.ltb_ge; lia).
    now apply firstn_all2.
Qed.

Lemma primary_rows_in (tie : Row.t -> Z) (st : Store)
  (provider service : string) (row : Row.t) :
  In row (primary_query tie st provider service) ->
  exists s, In s (strategies st) /\ row = select_row s
    /\ Strategy.provider_id s = provider /\ Strategy.service_id s = service
    /\ (Strategy.status s = verified \/ Strategy.status s = unconfirmed).
Proof.
  intros H. apply select_in in H as (s & Hs & Hc & ->).
  apply primary_where_iff in Hc. now exists s.
Qed.

Lemma primary_rows_status (tie : Row.t -> Z) (st : Store)
  (provider service : string) (row : Row.t) :
  In row (primary_query tie st provider service) ->
  Row.status row <> degraded /\ Row.status row <> stale.
Proof.
  intros H.
  destruct (primary_rows_in tie st provider service row H)
    as (s & _ & -> & _ & _ & [E | E]); simpl; rewrite E; split; discriminate.
Qed.

(** C5. The first query of [get_strategies] returns only strategies of the
    provider and service asked for whose status is verified or unconfirmed,
    never degraded or stale; its rows stand by success rate, highest first,
    and among rows of equal rate by [last_confirmed], latest first; there
    are at most five of them, and they open the list that [get_strategies]
    returns.  This holds whatever order [tie] the engine gives to rows
    that are level in both columns. *)
Theorem primary_query_ranked (tie : Row.t -> Z) (st : Store)
  (provider service : string) :
  let primary := primary_query tie st provider service in
  (forall row, In row primary ->
     exists s, In s (strategies st) /\ row = select_row s
       /\ Strategy.provider_id s = provider /\ Strategy.service_id s = service
       /\ (Strategy.status s = verified \/ Strategy.status s = unconfirmed))
  /\ (forall row, In row primary ->
        Row.status row <> degraded /\ Row.status row <> stale)
  /\ StronglySorted ranks_before primary
  /\ (List.length primary <= 5)%nat
  /\ exists extra, get_strategies tie st provider service = primary ++ extra.
Proof.
  cbv zeta. split; [apply primary_rows_in|]. split; [apply primary_rows_status|].
  split; [apply select_sorted|]. split; [apply primary_length|].
  rewrite get_strategies_unfold. cbv zeta.
  destruct (_ <? _)%nat; [eexists; reflexivity|].
  exists []. now rewrite app_nil_r.
Qed.

Lemma fallback_not_in_primary (tie : Row.t -> Z) (st : Store)
  (provider service : string) (n : Z) :
  NoDup (map Strategy.id (strategies st)) ->
  filter (not_in (map Row.id (primary_query tie st provider service)))
         (fallback_query tie st provider service n)
  = fallback_query tie st provider service n.
Proof.
  intros Hids. apply forallb_filter_id. apply forallb_forall.
  intros row Hrow. unfold not_in. apply negb_true_iff.
  destruct (existsb _ _) eqn:E; [exfalso | reflexivity].
  apply existsb_exists in E as (i & Hi & Ei). apply Z.eqb_eq in Ei. subst i.
  apply in_map_iff in Hi as (prow & Eid & Hprow).
  apply select_in in Hrow as (s & Hs & Hc & ->).
  apply select_in in Hprow as (s' & Hs' & Hc' & ->).
  simpl in Eid.
  assert (s' = s) as -> by (eapply NoDup_map_injective_on; eassumption).
  apply primary_where_iff in Hc' as (Hp & _).
  apply fallback_where_iff in Hc as (_ & Hnp & _). contradiction.
Qed.

(** C6. When the first query returns fewer than three rows, the list is
    extended with the rows of the fallback query: strategies of the same
    service and of other providers, all verified and of success rate at
    least 0.70, in the same order, as many as fill the list up to five;
    otherwise the list is the result of the first query.  With the ids of
    the table distinct no id comes twice, the list has at most five rows,
    and no row of it is degraded or stale.  This holds whatever order
    [tie] the engine gives to rows that are level in both columns. *)
Theorem get_strategies_fallback (tie : Row.t -> Z) (st : Store)
  (provider service : string) :
  NoDup (map Strategy.id (strategies st)) ->
  let primary := primary_query tie st provider service in
  let result := get_strategies tie st provider service in
  ((3 <= List.length primary)%nat -> result = primary)
  /\ ((List.length primary < 3)%nat ->
      exists extra,
        result = primary ++ extra
        /\ extra = fallback_query tie st provider service
                     (5 - Z.of_nat (List.length primary))
        /\ (forall row, In row extra ->
              exists s, In s (strategies st) /\ row = select_row s
                /\ Strategy.service_id s = service
                /\ Strategy.provider_id s <> provider
                /\ Strategy.status s = verified
                /\ Float64.pg_ge (Row.success_rate row)
                                 Config.FALLBACK_SUCCESS_RATE = true)
        /\ StronglySorted ranks_before extra)
  /\ NoDup (map Row.id result)
  /\ (List.length result <= 5)%nat
  /\ (forall row, In row result ->
        Row.status row <> degraded /\ Row.status row <> stale).
Proof.
  intros Hids. cbv zeta.
  pose proof (primary_length tie st provider service) as Hlen.
  assert (Hres : get_strategies tie st provider service =
            if (List.length (primary_query tie st provider service) <? 3)%nat
            then primary_query tie st provider service
                 ++ fallback_query tie st provider service
                      (5 - Z.of_nat (List.length (primary_query tie st provider service)))
            else primary_query tie st provider service).
  { rewrite get_strategies_unfold. cbv zeta.
    destruct (_ <? _)%nat; [| reflexivity].
    rewrite (fallback_not_in_primary tie st provider service _ Hids).
    f_equal. apply firstn_all2.
    unfold fallback_query.
    etransitivity; [apply select_length | lia]. }
  assert (Hfb : forall n row, In row (fallback_query tie st provider service n) ->
              exists s, In s (strategies st) /\ row = select_row s
                /\ Strategy.service_id s = service
                /\ Strategy.provider_id s <> provider
                /\ Strategy.status s = verified
                /\ Float64.pg_ge (Row.success_rate row)
                                 Config.FALLBACK_SUCCESS_RATE = true).
  { intros n row H. apply select_in in H as (s & Hs & Hc & ->).
    apply fallback_where_iff in Hc. now exists s. }
  pose proof (primary_rows_in tie st provider service) as Hp.
  pose proof (primary_rows_status tie st provider service) as Hpst.
  rewrite Hres.
  destruct (Nat.ltb_spec (List.length (primary_query tie st provider service)) 3)
    as [Hlt | Hge].
  - split; [lia|]. split; [| split; [| split]].
    + intros _. eexists. split; [reflexivity|]. split; [reflexivity|].
      split; [apply Hfb | apply select_sorted].
    + rewrite map_app. apply NoDup_app.
      * now apply select_ids.
      * now apply select_ids.
      * intros i Hi Hi'.
        apply in_map_iff in Hi as (prow & <- & Hprow).
        apply in_map_iff in Hi' as (frow & Eid & Hfrow).
        destruct (Hp _ Hprow) as (s' & Hs' & -> & Hprov & _).
        destruct (Hfb _ _ Hfrow) as (s & Hs & -> & _ & Hnp & _).
        simpl in Eid.
        assert (s = s') as -> by (eapply NoDup_map_injective_on; eassumption).
        contradiction.
    + rewrite length_app.
      pose proof (select_length tie st (fallback_where provider service)
                    (5 - Z.of_nat (List.length (primary_query tie st provider service)))).
      fold (fallback_query tie st provider service
              (5 - Z.of_nat (List.length (primary_query tie st provider service)))) in H.
      lia.
    + intros row H. apply in_app_or in H as [H | H]; [now apply Hpst|].
      destruct (Hfb _ _ H) as (s & _ & -> & _ & _ & E & _).
      simpl. rewrite E. split; discriminate.
  - split; [reflexivity|]. split; [lia|]. split; [| split].
    + now apply select_ids.
    + exact Hlen.
    + exact Hpst.
Qed.

Lemma get_strategies_fallback_witness :
  let st :=
    mkStore
      [Strategy.mk 1 "isp" "video" ["--a"] "h1" 6 1 (Float64.of_Z 20) verified 0 (Some 50);
       Strategy.mk 2 "isp" "video" ["--b"] "h2" 0 6 (Float64.of_Z 0) stale 0 None;
       Strategy.mk 3 "other" "video" ["--c"] "h3" 7 3 (Float64.of_Z 25) verified 0 (Some 40);
       Strategy.mk 4 "other" "video" ["--d"] "h4" 6 4 (Float64.of_Z 25) verified 0 (Some 60);
       Strategy.mk 5 "third" "video" ["--e"] "h5" 9 1 (Float64.of_Z 25) verified 0 (Some 30);
       Strategy.mk 6 "third" "video" ["--f"] "h6" 1 9 (Float64.of_Z 25) degraded 0 (Some 30)]
      [] in
  NoDup (map Strategy.id (strategies st))
  /\ map Row.id (get_strategies table_order st "isp" "video") = [1; 5; 3]
  /\ NoDup (map Row.id (get_strategies table_order st "isp" "video"))
  /\ (List.length (get_strategies table_order st "isp" "video") <= 5)%nat.
Proof.
  cbv zeta.
  assert (Hids : NoDup (map Strategy.id (strategies (mkStore
      [Strategy.mk 1 "isp" "video" ["--a"] "h1" 6 1 (Float64.of_Z 20) verified 0 (Some 50);
       Strategy.mk 2 "isp" "video" ["--b"] "h2" 0 6 (Float64.of_Z 0) stale 0 None;
       Strategy.mk 3 "other" "video" ["--c"] "h3" 7 3 (Float64.of_Z 25) verified 0 (Some 40);
       Strategy.mk 4 "other" "video" ["--d"] "h4" 6 4 (Float64.of_Z 25) verified 0 (Some 60);
       Strategy.mk 5 "third" "video" ["--e"] "h5" 9 1 (Float64.of_Z 25) verified 0 (Some 30);
       Strategy.mk 6 "third" "video" ["--f"] "h6" 1 9 (Float64.of_Z 25) degraded 0 (Some 30)]
      [])))).
  { cbn. repeat constructor; cbn; intuition discriminate. }
  split; [exact Hids|]. split; [reflexivity|].
  destruct (get_strategies_fallback table_order _ "isp" "video" Hids) as (_ & _ & Hn & Hl & _).
  split; [exact Hn | exact Hl].
Defined.

(* ================================================================= *)
(** ** The transactional upsert *)

Lemma find_map_key {A : Type} (key : A -> bool) (f : A -> A) (l : list A) :
  (forall r, key (f r) = key r) ->
  find key (map f l) = option_map f (find key l).
Proof.
  intros H. induction l as [| a l IH]; simpl; [reflexivity|].
  rewrite H. destruct (key a); [reflexivity | exact IH].
Qed.

Section InsertOnConflict.

Variable key : Strategy.t -> bool.
Variable update : Strategy.t -> Strategy.t.
Variable new : Strategy.t.

Hypothesis update_key : forall r, key (update r) = key r.
Hypothesis new_key : key new = true.

Lemma insert_on_conflict_found (rows : list Strategy.t) (old : Strategy.t) :
  find key rows = Some old ->
  snd (insert_on_conflict key update new rows) = update old
  /\ find key (fst (insert_on_conflict key update new rows)) = Some (update old)
  /\ List.length (fst (insert_on_conflict key update new rows)) = List.length rows.
Proof.
  induction rows as [| r rest IH]; simpl; [discriminate|].
  destruct (key r) eqn:Hr.
  - intros [= <-]. simpl. now rewrite update_key, Hr.
  - intros H. destruct (IH H) as (H1 & H2 & H3).
    destruct (insert_on_conflict key update new rest) as [rest' out].
    simpl in *. rewrite Hr. auto.
Qed.

Lemma insert_on_conflict_fresh (rows : list Strategy.t) :
  find key rows = None ->
  insert_on_conflict key update new rows = (rows ++ [new], new)
  /\ find key (rows ++ [new]) = Some new.
Proof.
  induction rows as [| r rest IH]; simpl.
  - now rewrite new_key.
  - destruct (key r) eqn:Hr; [discriminate|].
    intros H. destruct (IH H) as [-> H2]. auto.
Qed.

End InsertOnConflict.

Lemma same_key_updated_on_success now latency provider service hash r :
  same_key provider service hash (updated_on_success now latency r)
  = same_key provider service hash r.
Proof. reflexivity. Qed.

Lemma same_key_updated_on_failure provider service hash r :
  same_key provider service hash (updated_on_failure r)
  = same_key provider service hash r.
Proof. reflexivity. Qed.

Lemma same_key_refl provider service hash i args sc fc avg s fr lc :
  same_key provider service hash
    (Strategy.mk i provider service args hash sc fc avg s fr lc) = true.
Proof. unfold same_key. simpl. now rewrite !String.eqb_refl. Qed.

(** What the upsert statement returns and leaves in the table. *)
Lemma run_upsert_spec now new_id provider service args hash success latency st :
  let key := same_key provider service hash in
  let st1 := fst (run_upsert now new_id provider service args hash success latency st) in
  let row := snd (run_upsert now new_id provider service args hash success latency st) in
  reports st1 = reports st
  /\ find key (strategies st1) = Some row
  /\ match find key (strategies st) with
     | Some old =>
         List.length (strategies st1) = List.length (strategies st)
         /\ row = (if success then updated_on_success now latency old
                   else updated_on_failure old)
     | None =>
         strategies st1 = strategies st ++ [row]
         /\ row = (if success
                   then inserted_on_success now new_id
                          provider service args hash latency
                   else inserted_on_failure now new_id
                          provider service args hash)
     end.
Proof.
  cbv zeta. unfold run_upsert. split; [reflexivity|].
  cbn [fst snd strategies].
  destruct (find (same_key provider service hash) (strategies st)) as [old |] eqn:F.
  - destruct success.
    + destruct (insert_on_conflict_found (same_key provider service hash)
                  (updated_on_success now latency)
                  (inserted_on_success now new_id provider
                     service args hash latency)
                  (same_key_updated_on_success now latency provider service hash)
                  (strategies st) old F) as (H1 & H2 & H3).
      rewrite H1. auto.
    + destruct (insert_on_conflict_found (same_key provider service hash)
                  updated_on_failure
                  (inserted_on_failure now new_id provider
                     service args hash)
                  (same_key_updated_on_failure provider service hash)
                  (strategies st) old F) as (H1 & H2 & H3).
      rewrite H1. auto.
  - destruct success.
    + destruct (insert_on_conflict_fresh (same_key provider service hash)
                  (updated_on_success now latency)
                  (inserted_on_success now new_id provider
                     service args hash latency)
                  (same_key_refl _ _ _ _ _ _ _ _ _ _ _)
                  (strategies st) F) as (H1 & H2).
      rewrite H1. cbn [fst snd]. auto.
    + destruct (insert_on_conflict_fresh (same_key provider service hash)
                  updated_on_failure
                  (inserted_on_failure now new_id provider
                     service args hash)
                  (same_key_refl _ _ _ _ _ _ _ _ _ _ _)
                  (strategies st) F) as (H1 & H2).
      rewrite H1. cbn [fst snd]. auto.
Qed.

Lemma upsert_strategy_cases faults now new_id provider service args success latency
  fp cv st :
  upsert_strategy faults now new_id provider service args success latency fp cv st =
    if faults stmt_upsert then (st, Raised (PersistenceFailure stmt_upsert))
    else if faults stmt_set_status
         then (st, Raised (PersistenceFailure stmt_set_status))
    else if faults stmt_insert_report
         then (st, Raised (PersistenceFailure stmt_insert_report))
    else if faults stmt_commit
         then (st, Raised (PersistenceFailure stmt_commit))
    else (committed now new_id provider service args success latency fp cv st,
          Ok (returned now new_id provider service args success latency st)).
Proof.
  unfold upsert_strategy, transaction, upsert_statements, bind, execute, ret,
    committed, returned.
  destruct (faults stmt_upsert); [reflexivity|].
  destruct (run_upsert now new_id provider service args (compute_strategy_hash args)
              success latency st) as [st1 row] eqn:E1.
  cbn [fst snd].
  destruct (faults stmt_set_status); [reflexivity|].
  destruct (run_set_status _ _ st1) as [st2 u2] eqn:E2. cbn [fst snd].
  destruct (faults stmt_insert_report); [reflexivity|].
  destruct (run_insert_report _ _ _ _ _ _ st2) as [st3 u3] eqn:E3.
  now destruct (faults stmt_commit).
Qed.

Lemma committed_row now new_id provider service args success latency fp cv st :
  let key := same_key provider service (compute_strategy_hash args) in
  let row := snd (run_upsert now new_id provider service args
                    (compute_strategy_hash args) success latency st) in
  let st' := committed now new_id provider service args success latency fp cv st in
  find key (strategies st')
  = Some (Strategy.set_status row
            (_compute_status (Strategy.success_count row) (Strategy.fail_count row)))
  /\ List.length (strategies st')
     = List.length (strategies (fst (run_upsert now new_id provider service args
                                       (compute_strategy_hash args) success latency st)))
  /\ reports st'
     = reports st ++ [Report.mk (Strategy.id row) fp success latency cv now].
Proof.
  cbv zeta.
  destruct (run_upsert_spec now new_id provider service args (compute_strategy_hash args)
              success latency st) as (Hrep & Hfind & _).
  unfold committed, run_insert_report, run_set_status. cbn [fst strategies reports].
  split; [| split].
  - rewrite find_map_key.
    + rewrite Hfind. simpl. now rewrite Z.eqb_refl.
    + intros r. now destruct (Strategy.id r =? _).
  - apply length_map.
  - now rewrite Hrep.
Qed.

(** C2. A call of [upsert_strategy] in which no statement fails returns the
    id and status of the strategy of the reported triple.  If the triple
    was in the table and the report is a success, [success_count] grows by
    one, [fail_count] is unchanged, [avg_latency_ms] becomes
    [(old_avg * old_success_count + latency) / (old_success_count + 1)] and
    [last_confirmed] becomes the time of the call; if the report is a
    failure, [fail_count] grows by one and [success_count],
    [avg_latency_ms] and [last_confirmed] are unchanged.  If the triple was
    not in the table, one row is added, with counts (1,0) or (0,1). *)
Theorem record_report_counts
  (faults : Statement -> bool) (now : timestamp) (new_id : Z)
  (provider service : string)
  (args : list string) (success : bool) (latency : Float64.float)
  (fp cv : string) (st : Store) :
  (forall s, faults s = false) ->
  let key := same_key provider service (compute_strategy_hash args) in
  exists st' new,
    upsert_strategy faults now new_id provider service args success latency fp cv st
    = (st', Ok (Strategy.id new, Strategy.status new))
    /\ find key (strategies st') = Some new
    /\ Strategy.status new
       = _compute_status (Strategy.success_count new) (Strategy.fail_count new)
    /\ match find key (strategies st) with
       | Some old =>
           List.length (strategies st') = List.length (strategies st)
           /\ Strategy.id new = Strategy.id old
           /\ if success then
                Strategy.success_count new = Strategy.success_count old + 1
                /\ Strategy.fail_count new = Strategy.fail_count old
                /\ Strategy.avg_latency_ms new
                   = Float64.div
                       (Float64.add
                          (Float64.mul (Strategy.avg_latency_ms old)
                             (Float64.of_Z (Strategy.success_count old)))
                          latency)
                       (Float64.of_Z (Strategy.success_count old + 1))
                /\ Strategy.last_confirmed new = Some now
              else
                Strategy.fail_count new = Strategy.fail_count old + 1
                /\ Strategy.success_count new = Strategy.success_count old
                /\ Strategy.avg_latency_ms new = Strategy.avg_latency_ms old
                /\ Strategy.last_confirmed new = Strategy.last_confirmed old
       | None =>
           List.length (strategies st') = S (List.length (strategies st))
           /\ if success then
                Strategy.success_count new = 1 /\ Strategy.fail_count new = 0
                /\ Strategy.avg_latency_ms new = latency
                /\ Strategy.last_confirmed new = Some now
              else
                Strategy.success_count new = 0 /\ Strategy.fail_count new = 1
                /\ Strategy.last_confirmed new = None
       end.
Proof.
  intros Hf. cbv zeta.
  rewrite upsert_strategy_cases, !Hf.
  destruct (committed_row now new_id provider service args success latency fp cv st)
    as (Hfind & Hlen & _).
  destruct (run_upsert_spec now new_id provider service args (compute_strategy_hash args)
              success latency st) as (_ & _ & Hold).
  cbv zeta in Hfind, Hlen, Hold.
  set (row := snd (run_upsert now new_id provider service args
                     (compute_strategy_hash args) success latency st)) in *.
  eexists. eexists. split; [| split; [exact Hfind | split; [reflexivity|]]].
  - reflexivity.
  - rewrite Hlen.
    destruct (find _ (strategies st)) as [old |].
    + destruct Hold as (Hl & Hrow). split; [exact Hl|].
      rewrite Hrow. destruct success; simpl; auto.
    + destruct Hold as (Hl & Hrow). rewrite Hl, length_app. simpl.
      split; [lia|]. rewrite Hrow. destruct success; simpl; auto.
Qed.

Lemma record_report_counts_witness :
  let st :=
    mkStore
      [Strategy.mk 1 "isp" "video" ["--a"] (compute_strategy_hash ["--a"])
                   2 1 (Float64.of_Z 30) unconfirmed 5 (Some 7)]
      [] in
  (forall s, no_fault s = false)
  /\ exists st' new,
       upsert_strategy no_fault 10 2 "isp" "video" [" --A "] true (Float64.of_Z 60)
                       "0123456789abcdef" "1.0" st
       = (st', Ok (Strategy.id new, Strategy.status new))
       /\ Strategy.success_count new = 3
       /\ Strategy.fail_count new = 1
       /\ Strategy.avg_latency_ms new = Float64.of_Z 40
       /\ Strategy.last_confirmed new = Some 10.
Proof.
  cbv zeta.
  assert (Hf : forall s, no_fault s = false) by reflexivity.
  split; [exact Hf|].
  destruct (record_report_counts no_fault 10 2 "isp" "video" [" --A "] true
              (Float64.of_Z 60) "0123456789abcdef" "1.0"
              (mkStore
                 [Strategy.mk 1 "isp" "video" ["--a"] (compute_strategy_hash ["--a"])
                    2 1 (Float64.of_Z 30) unconfirmed 5 (Some 7)]
                 []) Hf) as (st' & new & E & _ & _ & H).
  vm_compute in H. destruct H as (_ & _ & H1 & H2 & H3 & H4).
  exists st', new. split; [exact E|].
  split; [exact H1 | split; [exact H2 | split; [exact H3 | exact H4]]].
Defined.

Lemma votes_counted_cons (r : Strategy.t) (rows : list Strategy.t) :
  votes_counted (r :: rows)
  = Strategy.success_count r + Strategy.fail_count r + votes_counted rows.
Proof. reflexivity. Qed.

Lemma insert_on_conflict_votes (key : Strategy.t -> bool)
  (update : Strategy.t -> Strategy.t) (new : Strategy.t)
  (rows : list Strategy.t) :
  (forall r, Strategy.success_count (update r) + Strategy.fail_count (update r)
             = Strategy.success_count r + Strategy.fail_count r + 1) ->
  Strategy.success_count new + Strategy.fail_count new = 1 ->
  votes_counted (fst (insert_on_conflict key update new rows))
  = votes_counted rows + 1.
Proof.
  intros Hu Hn. induction rows as [| r rows IH]; cbn [insert_on_conflict].
  - cbn [fst]. rewrite votes_counted_cons. cbn [votes_counted fold_right]. lia.
  - destruct (key r).
    + cbn [fst]. rewrite !votes_counted_cons, Hu. lia.
    + destruct (insert_on_conflict key update new rows) as [rest out].
      cbn [fst] in *. rewrite !votes_counted_cons, IH. lia.
Qed.

Lemma run_upsert_votes now new_id provider service args hash success latency st :
  votes_counted
    (strategies (fst (run_upsert now new_id provider service args hash success
                        latency st)))
  = votes_counted (strategies st) + 1.
Proof.
  unfold run_upsert. cbn [fst strategies].
  destruct success; apply insert_on_conflict_votes;
    intros; cbn [updated_on_success updated_on_failure inserted_on_success
                 inserted_on_failure Strategy.success_count Strategy.fail_count];
    lia.
Qed.

Lemma run_set_status_votes (s : Status) (id : Z) (st : Store) :
  votes_counted (strategies (fst (run_set_status s id st)))
  = votes_counted (strategies st).
Proof.
  unfold run_set_status. cbn [fst strategies].
  induction (strategies st) as [| r rows IH]; [reflexivity|].
  cbn [map]. rewrite !votes_counted_cons, IH.
  now destruct (Strategy.id r =? id).
Qed.

(** The statements of the block, run without the transaction: once the
    upsert has gone through, the table holds one vote more, wherever the
    block stops. *)
Lemma upsert_statements_votes faults now new_id provider service args hash
  success latency fp cv st :
  faults stmt_upsert = false ->
  votes_counted
    (strategies (fst (upsert_statements faults now new_id provider service args
                        hash success latency fp cv st)))
  = votes_counted (strategies st) + 1.
Proof.
  intros F1. unfold upsert_statements, bind, execute, ret. rewrite F1.
  pose proof (run_upsert_votes now new_id provider service args hash success
                latency st) as V.
  destruct (run_upsert now new_id provider service args hash success latency st)
    as [st1 row]. cbn [fst] in V.
  destruct (faults stmt_set_status); [exact V|].
  pose proof (run_set_status_votes
                (_compute_status (Strategy.success_count row)
                   (Strategy.fail_count row)) (Strategy.id row) st1) as V2.
  destruct (run_set_status _ _ st1) as [st2 u2]. cbn [fst] in V2.
  destruct (faults stmt_insert_report); [cbn [fst]; lia|].
  unfold run_insert_report. cbn [fst strategies]. lia.
Qed.

(** C9. [upsert_strategy] is atomic.  If the call raises, whichever of the
    three statements or the commit failed, the store is the store before
    the call, although the statements of the block had counted the vote
    when the upsert had gone through.  If it returns, nothing failed and
    the three statements have taken effect together: the row of the
    triple has its counter one higher (or is the new row, with the id
    drawn and one vote) and the table holds one vote more in all, its
    status is the status of its new counts and is the one returned, and
    the log ends with the report of the call under the id returned. *)
Theorem upsert_strategy_atomic
  (faults : Statement -> bool) (now : timestamp) (new_id : Z)
  (provider service : string)
  (args : list string) (success : bool) (latency : Float64.float)
  (fp cv : string) (st : Store) :
  let hash := compute_strategy_hash args in
  let key := same_key provider service hash in
  match upsert_strategy faults now new_id provider service args success latency fp cv st
  with
  | (st', Raised e) =>
      st' = st
      /\ (exists s, e = PersistenceFailure s /\ faults s = true)
      /\ (faults stmt_upsert = false ->
          votes_counted
            (strategies
               (fst (upsert_statements faults now new_id provider service args
                       hash success latency fp cv st)))
          = votes_counted (strategies st) + 1)
  | (st', Ok (strategy_id, strategy_status)) =>
      (forall s, faults s = false)
      /\ votes_counted (strategies st') = votes_counted (strategies st) + 1
      /\ reports st'
         = reports st ++ [Report.mk strategy_id fp success latency cv now]
      /\ exists row,
           find key (strategies st') = Some row
           /\ Strategy.id row = strategy_id
           /\ Strategy.status row = strategy_status
           /\ strategy_status
              = _compute_status (Strategy.success_count row)
                                (Strategy.fail_count row)
           /\ match find key (strategies st) with
              | Some old =>
                  List.length (strategies st') = List.length (strategies st)
                  /\ Strategy.id row = Strategy.id old
                  /\ Strategy.success_count row
                     = Strategy.success_count old + (if success then 1 else 0)
                  /\ Strategy.fail_count row
                     = Strategy.fail_count old + (if success then 0 else 1)
              | None =>
                  List.length (strategies st') = S (List.length (strategies st))
                  /\ Strategy.id row = new_id
                  /\ Strategy.success_count row = (if success then 1 else 0)
                  /\ Strategy.fail_count row = (if success then 0 else 1)
              end
  end.
Proof.
  cbv zeta.
  pose proof (upsert_statements_votes faults now new_id provider service args
                (compute_strategy_hash args) success latency fp cv st) as Hbody.
  rewrite upsert_strategy_cases.
  destruct (faults stmt_upsert) eqn:F1;
    [split; [reflexivity | split; [now exists stmt_upsert | discriminate]]|].
  specialize (Hbody eq_refl).
  destruct (faults stmt_set_status) eqn:F2;
    [split; [reflexivity | split; [now exists stmt_set_status | now intros _]]|].
  destruct (faults stmt_insert_report) eqn:F3;
    [split; [reflexivity | split; [now exists stmt_insert_report | now intros _]]|].
  destruct (faults stmt_commit) eqn:F4;
    [split; [reflexivity | split; [now exists stmt_commit | now intros _]]|].
  destruct (committed_row now new_id provider service args success latency fp cv st)
    as (Hfind & Hlen & Hlog).
  destruct (run_upsert_spec now new_id provider service args
              (compute_strategy_hash args) success latency st)
    as (_ & _ & Hrow).
  cbv zeta in Hfind, Hlen, Hlog, Hrow.
  unfold returned. cbv zeta.
  set (row := snd (run_upsert now new_id provider service args
                     (compute_strategy_hash args) success latency st)) in *.
  split; [now intros []|]. split.
  { unfold committed. cbv zeta. fold row.
    unfold run_insert_report. cbn [fst strategies].
    rewrite run_set_status_votes. apply run_upsert_votes. }
  split; [exact Hlog|].
  eexists. split; [exact Hfind|].
  split; [now destruct row|]. split; [now destruct row|].
  split; [now destruct row|].
  rewrite Hlen.
  destruct (find (same_key provider service (compute_strategy_hash args))
              (strategies st)) as [old |].
  - destruct Hrow as [Hl Hr]. split; [exact Hl|].
    rewrite Hr. destruct success; cbn; repeat split; lia.
  - destruct Hrow as [Hl Hr]. rewrite Hl, length_app. split; [cbn; lia|].
    rewrite Hr. destruct success; cbn; repeat split; reflexivity.
Qed.

(** Without the transaction a refused report insert leaves the strategy
    row behind; with it the store is as before. *)
Example rollback_is_needed :
  let faults := fun s => match s with stmt_insert_report => true | _ => false end in
  let st := mkStore [] [] in
  strategies
    (fst (upsert_statements faults 0 1 "isp" "svc" ["--a"]
            (compute_strategy_hash ["--a"]) true (Float64.of_Z 20) "fp" "1.0" st))
  <> []
  /\ fst (upsert_strategy faults 0 1 "isp" "svc" ["--a"] true (Float64.of_Z 20)
            "fp" "1.0" st) = st.
Proof. split; [vm_compute; discriminate | reflexivity]. Qed.

(* ================================================================= *)
(** ** The rate limit *)

Lemma count_recent_app (now : timestamp) (fp : string) (l1 l2 : list Report.t) :
  count_recent_reports now fp (l1 ++ l2)
  = count_recent_reports now fp l1 + count_recent_reports now fp l2.
Proof.
  unfold count_recent_reports. rewrite filter_app, length_app. lia.
Qed.

Lemma count_recent_perm (now : timestamp) (fp : string) (l l' : list Report.t) :
  Permutation l l' ->
  count_recent_reports now fp l = count_recent_reports now fp l'.
Proof.
  intros H. unfold count_recent_reports. f_equal.
  induction H as [| x l l' _ IH | x y l | l l' l'' _ IH1 _ IH2]; simpl.
  - reflexivity.
  - destruct (in_rate_window now fp x); simpl; now rewrite IH.
  - now destruct (in_rate_window now fp x), (in_rate_window now fp y).
  - now rewrite IH1.
Qed.

Lemma count_recent_none (now : timestamp) (fp : string) (l : list Report.t) :
  (forall r, In r l -> Report.fingerprint r = fp ->
             Report.reported_at r <= now - one_hour) ->
  count_recent_reports now fp l = 0.
Proof.
  intros H. unfold count_recent_reports.
  replace (filter (in_rate_window now fp) l) with (@nil Report.t); [reflexivity|].
  symmetry. induction l as [| r l IH]; simpl; [reflexivity|].
  assert (E : in_rate_window now fp r = false).
  { unfold in_rate_window. destruct (String.eqb_spec (Report.fingerprint r) fp) as [E | E];
      [| reflexivity].
    simpl. apply Z.ltb_ge. apply H; [now left | exact E]. }
  rewrite E. apply IH. intros x Hx. apply H. now right.
Qed.

Lemma count_recent_all (now : timestamp) (fp : string) (l : list Report.t) :
  (forall r, In r l -> Report.fingerprint r = fp
                       /\ now - one_hour < Report.reported_at r) ->
  count_recent_reports now fp l = Z.of_nat (List.length l).
Proof.
  intros H. unfold count_recent_reports. f_equal. f_equal.
  apply forallb_filter_id, forallb_forall. intros r Hr.
  destruct (H r Hr) as [E Ht]. unfold in_rate_window.
  apply andb_true_iff. split; [now apply String.eqb_eq | now apply Z.ltb_lt].
Qed.

Lemma post_report_log (now : timestamp) (new_id : Z)
  (body : ReportRequest.t) (st : Store) :
  let st' := fst (post_report no_fault now new_id body st) in
  let answer := snd (post_report no_fault now new_id body st) in
  accepted answer = check_rate_limit now st (ReportRequest.fingerprint body)
  /\ (accepted answer = false -> st' = st)
  /\ (accepted answer = true ->
      exists r, reports st' = reports st ++ [r]
        /\ Report.fingerprint r = ReportRequest.fingerprint body
        /\ Report.reported_at r = now).
Proof.
  cbv zeta. unfold post_report.
  destruct (check_rate_limit now st (ReportRequest.fingerprint body)).
  - cbn [negb]. rewrite upsert_strategy_cases. cbn [no_fault].
    destruct (returned _ _ _ _ _ _ _ _) as [sid status]. cbn [fst snd accepted].
    split; [reflexivity|]. split; [discriminate|]. intros _.
    destruct (committed_row now new_id (ReportRequest.provider_id body)
                (ReportRequest.service_id body) (ReportRequest.zapret_args body)
                (ReportRequest.success body) (ReportRequest.latency_ms body)
                (ReportRequest.fingerprint body) (ReportRequest.client_version body)
                st) as (_ & _ & E).
    eexists. split; [exact E|]. split; reflexivity.
  - cbn. split; [reflexivity|]. split; [reflexivity | discriminate].
Qed.

Section Burst.

Variable fp : string.
Variable t1 : timestamp.

Lemma burst_answers (requests : list (timestamp * ReportRequest.t)) :
  within_burst fp t1 requests ->
  forall (ids : nat -> Z) (st : Store) (k : Z),
    (forall t, t1 <= t < t1 + one_hour ->
               count_recent_reports t fp (reports st) = k) ->
    map accepted (snd (post_reports no_fault ids requests st))
    = map (fun i => k + Z.of_nat i <? 10) (seq 0 (List.length requests)).
Proof.
  induction requests as [| [now body] rest IH]; intros Hb ids st k Hk;
    [reflexivity|].
  destruct (Hb now body (or_introl eq_refl)) as [Hfp Hnow].
  assert (Hrest : within_burst fp t1 rest)
    by (intros t b Hin; apply Hb; now right).
  cbn [post_reports].
  destruct (post_report_log now (ids 0%nat) body st) as (Hacc & Hrej & Hok).
  cbv zeta in Hacc, Hrej, Hok.
  destruct (post_report no_fault now (ids 0%nat) body st) as [st1 answer].
  cbn [fst snd] in *.
  specialize (IH Hrest (fun k => ids (S k)) st1).
  destruct (post_reports no_fault (fun k => ids (S k)) rest st1)
    as [st2 answers].
  cbn [snd List.length seq map] in *.
  rewrite Hfp in Hacc. unfold check_rate_limit in Hacc.
  rewrite (Hk now Hnow) in Hacc.
  change Config.MAX_REPORTS_PER_HOUR with 10 in Hacc.
  rewrite Z.add_0_r. rewrite Hacc. f_equal.
  rewrite <- seq_shift, map_map.
  destruct (Z.ltb_spec k 10) as [Hlt | Hge].
  - destruct (Hok Hacc) as (r & Hlog & Hrfp & Hrt).
    rewrite (IH (k + 1)).
    + apply map_ext. intros i. f_equal. lia.
    + intros t Ht. rewrite Hlog, count_recent_app, (Hk t Ht). f_equal.
      change 1 with (Z.of_nat (List.length [r])). apply count_recent_all.
      intros x [<- | []]. split; [congruence | lia].
  - rewrite (Hrej Hacc) in IH. rewrite (IH k Hk).
    apply map_ext. intros i.
    transitivity false; [apply Z.ltb_ge | symmetry; apply Z.ltb_ge]; lia.
Qed.

End Burst.

(** C7. [check_rate_limit] allows a fingerprint exactly when fewer than ten
    of its reports are younger than one hour.  However the log is split
    into the reports that are of another fingerprint or one hour old or
    older, which do not count, and the reports of the fingerprint younger
    than one hour, the answer is whether the latter are fewer than ten.  And in a run
    of reports of one fingerprint that starts with no recent report and
    lasts less than an hour, the first ten are accepted and every later one
    is refused. *)
Theorem rate_limit_window (now : timestamp) (st : Store) (fp : string) :
  (check_rate_limit now st fp = true
   <-> count_recent_reports now fp (reports st) < 10)
  /\ (forall old recent,
        Permutation (reports st) (old ++ recent) ->
        (forall r, In r old -> Report.fingerprint r = fp ->
                   Report.reported_at r <= now - one_hour) ->
        (forall r, In r recent -> Report.fingerprint r = fp
                                  /\ now - one_hour < Report.reported_at r) ->
        check_rate_limit now st fp = (List.length recent <? 10)%nat)
  /\ (forall requests (ids : nat -> Z),
        (forall r, In r (reports st) -> Report.fingerprint r = fp ->
                   Report.reported_at r <= now - one_hour) ->
        within_burst fp now requests ->
        map accepted (snd (post_reports no_fault ids requests st))
        = map (fun i => (i <? 10)%nat) (seq 0 (List.length requests))).
Proof.
  split; [| split].
  - unfold check_rate_limit. change Config.MAX_REPORTS_PER_HOUR with 10.
    apply Z.ltb_lt.
  - intros old recent E Hold Hrecent. unfold check_rate_limit.
    rewrite (count_recent_perm _ _ _ _ E), count_recent_app,
      (count_recent_none _ _ _ Hold),
      (count_recent_all _ _ _ Hrecent).
    change Config.MAX_REPORTS_PER_HOUR with 10. simpl.
    destruct (Nat.ltb_spec (List.length recent) 10);
      [apply Z.ltb_lt | apply Z.ltb_ge]; lia.
  - intros requests ids Hold Hb.
    rewrite (burst_answers fp now requests Hb ids st 0).
    + apply map_ext. intros i. simpl.
      destruct (Nat.ltb_spec i 10); [apply Z.ltb_lt | apply Z.ltb_ge]; lia.
    + intros t Ht. apply count_recent_none.
      intros r Hr Hfp. specialize (Hold r Hr Hfp). lia.
Qed.

Lemma rate_limit_window_witness :
  let body :=
    ReportRequest.mk "isp" "video" ["--a"] true (Float64.of_Z 20)
                     "0123456789abcdef" "1.0" in
  let requests :=
    [(0, body); (1, body); (2, body); (3, body); (4, body); (5, body);
     (6, body); (7, body); (8, body); (9, body); (10, body)] in
  within_burst "0123456789abcdef" 0 requests
  /\ map accepted
       (snd (post_reports no_fault (fun k => Z.of_nat (S k)) requests
               (mkStore [] [])))
     = [true; true; true; true; true; true; true; true; true; true; false].
Proof.
  cbv zeta.
  assert (Hb : within_burst "0123456789abcdef" 0
    [(0, ReportRequest.mk "isp" "video" ["--a"] true (Float64.of_Z 20) "0123456789abcdef" "1.0");
     (1, ReportRequest.mk "isp" "video" ["--a"] true (Float64.of_Z 20) "0123456789abcdef" "1.0");
     (2, ReportRequest.mk "isp" "video" ["--a"] true (Float64.of_Z 20) "0123456789abcdef" "1.0");
     (3, ReportRequest.mk "isp" "video" ["--a"] true (Float64.of_Z 20) "0123456789abcdef" "1.0");
     (4, ReportRequest.mk "isp" "video" ["--a"] true (Float64.of_Z 20) "0123456789abcdef" "1.0");
     (5, ReportRequest.mk "isp" "video" ["--a"] true (Float64.of_Z 20) "0123456789abcdef" "1.0");
     (6, ReportRequest.mk "isp" "video" ["--a"] true (Float64.of_Z 20) "0123456789abcdef" "1.0");
     (7, ReportRequest.mk "isp" "video" ["--a"] true (Float64.of_Z 20) "0123456789abcdef" "1.0");
     (8, ReportRequest.mk "isp" "video" ["--a"] true (Float64.of_Z 20) "0123456789abcdef" "1.0");
     (9, ReportRequest.mk "isp" "video" ["--a"] true (Float64.of_Z 20) "0123456789abcdef" "1.0");
     (10, ReportRequest.mk "isp" "video" ["--a"] true (Float64.of_Z 20) "0123456789abcdef" "1.0")]).
  { intros now body Hin. cbn in Hin.
    repeat (destruct Hin as [Hin | Hin];
            [inversion Hin; subst; split; [reflexivity | split; [lia | reflexivity]]|]).
    contradiction. }
  split; [exact Hb|].
  refine (proj2 (proj2 (rate_limit_window 0 (mkStore [] []) "0123456789abcdef"))
            _ (fun k => Z.of_nat (S k)) _ Hb).
  intros r [].
Defined.

(* ================================================================= *)
(** ** The maintenance sweep *)

Lemma run_cleanup_rows (now : timestamp) (st : Store) :
  strategies (fst (run_cleanup now st)) = map (swept now) (strategies st)
  /\ reports (fst (run_cleanup now st)) = reports st.
Proof.
  unfold run_cleanup, mark_stale, mark_degraded, sql_update_status. simpl.
  now rewrite map_map.
Qed.

Lemma sql_update_status_none (cond : Strategy.t -> bool) (s : Status)
  (rows : list Strategy.t) :
  (forall r, In r rows -> cond r = false) ->
  sql_update_status cond s rows = (rows, 0).
Proof.
  intros H. unfold sql_update_status. f_equal.
  - rewrite <- (map_id rows) at 2. apply map_ext_in.
    intros r Hr. now rewrite (H r Hr).
  - induction rows as [| r rows IH]; simpl; [reflexivity|].
    rewrite (H r (or_introl eq_refl)). apply IH. intros x Hx. apply H. now right.
Qed.

Lemma set_status_same (r : Strategy.t) :
  Strategy.set_status r (Strategy.status r) = r.
Proof. now destruct r. Qed.

Lemma Status_eqb_eq (a b : Status) : Status_eqb a b = true <-> a = b.
Proof. destruct a, b; simpl; split; congruence. Qed.

Lemma stale_where_status (now : timestamp) (r : Strategy.t) :
  stale_where now r = true -> Strategy.status r <> stale.
Proof.
  unfold stale_where. rewrite andb_true_iff, negb_true_iff.
  intros [_ H] E. rewrite E in H. discriminate.
Qed.

Lemma degraded_where_status (r : Strategy.t) :
  degraded_where r = true ->
  Strategy.status r <> stale /\ Strategy.status r <> degraded.
Proof.
  unfold degraded_where. rewrite !andb_true_iff, negb_true_iff, orb_false_iff.
  intros [_ [H1 H2]]. split; intros E; rewrite E in *; discriminate.
Qed.

Lemma degraded_where_set_status (r : Strategy.t) (s : Status) :
  s = stale \/ s = degraded ->
  degraded_where (Strategy.set_status r s) = false.
Proof.
  unfold degraded_where. simpl. intros [-> | ->]; simpl;
    now rewrite andb_false_r.
Qed.

Lemma stale_where_set_stale (now : timestamp) (r : Strategy.t) :
  stale_where now (Strategy.set_status r stale) = false.
Proof. unfold stale_where. simpl. now rewrite andb_false_r. Qed.

Lemma swept_stale_false (now : timestamp) (r : Strategy.t) :
  stale_where now (swept now r) = false.
Proof.
  unfold swept, swept_stale, swept_degraded.
  destruct (stale_where now r) eqn:Hs.
  - rewrite degraded_where_set_status by now left.
    apply stale_where_set_stale.
  - destruct (degraded_where r) eqn:Hd; [| exact Hs].
    apply degraded_where_status in Hd as [Hd _].
    unfold stale_where in *.
    cbn [Strategy.last_confirmed Strategy.status Strategy.set_status] in *.
    destruct (Status_eqb (Strategy.status r) stale) eqn:E;
      [apply Status_eqb_eq in E; contradiction|].
    cbn [negb] in Hs. rewrite andb_true_r in Hs. now rewrite Hs.
Qed.

Lemma swept_degraded_false (now : timestamp) (r : Strategy.t) :
  degraded_where (swept now r) = false.
Proof.
  unfold swept, swept_degraded.
  destruct (degraded_where (swept_stale now r)) eqn:Hd; [| exact Hd].
  apply degraded_where_set_status. now right.
Qed.

(** C8. The sweep is idempotent: run a second time at the same time on
    the store the first run left, it changes nothing and reports zero rows
    for both rules.  And a row that is stale before a sweep is left as it
    is: stale never becomes degraded. *)
Theorem run_cleanup_idempotent (now : timestamp) (st : Store) :
  run_cleanup now (fst (run_cleanup now st)) = (fst (run_cleanup now st), (0, 0))
  /\ Forall2 (fun r r' => Strategy.status r = stale -> r' = r)
       (strategies st) (strategies (fst (run_cleanup now st))).
Proof.
  destruct (run_cleanup_rows now st) as [Hrows Hreps].
  split.
  - destruct (fst (run_cleanup now st)) as [rows' reps'] eqn:E.
    simpl in Hrows, Hreps. subst rows' reps'.
    unfold run_cleanup, mark_stale, mark_degraded. cbn [strategies reports].
    rewrite sql_update_status_none.
    + rewrite sql_update_status_none; [reflexivity|].
      intros r Hr. apply in_map_iff in Hr as (x & <- & _).
      apply swept_degraded_false.
    + intros r Hr. apply in_map_iff in Hr as (x & <- & _).
      apply swept_stale_false.
  - rewrite Hrows. clear Hrows Hreps.
    induction (strategies st) as [| r rows IH]; simpl;
      [constructor | constructor; [| exact IH]].
    intros Hst. unfold swept, swept_stale, swept_degraded.
    destruct (stale_where now r) eqn:Hs.
    + now apply stale_where_status in Hs.
    + destruct (degraded_where r) eqn:Hd; [| reflexivity].
      now apply degraded_where_status in Hd as [Hd _].
Qed.

(** C10. A failed report on an unseen triple creates the strategy without
    [last_confirmed], and a failed report on a known triple leaves
    [last_confirmed] as it was.  The age rule of the sweep leaves every row
    without [last_confirmed] unchanged, whatever the time of the sweep; and
    after the whole sweep such a row is stale only if it was stale
    before. *)
Theorem never_confirmed_not_aged
  (now : timestamp) (new_id : Z) (provider service : string) (args : list string)
  (latency : Float64.float) (fp cv : string) (st : Store) :
  (let key := same_key provider service (compute_strategy_hash args) in
   let st' := fst (upsert_strategy no_fault now new_id provider service args false
                     latency fp cv st) in
   exists new, find key (strategies st') = Some new
     /\ match find key (strategies st) with
        | None => Strategy.last_confirmed new = None
        | Some old => Strategy.last_confirmed new = Strategy.last_confirmed old
        end)
  /\ Forall2 (fun r r' => Strategy.last_confirmed r = None -> r' = r)
       (strategies st) (fst (mark_stale now (strategies st)))
  /\ Forall2 (fun r r' =>
                Strategy.last_confirmed r = None ->
                Strategy.last_confirmed r' = None
                /\ (Strategy.status r' = stale -> Strategy.status r = stale))
       (strategies st) (strategies (fst (run_cleanup now st))).
Proof.
  split; [| split].
  - cbv zeta. rewrite upsert_strategy_cases. cbn [no_fault fst].
    destruct (committed_row now new_id provider service args false latency fp cv st)
      as (Hfind & _ & _).
    destruct (run_upsert_spec now new_id provider service args
                (compute_strategy_hash args) false latency st) as (_ & _ & Hold).
    cbv zeta in Hfind, Hold. eexists. split; [exact Hfind|].
    destruct (find _ (strategies st)); destruct Hold as (_ & ->); reflexivity.
  - unfold mark_stale, sql_update_status. cbn [fst].
    induction (strategies st) as [| r rows IH]; simpl;
      [constructor | constructor; [| exact IH]].
    intros Hlc. unfold stale_where. now rewrite Hlc.
  - destruct (run_cleanup_rows now st) as [-> _].
    induction (strategies st) as [| r rows IH]; simpl;
      [constructor | constructor; [| exact IH]].
    intros Hlc. unfold swept, swept_stale, swept_degraded.
    replace (stale_where now r) with false by (unfold stale_where; now rewrite Hlc).
    destruct (degraded_where r); simpl; split; auto; discriminate.
Qed.

(* ================================================================= *)
(** * Further properties *)

(* ================================================================= *)
(** ** The shape of the digest *)

Lemma compress_length (h block : list Z) :
  List.length h = 8%nat -> List.length (SHA256.compress h block) = 8%nat.
Proof.
  intros H. unfold SHA256.compress.
  rewrite length_map, length_combine, H. reflexivity.
Qed.

Lemma blocks_length (fuel : nat) (h ws : list Z) :
  List.length h = 8%nat -> List.length (SHA256.blocks fuel h ws) = 8%nat.
Proof.
  revert h ws. induction fuel as [| k IH]; intros h ws H; simpl; [exact H|].
  destruct ws as [| w ws']; [exact H|].
  apply IH. now apply compress_length.
Qed.

Lemma digest_length (msg : list Z) : List.length (SHA256.digest msg) = 8%nat.
Proof. unfold SHA256.digest. now apply blocks_length. Qed.

Lemma hex_digit_hex (x : Z) :
  all_hex (String (SHA256.hex_digit (Z.land x 15)) EmptyString) = true.
Proof.
  change 15 with (Z.ones 4). rewrite Z.land_ones by lia.
  pose proof (Z.mod_pos_bound x (2 ^ 4) ltac:(reflexivity)) as H.
  change (2 ^ 4) with 16 in *.
  set (n := x mod 16) in *.
  assert (C : In n [0; 1; 2; 3; 4; 5; 6; 7; 8; 9; 10; 11; 12; 13; 14; 15])
    by (cbn [In]; lia).
  repeat (destruct C as [<- | C]; [reflexivity|]). destruct C.
Qed.

Lemma all_hex_app (a b : string) :
  all_hex (a ++ b) = all_hex a && all_hex b.
Proof.
  induction a as [| c r IH]; simpl; [reflexivity|].
  now rewrite IH, andb_assoc.
Qed.

Lemma string_length_app (a b : string) :
  String.length (a ++ b) = (String.length a + String.length b)%nat.
Proof. induction a as [| c r IH]; simpl; [reflexivity | now rewrite IH]. Qed.

Lemma hex_word_shape (n : nat) (x : Z) :
  String.length (SHA256.hex_word n x) = n /\ all_hex (SHA256.hex_word n x) = true.
Proof.
  induction n as [| k [IH1 IH2]]; simpl; [now split|].
  split; [now rewrite IH1|].
  pose proof (hex_digit_hex (Z.shiftr x (4 * Z.of_nat k))) as H.
  simpl in H. rewrite andb_true_r in H. now rewrite H, IH2.
Qed.

Lemma concat_words_shape (ws : list Z) :
  let s := String.concat EmptyString (map (SHA256.hex_word 8) ws) in
  String.length s = (8 * List.length ws)%nat /\ all_hex s = true.
Proof.
  cbv zeta. induction ws as [| w ws [IH1 IH2]]; [now split|].
  destruct (hex_word_shape 8 w) as [H1 H2].
  destruct ws as [| w' ws'].
  - cbn [map String.concat List.length]. split; [rewrite H1; reflexivity | exact H2].
  - change (String.concat EmptyString (map (SHA256.hex_word 8) (w :: w' :: ws')))
      with (SHA256.hex_word 8 w
            ++ (EmptyString
                ++ String.concat EmptyString (map (SHA256.hex_word 8) (w' :: ws'))))%string.
    cbn [append] in *.
    rewrite string_length_app, all_hex_app, H1, H2, IH1, IH2.
    split; [simpl List.length; lia | reflexivity].
Qed.

(** X1. The fingerprint of any configuration, the empty one included,
    is a string of 64 lower-case hexadecimal digits. *)
Theorem hash_is_hex_of_64 (zapret_args : list string) :
  String.length (compute_strategy_hash zapret_args) = 64%nat
  /\ all_hex (compute_strategy_hash zapret_args) = true.
Proof.
  unfold compute_strategy_hash, SHA256.hexdigest.
  destruct (concat_words_shape
              (SHA256.digest (PyStr.encode (pre_digest zapret_args)))) as [H1 H2].
  rewrite digest_length in H1. split; [exact H1 | exact H2].
Qed.

(* ================================================================= *)
(** ** Degenerate configurations *)

Lemma normalized_args_blank (l : list string) :
  Forall (fun w => all_whitespace w = true) l -> normalized_args l = [].
Proof.
  induction 1 as [| w l Hw _ IH]; [reflexivity|].
  rewrite normalized_args_cons. unfold normalize_arg.
  now rewrite (strip_all_whitespace w Hw).
Qed.

(** X2. Blank configurations collapse.  A configuration whose
    parameters are all empty or whitespace has the fingerprint of the
    configuration without parameters, the SHA-256 digest of the empty
    string: [compute_strategy_hash] refuses no configuration. *)
Theorem blank_configurations_collapse (l : list string) :
  Forall (fun w => all_whitespace w = true) l ->
  compute_strategy_hash l
  = "e3b0c44298fc1c149afbf4c8996fb92427ae41e4649b934ca495991b7852b855".
Proof.
  intros H. unfold compute_strategy_hash, pre_digest.
  rewrite (normalized_args_blank l H). exact sha256_empty.
Qed.

Lemma blank_configurations_collapse_witness :
  Forall (fun w => all_whitespace w = true) ["  "; ""; String (PyStr.chr 9) ""]
  /\ compute_strategy_hash ["  "; ""; String (PyStr.chr 9) ""]
     = "e3b0c44298fc1c149afbf4c8996fb92427ae41e4649b934ca495991b7852b855".
Proof.
  assert (H : Forall (fun w => all_whitespace w = true)
                ["  "; ""; String (PyStr.chr 9) ""])
    by (repeat constructor).
  split; [exact H | exact (blank_configurations_collapse _ H)].
Defined.

(* ================================================================= *)
(** ** The canonical form *)

Lemma lstrip_fixed (c : ascii) (r : string) :
  PyStr.isspace c = false -> PyStr.lstrip (String c r) = String c r.
Proof. intros H. simpl. now rewrite H. Qed.

Lemma rstrip_idem (s : string) : PyStr.rstrip (PyStr.rstrip s) = PyStr.rstrip s.
Proof.
  induction s as [| c r IH]; simpl; [reflexivity|].
  destruct (PyStr.rstrip r) as [| d r'] eqn:E.
  - destruct (PyStr.isspace c) eqn:Hc; simpl; [reflexivity | now rewrite Hc].
  - change (PyStr.rstrip (String c (String d r')))
      with (match PyStr.rstrip (String d r') with
            | EmptyString =>
                if PyStr.isspace c then EmptyString else String c EmptyString
            | r'' => String c r''
            end).
    now rewrite IH.
Qed.

Lemma rstrip_head (c : ascii) (r : string) :
  PyStr.isspace c = false ->
  exists r', PyStr.rstrip (String c r) = String c r'.
Proof.
  intros H. simpl. destruct (PyStr.rstrip r); [rewrite H|]; eexists; reflexivity.
Qed.

Lemma lstrip_head (s : string) :
  PyStr.lstrip s = EmptyString
  \/ exists c r, PyStr.lstrip s = String c r /\ PyStr.isspace c = false.
Proof.
  induction s as [| c r IH]; simpl; [now left|].
  destruct (PyStr.isspace c) eqn:H; [exact IH|]. right. now exists c, r.
Qed.

Lemma strip_idem (s : string) : PyStr.strip (PyStr.strip s) = PyStr.strip s.
Proof.
  unfold PyStr.strip.
  destruct (lstrip_head s) as [-> | (c & r & -> & Hc)]; [reflexivity|].
  destruct (rstrip_head c r Hc) as [r' E]. rewrite E.
  rewrite (lstrip_fixed c r' Hc), <- E. apply rstrip_idem.
Qed.

Lemma lower_idem (s : string) : PyStr.lower (PyStr.lower s) = PyStr.lower s.
Proof.
  induction s as [| c r IH]; simpl; [reflexivity|].
  now rewrite lower_char_idem, IH.
Qed.

Lemma normalize_arg_idem (x : string) :
  normalize_arg (normalize_arg x) = normalize_arg x.
Proof.
  unfold normalize_arg.
  now rewrite <- lower_strip, lower_idem, strip_idem.
Qed.

Lemma normalized_args_idem (a : list string) :
  normalized_args (normalized_args a) = normalized_args a.
Proof.
  induction a as [| x a IH]; [reflexivity|].
  rewrite (normalized_args_cons x a).
  destruct (PyStr.truthy (normalize_arg x)) eqn:T; [| exact IH].
  rewrite normalized_args_cons, normalize_arg_idem, T, IH. reflexivity.
Qed.

(** X3. The normal form is a fixed point.  The sorted list of the
    normalized parameters of a configuration is its own normal form, and
    it has the pre-digest string and the fingerprint of the
    configuration it comes from. *)
Theorem hash_of_canonical_form (a : list string) :
  let canonical := PyStr.sorted (normalized_args a) in
  PyStr.sorted (normalized_args canonical) = canonical
  /\ pre_digest canonical = pre_digest a
  /\ compute_strategy_hash canonical = compute_strategy_hash a.
Proof.
  cbv zeta.
  assert (P : Permutation (normalized_args (PyStr.sorted (normalized_args a)))
                          (normalized_args a)).
  { rewrite <- (normalized_args_idem a) at 2. apply normalized_args_perm.
    symmetry. apply insertion_sort_perm. }
  split; [now apply sorted_perm_eq|].
  split; [now apply pre_digest_perm|].
  unfold compute_strategy_hash. now rewrite (pre_digest_perm _ _ P).
Qed.

(* ================================================================= *)
(** ** The decision table of the status *)

Lemma compute_status_exact (s f : Z) :
  0 <= s -> 0 <= f -> s + f < 2 ^ 51 ->
  _compute_status s f =
    if s + f <? 5 then unconfirmed
    else if 3 * (s + f) <=? 5 * s then verified
    else if 5 * s <? 2 * (s + f) then stale
    else unconfirmed.
Proof.
  intros Hs Hf Hb. unfold _compute_status.
  change Config.MIN_VOTES_VERIFIED with 5.
  destruct (Z.ltb_spec (s + f) 5) as [Hlt | Hge]; [reflexivity|].
  unfold Config.VERIFIED_RATE_THRESHOLD, Config.STALE_RATE_THRESHOLD.
  pose proof (geb_0_60_exact s (s + f) ltac:(lia) ltac:(lia)) as G.
  pose proof (ltb_0_40_exact s (s + f) ltac:(lia) ltac:(lia)) as L.
  destruct (Z.leb_spec (3 * (s + f)) (5 * s)) as [H6 | H6].
  - now rewrite (proj2 G H6).
  - replace (Float64.geb (Float64.py_truediv s (s + f)) Float64.lit_0_60)
      with false
      by (symmetry; apply not_true_is_false; intros E; apply G in E; lia).
    destruct (Z.ltb_spec (5 * s) (2 * (s + f))) as [H4 | H4].
    + now rewrite (proj2 L H4).
    + now replace (Float64.ltb (Float64.py_truediv s (s + f)) Float64.lit_0_40)
        with false
        by (symmetry; apply not_true_is_false; intros E; apply L in E; lia).
Qed.

(** X4. The decision table of [_compute_status], on counts below 2^51.
    The status is never degraded; it is verified exactly when there are
    five votes or more and at least three fifths of them are successes,
    and stale exactly when there are five votes or more and fewer than
    two fifths of them are successes; a verified strategy has at least
    three successes and a stale one at least four failures. *)
Theorem status_read_back (s f : Z) :
  0 <= s -> 0 <= f -> s + f < 2 ^ 51 ->
  _compute_status s f <> degraded
  /\ (_compute_status s f = verified
      <-> 5 <= s + f /\ 3 * (s + f) <= 5 * s)
  /\ (_compute_status s f = stale
      <-> 5 <= s + f /\ 5 * s < 2 * (s + f))
  /\ (_compute_status s f = verified -> 3 <= s)
  /\ (_compute_status s f = stale -> 4 <= f).
Proof.
  intros Hs Hf Hb. rewrite (compute_status_exact s f Hs Hf Hb).
  destruct (Z.ltb_spec (s + f) 5) as [Hlt | Hge].
  - split; [discriminate|].
    split; [split; [discriminate | lia]|].
    split; [split; [discriminate | lia]|]. split; discriminate.
  - destruct (Z.leb_spec (3 * (s + f)) (5 * s)) as [H6 | H6].
    + split; [discriminate|].
      split; [split; [intros _; lia | reflexivity]|].
      split; [split; [discriminate | lia]|]. split; [lia | discriminate].
    + destruct (Z.ltb_spec (5 * s) (2 * (s + f))) as [H4 | H4].
      * split; [discriminate|].
        split; [split; [discriminate | lia]|].
        split; [split; [intros _; lia | reflexivity]|]. split; [discriminate | lia].
      * split; [discriminate|].
        split; [split; [discriminate | lia]|].
        split; [split; [discriminate | lia]|]. split; discriminate.
Qed.

Lemma status_read_back_witness :
  0 <= 1 /\ 0 <= 4 /\ 1 + 4 < 2 ^ 51 /\ _compute_status 1 4 = stale /\ 4 <= 4.
Proof.
  assert (H1 : 0 <= 1) by lia. assert (H4 : 0 <= 4) by lia.
  assert (Hb : 1 + 4 < 2 ^ 51) by reflexivity.
  split; [exact H1 | split; [exact H4 | split; [exact Hb | split; [reflexivity|]]]].
  exact (proj2 (proj2 (proj2 (proj2 (status_read_back 1 4 H1 H4 Hb)))) eq_refl).
Defined.

(** X5. From five votes on, one more success never takes verified away
    and never makes a strategy stale, and one more failure never takes
    stale away and never makes a strategy verified. *)
Theorem status_monotone_after_five (s f : Z) :
  0 <= s -> 0 <= f -> 5 <= s + f -> s + f + 1 < 2 ^ 51 ->
  (_compute_status s f = verified -> _compute_status (s + 1) f = verified)
  /\ (_compute_status (s + 1) f = stale -> _compute_status s f = stale)
  /\ (_compute_status s f = stale -> _compute_status s (f + 1) = stale)
  /\ (_compute_status s (f + 1) = verified -> _compute_status s f = verified).
Proof.
  intros Hs Hf Ht Hb.
  rewrite (compute_status_exact s f), (compute_status_exact (s + 1) f),
    (compute_status_exact s (f + 1)) by lia.
  replace (s + f <? 5) with false by (symmetry; apply Z.ltb_ge; lia).
  replace (s + 1 + f <? 5) with false by (symmetry; apply Z.ltb_ge; lia).
  replace (s + (f + 1) <? 5) with false by (symmetry; apply Z.ltb_ge; lia).
  destruct (Z.leb_spec (3 * (s + f)) (5 * s));
    destruct (Z.leb_spec (3 * (s + 1 + f)) (5 * (s + 1)));
    destruct (Z.leb_spec (3 * (s + (f + 1))) (5 * s));
    destruct (Z.ltb_spec (5 * s) (2 * (s + f)));
    destruct (Z.ltb_spec (5 * (s + 1)) (2 * (s + 1 + f)));
    destruct (Z.ltb_spec (5 * s) (2 * (s + (f + 1))));
    repeat split; intros; try reflexivity; try discriminate; try lia.
Qed.

Lemma status_monotone_after_five_witness :
  0 <= 3 /\ 0 <= 2 /\ 5 <= 3 + 2 /\ 3 + 2 + 1 < 2 ^ 51
  /\ _compute_status 3 2 = verified /\ _compute_status (3 + 1) 2 = verified.
Proof.
  assert (H1 : 0 <= 3) by lia. assert (H2 : 0 <= 2) by lia.
  assert (H3 : 5 <= 3 + 2) by lia. assert (H4 : 3 + 2 + 1 < 2 ^ 51) by reflexivity.
  split; [exact H1 | split; [exact H2 | split; [exact H3 | split; [exact H4|]]]].
  split; [reflexivity|].
  exact (proj1 (status_monotone_after_five 3 2 H1 H2 H3 H4) eq_refl).
Defined.

(** X6. The fifth vote decides on the first four.  With four votes a
    strategy is unconfirmed; with at least three successes among them it
    is verified by its fifth report even when that report is a failure,
    and with no success among them it is stale by its fifth report even
    when that report is a success. *)
Theorem fifth_vote (s f : Z) :
  0 <= s -> 0 <= f -> s + f = 4 ->
  _compute_status s f = unconfirmed
  /\ (3 <= s -> _compute_status s (f + 1) = verified)
  /\ (s = 0 -> _compute_status (s + 1) f = stale).
Proof.
  intros Hs Hf Ht.
  assert (C : (s = 0 /\ f = 4) \/ (s = 1 /\ f = 3) \/ (s = 2 /\ f = 2)
              \/ (s = 3 /\ f = 1) \/ (s = 4 /\ f = 0)) by lia.
  destruct C as [[-> ->] | [[-> ->] | [[-> ->] | [[-> ->] | [-> ->]]]]];
    (split; [reflexivity | split; intros; try lia; reflexivity]).
Qed.

Lemma fifth_vote_witness :
  0 <= 3 /\ 0 <= 1 /\ 3 + 1 = 4 /\ _compute_status 3 (1 + 1) = verified.
Proof.
  assert (H1 : 0 <= 3) by lia. assert (H2 : 0 <= 1) by lia.
  assert (H3 : 3 + 1 = 4) by lia.
  split; [exact H1 | split; [exact H2 | split; [exact H3|]]].
  exact (proj1 (proj2 (fifth_vote 3 1 H1 H2 H3)) (Z.le_refl 3)).
Defined.

(* ================================================================= *)
(** ** The rate computed by the engine *)

Lemma pos_iter_xO (p k : positive) :
  Zpos (Pos.iter xO p k) = Zpos p * 2 ^ Zpos k.
Proof.
  induction k as [| k IH] using Pos.peano_ind.
  - change (Zpos (Pos.iter xO p 1)) with (2 * Zpos p). change (2 ^ 1) with 2. lia.
  - rewrite Pos.iter_succ, Pos2Z.inj_succ, Z.pow_succ_r by lia.
    change (Zpos (Pos.iter xO p k)~0) with (2 * Zpos (Pos.iter xO p k)).
    rewrite IH. lia.
Qed.

Lemma binary_round_aux_exact (m e : Z) :
  2 ^ 52 <= m < 2 ^ 53 -> -1074 <= e <= 970 ->
  binary_round_aux 53 1024 false m e loc_Exact = S754_finite false (Z.to_pos m) e.
Proof.
  intros Hm He. unfold binary_round_aux.
  unfold shr_fexp at 1.
  rewrite (Zdigits2_unique m 53) by lia.
  rewrite fexp_normal by lia.
  replace (53 + e - 53 - e) with 0 by lia.
  cbn [shr shr_record_of_loc shr_m loc_of_shr_record round_nearest_even].
  destruct (round_final m e) as (m' & j & -> & Hm' & Hj & Em); [lia | lia |].
  assert (j = 0).
  { destruct (Z.eq_dec j 0) as [E | NE]; [exact E | exfalso].
    assert (j = 1) by lia. subst j. change (2 ^ 1) with 2 in Em. lia. }
  subst j. rewrite Z.add_0_r. change (2 ^ 0) with 1 in Em.
  f_equal. rewrite <- Em, Z.mul_1_r. reflexivity.
Qed.

(** An integer below [2^53] is converted without rounding, to a mantissa
    of 53 bits. *)
Lemma of_Z_canonical (n : Z) :
  0 < n < 2 ^ 53 ->
  exists m k,
    Float64.of_Z n = S754_finite false m (- k)
    /\ 0 <= k <= 52 /\ 2 ^ 52 <= Zpos m < 2 ^ 53 /\ Zpos m = n * 2 ^ k.
Proof.
  intros Hn. destruct n as [| p | p]; try lia.
  pose proof (digits2_pos_bounds p) as D.
  set (d := Zpos (digits2_pos p)) in *.
  assert (Hd : 0 < d) by (unfold d; lia).
  assert (Hd53 : d <= 53).
  { destruct (Z_le_gt_dec d 53) as [L | G]; [exact L | exfalso].
    pose proof (Z.pow_le_mono_r 2 53 (d - 1)). lia. }
  unfold Float64.of_Z, binary_normalize, binary_round, Float64.prec, Float64.emax.
  fold d. rewrite Z.add_0_r, fexp_normal by lia. unfold shl_align.
  rewrite Z.sub_0_r.
  destruct (d - 53) as [| q | q] eqn:E; try lia.
  - exists p, 0. assert (d = 53) by lia.
    replace (2 ^ (d - 1)) with (2 ^ 52) in D by (f_equal; lia).
    replace (2 ^ d) with (2 ^ 53) in D by (f_equal; lia).
    rewrite binary_round_aux_exact by lia.
    split; [reflexivity|]. split; [lia|]. split; [exact D|].
    change (2 ^ 0) with 1. lia.
  - exists (Pos.iter xO p q), (Zpos q).
    assert (Ek : Zpos q = 53 - d) by lia.
    pose proof (pos_iter_xO p q) as Ei.
    assert (Elo : 2 ^ 52 = 2 ^ (d - 1) * 2 ^ Zpos q).
    { rewrite <- Z.pow_add_r by lia. f_equal. lia. }
    assert (Ehi : 2 ^ 53 = 2 ^ d * 2 ^ Zpos q).
    { rewrite <- Z.pow_add_r by lia. f_equal. lia. }
    assert (HP : 0 < 2 ^ Zpos q) by (apply Z.pow_pos_nonneg; lia).
    assert (Hm : 2 ^ 52 <= Zpos (Pos.iter xO p q) < 2 ^ 53).
    { rewrite Ei, Elo, Ehi.
      set (P := 2 ^ Zpos q) in *. set (A := 2 ^ (d - 1)) in *.
      set (B := 2 ^ d) in *. split; nia. }
    rewrite binary_round_aux_exact by lia.
    split; [reflexivity|]. split; [lia|]. split; [exact Hm | exact Ei].
Qed.

Lemma div_core_canonical (m1 m2 : positive) (e1 e2 : Z) :
  2 ^ 52 <= Zpos m1 < 2 ^ 53 -> 2 ^ 52 <= Zpos m2 < 2 ^ 53 ->
  -52 <= e1 <= 0 -> -52 <= e2 <= 0 ->
  SFdiv_core_binary 53 1024 (Zpos m1) e1 (Zpos m2) e2
  = ((Zpos m1 * 2 ^ 53) / Zpos m2, e1 - e2 - 53,
     new_location (Zpos m2) ((Zpos m1 * 2 ^ 53) mod Zpos m2)).
Proof.
  intros H1 H2 He1 He2. unfold SFdiv_core_binary.
  rewrite (Zdigits2_unique (Zpos m1) 53), (Zdigits2_unique (Zpos m2) 53) by lia.
  rewrite fexp_normal by lia.
  replace (Z.min (53 + e1 - (53 + e2) - 53) (e1 - e2)) with (e1 - e2 - 53) by lia.
  replace (e1 - e2 - (e1 - e2 - 53)) with 53 by lia.
  rewrite Z.shiftl_mul_pow2 by lia.
  unfold Z.div, Z.modulo.
  now destruct (Z.div_eucl (Zpos m1 * 2 ^ 53) (Zpos m2)).
Qed.

(** The quotient of two converted integers, as [success_count::float /
    total] computes it, is within half a unit in the last place of the
    exact quotient. *)
Lemma sql_div_near (s t : Z) :
  0 < s <= t -> t < 2 ^ 53 ->
  rounds_quotient s t (Float64.div (Float64.of_Z s) (Float64.of_Z t)).
Proof.
  intros Hs Ht.
  destruct (of_Z_canonical s) as (m1 & k1 & -> & Hk1 & Hm1 & E1); [lia|].
  destruct (of_Z_canonical t) as (m2 & k2 & -> & Hk2 & Hm2 & E2); [lia|].
  assert (HP1 : 0 < 2 ^ k1) by (apply Z.pow_pos_nonneg; lia).
  assert (HP2 : 0 < 2 ^ k2) by (apply Z.pow_pos_nonneg; lia).
  assert (Hk : k2 <= k1).
  { destruct (Z_le_gt_dec k2 k1) as [L | G]; [exact L | exfalso].
    assert (Ek : 2 ^ k2 = 2 ^ (k2 - k1 - 1) * 2 * 2 ^ k1).
    { replace k2 with ((k2 - k1 - 1) + 1 + k1) at 1 by lia.
      rewrite !Z.pow_add_r by lia. reflexivity. }
    assert (0 < 2 ^ (k2 - k1 - 1)) by (apply Z.pow_pos_nonneg; lia).
    rewrite Ek in E2.
    change (2 ^ 52) with 4503599627370496 in *.
    change (2 ^ 53) with 9007199254740992 in *.
    set (Q := 2 ^ (k2 - k1 - 1)) in *. set (P := 2 ^ k1) in *.
    assert (s * P <= t * P) by nia.
    assert (t * P * 2 <= t * P * 2 * Q) by nia. nia. }
  unfold Float64.div, SFdiv, Float64.prec, Float64.emax.
  rewrite (div_core_canonical m1 m2 (- k1) (- k2)) by lia.
  pose proof (Z.div_mod (Zpos m1 * 2 ^ 53) (Zpos m2) ltac:(lia)) as Hdiv.
  pose proof (Z.mod_pos_bound (Zpos m1 * 2 ^ 53) (Zpos m2) ltac:(lia)) as Hmod.
  set (q := (Zpos m1 * 2 ^ 53) / Zpos m2) in *.
  set (r := (Zpos m1 * 2 ^ 53) mod Zpos m2) in *.
  assert (Hq : 2 ^ 52 <= q < 2 ^ 54).
  { change (2 ^ 52) with 4503599627370496 in *.
    change (2 ^ 53) with 9007199254740992 in *.
    change (2 ^ 54) with 18014398509481984.
    split; nia. }
  destruct (binary_round_aux_near q (- k1 - - k2 - 53) r (Zpos m2)
              (new_location (Zpos m2) r))
    as (m & j & E & Hm & Hj & Hnear);
    [exact Hq | lia | exact Hmod | now apply new_location_of |].
  cbn [xorb]. rewrite E.
  exists m, (- k1 - - k2 - 53 + j).
  split; [reflexivity|]. split; [exact Hm|]. split; [lia|].
  replace (- (- k1 - - k2 - 53 + j)) with (k1 - k2 + 53 - j) by lia.
  assert (HPj : 0 < 2 ^ (k2 + j)) by (apply Z.pow_pos_nonneg; lia).
  assert (Es : Zpos m1 * 2 ^ 53 = s * 2 ^ (k1 - k2 + 53 - j) * 2 ^ (k2 + j)).
  { rewrite E1, <- !Z.mul_assoc, <- !Z.pow_add_r by lia. do 2 f_equal. lia. }
  assert (Et : Zpos m * 2 ^ j * Zpos m2 = Zpos m * t * 2 ^ (k2 + j)).
  { rewrite E2, Z.pow_add_r by lia. ring. }
  replace (q * Zpos m2 + r) with (Zpos m1 * 2 ^ 53) in Hnear by lia.
  rewrite Es, Et in Hnear.
  replace (2 ^ j * Zpos m2) with (t * 2 ^ (k2 + j)) in Hnear
    by (rewrite E2, Z.pow_add_r by lia; ring).
  set (X := s * 2 ^ (k1 - k2 + 53 - j)) in *.
  set (P := 2 ^ (k2 + j)) in *.
  replace (X * P - Zpos m * t * P) with ((X - Zpos m * t) * P) in Hnear by ring.
  rewrite Z.abs_mul, (Z.abs_eq P) in Hnear by lia.
  nia.
Qed.

(* ================================================================= *)
(** ** The thresholds of the two SQL tests *)

Lemma pg_lt_finite (m m' : positive) (e e' : Z) :
  Float64.pg_lt (S754_finite false m e) (S754_finite false m' e') = true
  <-> e < e' \/ (e = e' /\ Zpos m < Zpos m').
Proof.
  unfold Float64.pg_lt, Float64.pg_cmp. cbn [SFcompare].
  destruct (Z.compare_spec e e') as [E | L | G].
  - rewrite Pos.compare_cont_spec. cbn [Pos.switch_Eq].
    pose proof (Pos.compare_spec m m') as C.
    destruct C; split; intros; try lia; try discriminate; try reflexivity.
  - split; [lia | reflexivity].
  - split; [discriminate | lia].
Qed.

Lemma pg_ge_finite (m m' : positive) (e e' : Z) :
  Float64.pg_ge (S754_finite false m e) (S754_finite false m' e') = true
  <-> e' < e \/ (e = e' /\ Zpos m' <= Zpos m).
Proof.
  unfold Float64.pg_ge, Float64.pg_cmp. cbn [SFcompare].
  destruct (Z.compare_spec e e') as [E | L | G].
  - rewrite Pos.compare_cont_spec. cbn [Pos.switch_Eq].
    pose proof (Pos.compare_spec m m') as C.
    destruct C; split; intros; try lia; try discriminate; try reflexivity.
  - split; [discriminate | lia].
  - split; [lia | reflexivity].
Qed.

Lemma near_lt_0_40 (s t : Z) (x : Float64.float) :
  0 < s <= t -> t < 2 ^ 51 -> rounds_quotient s t x ->
  (Float64.pg_lt x Float64.lit_0_40 = true <-> 5 * s < 2 * t).
Proof.
  intros Hs Ht (m & e & -> & Hm & He & Hnear).
  unfold Float64.lit_0_40. rewrite pg_lt_finite.
  change (2 ^ 51) with 2251799813685248 in Ht.
  change (2 ^ 52) with 4503599627370496 in Hm.
  change (2 ^ 53) with 9007199254740992 in Hm.
  destruct (Z.lt_trichotomy e (-54)) as [L | [-> | G]].
  - assert (HP : 2 ^ 55 <= 2 ^ (- e)) by (apply Z.pow_le_mono_r; lia).
    change (2 ^ 55) with 36028797018963968 in HP.
    set (P := 2 ^ (- e)) in *.
    assert (s * 36028797018963968 <= s * P) by nia.
    assert (Zpos m * t < 9007199254740992 * t) by nia.
    split; [intros _; lia | intros _; left; lia].
  - change (2 ^ (- -54)) with 18014398509481984 in Hnear.
    split.
    + intros [? | [_ Hlt]]; [lia|].
      assert (Zpos m * t <= 7205759403792793 * t) by nia. lia.
    + intros H. right. split; [reflexivity|].
      destruct (Z_lt_le_dec (Zpos m) 7205759403792794) as [? | Hge];
        [assumption | exfalso].
      assert (7205759403792794 * t <= Zpos m * t) by nia. lia.
  - assert (He' : e = -53 \/ e = -52 \/ e = -51) by lia.
    assert (4503599627370496 * t <= Zpos m * t) by nia.
    destruct He' as [-> | [-> | ->]].
    + change (2 ^ (- -53)) with 9007199254740992 in Hnear.
      split; [intros [? | [? _]]; lia | intros; exfalso; lia].
    + change (2 ^ (- -52)) with 4503599627370496 in Hnear.
      split; [intros [? | [? _]]; lia | intros; exfalso; lia].
    + change (2 ^ (- -51)) with 2251799813685248 in Hnear.
      split; [intros [? | [? _]]; lia | intros; exfalso; lia].
Qed.

Lemma near_ge_0_70 (s t : Z) (x : Float64.float) :
  0 < s <= t -> t < 2 ^ 49 -> rounds_quotient s t x ->
  (Float64.pg_ge x Float64.lit_0_70 = true <-> 7 * t <= 10 * s).
Proof.
  intros Hs Ht (m & e & -> & Hm & He & Hnear).
  unfold Float64.lit_0_70. rewrite pg_ge_finite.
  change (2 ^ 49) with 562949953421312 in Ht.
  change (2 ^ 52) with 4503599627370496 in Hm.
  change (2 ^ 53) with 9007199254740992 in Hm.
  destruct (Z.lt_trichotomy e (-53)) as [L | [-> | G]].
  - assert (HP : 2 ^ 54 <= 2 ^ (- e)) by (apply Z.pow_le_mono_r; lia).
    change (2 ^ 54) with 18014398509481984 in HP.
    set (P := 2 ^ (- e)) in *.
    assert (s * 18014398509481984 <= s * P) by nia.
    assert (Zpos m * t < 9007199254740992 * t) by nia.
    split; [lia | intros; exfalso; lia].
  - change (2 ^ (- -53)) with 9007199254740992 in Hnear.
    split.
    + intros [? | [_ Hge]]; [lia|].
      assert (6305039478318694 * t <= Zpos m * t) by nia. lia.
    + intros H. right. split; [reflexivity|].
      destruct (Z_le_gt_dec 6305039478318694 (Zpos m)) as [? | Hlt];
        [assumption | exfalso].
      assert (Zpos m * t <= 6305039478318693 * t) by nia. lia.
  - assert (He' : e = -52 \/ e = -51) by lia.
    assert (4503599627370496 * t <= Zpos m * t) by nia.
    destruct He' as [-> | ->].
    + change (2 ^ (- -52)) with 4503599627370496 in Hnear.
      split; [intros _; lia | intros _; left; lia].
    + change (2 ^ (- -51)) with 2251799813685248 in Hnear.
      split; [intros _; lia | intros _; left; lia].
Qed.

Lemma sql_div_zero (t : Z) :
  0 < t < 2 ^ 53 ->
  Float64.div (Float64.of_Z 0) (Float64.of_Z t) = S754_zero false.
Proof.
  intros Ht. destruct (of_Z_canonical t Ht) as (m & k & -> & _). reflexivity.
Qed.

(** The rate test of the sweep's second UPDATE, on counts the engine
    holds exactly. *)
Lemma sql_rate_below_0_40 (s t : Z) :
  0 <= s <= t -> 0 < t < 2 ^ 51 ->
  (Float64.pg_lt (Float64.div (Float64.of_Z s) (Float64.of_Z t))
                 Config.STALE_RATE_THRESHOLD = true
   <-> 5 * s < 2 * t).
Proof.
  intros Hs Ht. unfold Config.STALE_RATE_THRESHOLD.
  assert (Ht53 : t < 2 ^ 53) by (pose proof (Z.pow_lt_mono_r 2 51 53); lia).
  destruct (Z.eq_dec s 0) as [-> | Hs0].
  - rewrite sql_div_zero by lia.
    change (Float64.pg_lt (S754_zero false) Float64.lit_0_40) with true.
    split; [lia | reflexivity].
  - apply near_lt_0_40; [lia | lia |]. apply sql_div_near; lia.
Qed.

(** The rate test of the fallback SELECT. *)
Lemma sql_rate_at_least_0_70 (s t : Z) :
  0 <= s <= t -> 0 < t < 2 ^ 49 ->
  (Float64.pg_ge (Float64.div (Float64.of_Z s) (Float64.of_Z t))
                 Config.FALLBACK_SUCCESS_RATE = true
   <-> 7 * t <= 10 * s).
Proof.
  intros Hs Ht. unfold Config.FALLBACK_SUCCESS_RATE.
  assert (Ht53 : t < 2 ^ 53) by (pose proof (Z.pow_lt_mono_r 2 49 53); lia).
  destruct (Z.eq_dec s 0) as [-> | Hs0].
  - rewrite sql_div_zero by lia.
    change (Float64.pg_ge (S754_zero false) Float64.lit_0_70) with false.
    split; [discriminate | lia].
  - apply near_ge_0_70; [lia | lia |]. apply sql_div_near; lia.
Qed.

(** X7. The two rate tests written in SQL are exact on counts below
    2^49.  The fallback query takes a row exactly when it is of the
    service, of another provider, verified, has a vote, and at least
    seven tenths of its votes are successes; the second UPDATE of the
    sweep takes a row exactly when it has five votes or more, fewer than
    two fifths of them successes, and is neither stale nor degraded. *)
Theorem sql_thresholds_exact (r : Strategy.t) (provider service : string) :
  0 <= Strategy.success_count r -> 0 <= Strategy.fail_count r ->
  Strategy.success_count r + Strategy.fail_count r < 2 ^ 49 ->
  let s := Strategy.success_count r in
  let t := Strategy.success_count r + Strategy.fail_count r in
  (fallback_where provider service r = true
   <-> Strategy.service_id r = service /\ Strategy.provider_id r <> provider
       /\ Strategy.status r = verified /\ 0 < t /\ 7 * t <= 10 * s)
  /\ (degraded_where r = true
      <-> 5 <= t /\ 5 * s < 2 * t
          /\ Strategy.status r <> stale /\ Strategy.status r <> degraded).
Proof.
  intros Hs Hf Hb. cbv zeta.
  assert (Hb51 : 2 ^ 49 < 2 ^ 51) by reflexivity.
  split.
  - rewrite fallback_where_iff. unfold sql_success_rate.
    destruct (Z.ltb_spec 0 (Strategy.success_count r + Strategy.fail_count r))
      as [Hpos | Hzero].
    + rewrite sql_rate_at_least_0_70 by lia. tauto.
    + split; [intros (_ & _ & _ & H); cbn in H; discriminate | lia].
  - unfold degraded_where. cbv zeta.
    rewrite !andb_true_iff, negb_true_iff, orb_false_iff.
    change Config.MIN_VOTES_VERIFIED with 5. rewrite Z.leb_le.
    split.
    + intros [[Ht Hr] [H1 H2]].
      rewrite sql_rate_below_0_40 in Hr by lia.
      repeat split; try assumption; intros E; rewrite E in *; discriminate.
    + intros (Ht & Hr & H1 & H2).
      rewrite sql_rate_below_0_40 by lia.
      repeat split; try assumption;
        destruct (Strategy.status r); try reflexivity; congruence.
Qed.

Lemma sql_thresholds_exact_witness :
  let r := Strategy.mk 3 "other" "video" ["--c"] "h3" 7 3 (Float64.of_Z 25)
                       verified 0 (Some 40) in
  0 <= Strategy.success_count r /\ 0 <= Strategy.fail_count r
  /\ Strategy.success_count r + Strategy.fail_count r < 2 ^ 49
  /\ fallback_where "isp" "video" r = true.
Proof.
  cbv zeta.
  assert (H1 : 0 <= 7) by lia. assert (H2 : 0 <= 3) by lia.
  assert (H3 : 7 + 3 < 2 ^ 49) by reflexivity.
  split; [exact H1 | split; [exact H2 | split; [exact H3|]]].
  apply (proj1 (sql_thresholds_exact
                  (Strategy.mk 3 "other" "video" ["--c"] "h3" 7 3 (Float64.of_Z 25)
                               verified 0 (Some 40)) "isp" "video" H1 H2 H3)).
  cbn. repeat split; try lia; discriminate.
Defined.

(* ================================================================= *)
(** ** The shape of the store after a report *)

Lemma same_key_iff (provider service hash : string) (r : Strategy.t) :
  same_key provider service hash r = true
  <-> strategy_key r = (provider, service, hash).
Proof.
  unfold same_key, strategy_key. rewrite !andb_true_iff, !String.eqb_eq.
  split; [intros [[-> ->] ->]; reflexivity | intros [= -> -> ->]; auto].
Qed.

Lemma find_none_forall {A : Type} (p : A -> bool) (l : list A) :
  find p l = None -> forall x, In x l -> p x = false.
Proof. intros H x Hx. exact (find_none p l H x Hx). Qed.

Lemma key_unique (provider service hash : string) (rows : list Strategy.t)
  (old r : Strategy.t) :
  NoDup (map strategy_key rows) ->
  find (same_key provider service hash) rows = Some old ->
  In r rows -> same_key provider service hash r = true -> r = old.
Proof.
  intros Hk Hf Hr Hkey. apply find_some in Hf as [Hold Hkold].
  apply (NoDup_map_injective_on strategy_key rows); try assumption.
  apply same_key_iff in Hkey, Hkold. congruence.
Qed.

Lemma insert_on_conflict_map (provider service hash : string)
  (update : Strategy.t -> Strategy.t) (new : Strategy.t)
  (rows : list Strategy.t) (old : Strategy.t) :
  NoDup (map strategy_key rows) ->
  find (same_key provider service hash) rows = Some old ->
  insert_on_conflict (same_key provider service hash) update new rows
  = (map (fun r => if same_key provider service hash r then update r else r) rows,
     update old).
Proof.
  induction rows as [| x rows IH]; simpl; [discriminate|].
  intros Hk Hf. inversion Hk as [| k ks Hx Hks]; subst.
  destruct (same_key provider service hash x) eqn:Hkx.
  - injection Hf as <-. f_equal. f_equal.
    rewrite <- (map_id rows) at 1. apply map_ext_in.
    intros r Hr. destruct (same_key provider service hash r) eqn:Hkr;
      [exfalso | reflexivity].
    apply Hx. apply same_key_iff in Hkx, Hkr. rewrite Hkx, <- Hkr.
    now apply in_map.
  - rewrite (IH Hks Hf). reflexivity.
Qed.

Lemma run_upsert_eq now new_id provider service args hash success latency st :
  run_upsert now new_id provider service args hash success latency st
  = (mkStore
       (fst (insert_on_conflict (same_key provider service hash)
               (upsert_update now success latency)
               (upsert_insert now new_id provider service
                  args hash success latency)
               (strategies st)))
       (reports st),
     snd (insert_on_conflict (same_key provider service hash)
            (upsert_update now success latency)
            (upsert_insert now new_id provider service
               args hash success latency)
            (strategies st))).
Proof. unfold run_upsert, upsert_update, upsert_insert. now destruct success. Qed.

Lemma upsert_update_id now success latency r :
  Strategy.id (upsert_update now success latency r) = Strategy.id r.
Proof. unfold upsert_update. now destruct success. Qed.

Lemma upsert_update_key now success latency r :
  strategy_key (upsert_update now success latency r) = strategy_key r.
Proof. unfold upsert_update. now destruct success. Qed.

(** The table after a report that went through: the row of the triple is
    updated and its status recomputed, or a new row is appended; every
    other row is as it was. *)
Lemma committed_shape now new_id provider service args success latency fp cv st :
  NoDup (map Strategy.id (strategies st)) ->
  NoDup (map strategy_key (strategies st)) ->
  ~ In new_id (map Strategy.id (strategies st)) ->
  let hash := compute_strategy_hash args in
  let st' := committed now new_id provider service args success latency fp cv st in
  match find (same_key provider service hash) (strategies st) with
  | Some old =>
      strategies st'
      = map (fun r => if same_key provider service hash r
                      then recomputed (upsert_update now success latency r)
                      else r) (strategies st)
      /\ reports st'
         = reports st ++ [Report.mk (Strategy.id old) fp success latency cv now]
  | None =>
      strategies st'
      = strategies st
        ++ [recomputed (upsert_insert now new_id provider
                          service args hash success latency)]
      /\ reports st'
         = reports st
           ++ [Report.mk new_id fp success latency cv now]
  end.
Proof.
  intros Hids Hkeys Hfresh. cbv zeta.
  unfold committed, run_insert_report, run_set_status.
  rewrite run_upsert_eq. cbn [fst snd strategies reports].
  destruct (find (same_key provider service (compute_strategy_hash args))
              (strategies st)) as [old |] eqn:F.
  - rewrite (insert_on_conflict_map _ _ _ _ _ _ old Hkeys F). cbn [fst snd].
    rewrite upsert_update_id. split; [| reflexivity].
    rewrite map_map. apply map_ext_in. intros r Hr.
    destruct (same_key provider service (compute_strategy_hash args) r) eqn:Hk.
    + assert (r = old) as -> by (eapply key_unique; eassumption).
      now rewrite upsert_update_id, Z.eqb_refl.
    + destruct (Z.eqb_spec (Strategy.id r) (Strategy.id old)) as [E | NE];
        [exfalso | reflexivity].
      apply find_some in F as [Hold Hkold].
      assert (r = old)
        by (apply (NoDup_map_injective_on Strategy.id (strategies st));
            assumption).
      subst r. congruence.
  - destruct (insert_on_conflict_fresh
                (same_key provider service (compute_strategy_hash args))
                (upsert_update now success latency)
                (upsert_insert now new_id provider service
                   args (compute_strategy_hash args) success latency)) with
      (rows := strategies st) as [E _]; [| exact F |].
    { unfold upsert_insert. destruct success; apply same_key_refl. }
    rewrite E. cbn [fst snd].
    assert (Eid : Strategy.id
                    (upsert_insert now new_id provider
                       service args (compute_strategy_hash args) success latency)
                  = new_id)
      by (unfold upsert_insert; now destruct success).
    rewrite Eid. split; [| reflexivity].
    rewrite map_app. cbn [map]. rewrite Eid, Z.eqb_refl. f_equal.
    rewrite <- (map_id (strategies st)) at 2. apply map_ext_in.
    intros r Hr.
    replace (Strategy.id r =? new_id) with false; [reflexivity|].
    symmetry. apply Z.eqb_neq. intros Eq. apply Hfresh. rewrite <- Eq.
    now apply in_map.
Qed.

(* ================================================================= *)
(** ** The store stays in order *)

Lemma votes_of_app (id : Z) (o : bool) (l1 l2 : list Report.t) :
  votes_of id o (l1 ++ l2) = votes_of id o l1 + votes_of id o l2.
Proof. unfold votes_of. rewrite filter_app, length_app. lia. Qed.

Lemma votes_of_foreign (id : Z) (o : bool) (log : list Report.t) :
  (forall rep, In rep log -> Report.strategy_id rep <> id) ->
  votes_of id o log = 0.
Proof.
  intros H. unfold votes_of.
  replace (filter _ log) with (@nil Report.t); [reflexivity|].
  symmetry. induction log as [| rep log IH]; simpl; [reflexivity|].
  replace (Report.strategy_id rep =? id) with false
    by (symmetry; apply Z.eqb_neq; apply H; now left).
  simpl. apply IH. intros x Hx. apply H. now right.
Qed.

Lemma votes_of_one (id sid : Z) (o success : bool) fp latency cv now :
  votes_of id o [Report.mk sid fp success latency cv now]
  = if (sid =? id) && Bool.eqb success o then 1 else 0.
Proof.
  unfold votes_of. simpl. now destruct ((sid =? id) && Bool.eqb success o).
Qed.

Lemma NoDup_snoc {A : Type} (l : list A) (x : A) :
  NoDup l -> ~ In x l -> NoDup (l ++ [x]).
Proof.
  intros Hl Hx. apply NoDup_app; [exact Hl | repeat constructor; auto |].
  intros a Ha [<- | []]. contradiction.
Qed.

Lemma recomputed_fields (r : Strategy.t) :
  Strategy.id (recomputed r) = Strategy.id r
  /\ strategy_key (recomputed r) = strategy_key r
  /\ Strategy.success_count (recomputed r) = Strategy.success_count r
  /\ Strategy.fail_count (recomputed r) = Strategy.fail_count r.
Proof. now destruct r. Qed.

Lemma upsert_update_counts now success latency r :
  Strategy.success_count (upsert_update now success latency r)
  = Strategy.success_count r + (if success then 1 else 0)
  /\ Strategy.fail_count (upsert_update now success latency r)
     = Strategy.fail_count r + (if success then 0 else 1).
Proof. unfold upsert_update. destruct success; simpl; lia. Qed.

Lemma upsert_insert_fields now new_id provider service args hash success latency :
  let r := upsert_insert now new_id provider service args hash success latency in
  Strategy.id r = new_id
  /\ strategy_key r = (provider, service, hash)
  /\ Strategy.success_count r = (if success then 1 else 0)
  /\ Strategy.fail_count r = (if success then 0 else 1).
Proof. unfold upsert_insert. now destruct success. Qed.

Lemma consistent_committed now new_id provider service args success latency fp cv st :
  consistent st ->
  ~ In new_id (map Strategy.id (strategies st)) ->
  consistent (committed now new_id provider service args success latency fp cv st).
Proof.
  intros [Hids Hkeys Hown Hvotes] Hfresh.
  pose proof (committed_shape now new_id provider service args success latency fp cv st
                Hids Hkeys Hfresh) as Hshape.
  cbv zeta in Hshape.
  set (hash := compute_strategy_hash args) in *.
  set (st' := committed now new_id provider service args success latency fp cv st) in *.
  destruct (find (same_key provider service hash) (strategies st))
    as [old |] eqn:F; destruct Hshape as [Hs Hr].
  - (* the triple is known *)
    pose proof (find_some _ _ F) as [Hold Hkold].
    assert (Eids : map Strategy.id (strategies st') = map Strategy.id (strategies st)).
    { rewrite Hs, map_map. apply map_ext. intros r.
      destruct (same_key provider service hash r); [| reflexivity].
      destruct (recomputed_fields (upsert_update now success latency r)) as [-> _].
      apply upsert_update_id. }
    assert (Ekeys : map strategy_key (strategies st')
                    = map strategy_key (strategies st)).
    { rewrite Hs, map_map. apply map_ext. intros r.
      destruct (same_key provider service hash r); [| reflexivity].
      destruct (recomputed_fields (upsert_update now success latency r))
        as (_ & -> & _).
      apply upsert_update_key. }
    constructor.
    + now rewrite Eids.
    + now rewrite Ekeys.
    + rewrite Eids, Hr. intros rep Hrep.
      apply in_app_or in Hrep as [Hrep | [<- | []]]; [now apply Hown|].
      cbn. now apply in_map.
    + rewrite Hs, Hr. intros r' Hr'.
      apply in_map_iff in Hr' as (r & <- & Hin).
      rewrite !votes_of_app, !votes_of_one.
      destruct (Hvotes r Hin) as [Hsc Hfc].
      destruct (same_key provider service hash r) eqn:Hk.
      * assert (r = old) as -> by (eapply key_unique; eassumption).
        destruct (recomputed_fields (upsert_update now success latency old))
          as (-> & _ & -> & ->).
        destruct (upsert_update_counts now success latency old) as [-> ->].
        rewrite upsert_update_id, Z.eqb_refl, <- Hsc, <- Hfc.
        destruct success; simpl; lia.
      * assert (NE : Strategy.id old <> Strategy.id r).
        { intros E. assert (r = old)
            by (apply (NoDup_map_injective_on Strategy.id (strategies st));
                auto).
          subst r. congruence. }
        replace (Strategy.id old =? Strategy.id r) with false
          by (symmetry; now apply Z.eqb_neq).
        simpl. lia.
  - (* the triple is new *)
    set (new := upsert_insert now new_id provider service
                  args hash success latency) in *.
    destruct (upsert_insert_fields now new_id provider
                service args hash success latency) as (Nid & Nkey & Nsc & Nfc).
    fold new in Nid, Nkey, Nsc, Nfc.
    destruct (recomputed_fields new) as (Rid & Rkey & Rsc & Rfc).
    constructor.
    + rewrite Hs, map_app. cbn [map]. rewrite Rid, Nid. now apply NoDup_snoc.
    + rewrite Hs, map_app. cbn [map]. rewrite Rkey, Nkey. apply NoDup_snoc;
        [exact Hkeys|].
      intros H. apply in_map_iff in H as (r & E & Hin).
      apply same_key_iff in E.
      rewrite (find_none _ _ F r Hin) in E. discriminate.
    + rewrite Hs, Hr, map_app. cbn [map]. rewrite Rid, Nid.
      intros rep Hrep. apply in_or_app.
      apply in_app_or in Hrep as [Hrep | [<- | []]];
        [left; now apply Hown | right; now left].
    + rewrite Hs, Hr. intros r' Hr'.
      rewrite !votes_of_app, !votes_of_one.
      apply in_app_or in Hr' as [Hin | [<- | []]].
      * destruct (Hvotes r' Hin) as [Hsc Hfc].
        replace (new_id =? Strategy.id r') with false.
        { simpl. lia. }
        symmetry. apply Z.eqb_neq. intros E. apply Hfresh. rewrite E.
        now apply in_map.
      * rewrite Rid, Rsc, Rfc, Nid, Nsc, Nfc, Z.eqb_refl.
        rewrite !votes_of_foreign.
        -- destruct success; simpl; lia.
        -- intros rep Hrep E. apply Hfresh. rewrite <- E. now apply Hown.
        -- intros rep Hrep E. apply Hfresh. rewrite <- E. now apply Hown.
Qed.

Lemma upsert_strategy_store faults now new_id provider service args success latency
  fp cv st :
  fst (upsert_strategy faults now new_id provider service args success latency fp cv st)
  = st
  \/ fst (upsert_strategy faults now new_id provider service args success latency fp cv st)
     = committed now new_id provider service args success latency fp cv st.
Proof.
  rewrite upsert_strategy_cases.
  destruct (faults stmt_upsert); [now left|].
  destruct (faults stmt_set_status); [now left|].
  destruct (faults stmt_insert_report); [now left|].
  destruct (faults stmt_commit); [now left | now right].
Qed.

Lemma post_report_store faults now new_id body st :
  fst (post_report faults now new_id body st) = st
  \/ fst (post_report faults now new_id body st)
     = committed now new_id (ReportRequest.provider_id body)
         (ReportRequest.service_id body) (ReportRequest.zapret_args body)
         (ReportRequest.success body) (ReportRequest.latency_ms body)
         (ReportRequest.fingerprint body) (ReportRequest.client_version body) st.
Proof.
  unfold post_report.
  destruct (check_rate_limit now st (ReportRequest.fingerprint body));
    [| now left].
  cbn [negb].
  destruct (upsert_strategy_store faults now new_id (ReportRequest.provider_id body)
              (ReportRequest.service_id body) (ReportRequest.zapret_args body)
              (ReportRequest.success body) (ReportRequest.latency_ms body)
              (ReportRequest.fingerprint body) (ReportRequest.client_version body)
              st) as [E | E];
    destruct (upsert_strategy _ _ _ _ _ _ _ _ _ _ _) as [st' [[sid ns] | e]];
    cbn [fst] in *; auto.
Qed.

Lemma consistent_restatus (F : Strategy.t -> Strategy.t) (st : Store) :
  (forall r, F r = Strategy.set_status r (Strategy.status (F r))) ->
  consistent st ->
  consistent (mkStore (map F (strategies st)) (reports st)).
Proof.
  intros HF [Hids Hkeys Hown Hvotes].
  assert (Eids : map Strategy.id (map F (strategies st))
                 = map Strategy.id (strategies st)).
  { rewrite map_map. apply map_ext. intros r. now rewrite (HF r). }
  assert (Ekeys : map strategy_key (map F (strategies st))
                  = map strategy_key (strategies st)).
  { rewrite map_map. apply map_ext. intros r. now rewrite (HF r). }
  constructor; cbn [strategies reports].
  - now rewrite Eids.
  - now rewrite Ekeys.
  - now rewrite Eids.
  - intros r' Hr'. apply in_map_iff in Hr' as (r & <- & Hin).
    rewrite (HF r). exact (Hvotes r Hin).
Qed.

Lemma swept_stale_restatus now r :
  swept_stale now r = Strategy.set_status r (Strategy.status (swept_stale now r)).
Proof.
  unfold swept_stale. destruct (stale_where now r); [reflexivity|].
  now rewrite set_status_same.
Qed.

Lemma swept_restatus now r :
  swept now r = Strategy.set_status r (Strategy.status (swept now r)).
Proof.
  unfold swept, swept_degraded.
  destruct (degraded_where (swept_stale now r)).
  - now rewrite (swept_stale_restatus now r).
  - apply swept_stale_restatus.
Qed.

Lemma mark_stale_rows now rows :
  fst (mark_stale now rows) = map (swept_stale now) rows.
Proof. reflexivity. Qed.

Lemma run_cleanup_store now st :
  fst (run_cleanup now st) = mkStore (map (swept now) (strategies st)) (reports st).
Proof.
  destruct (run_cleanup_rows now st) as [H1 H2].
  destruct (fst (run_cleanup now st)) as [rows reps]. simpl in *. congruence.
Qed.

Lemma above_is_fresh (last new_id : Z) (rows : list Strategy.t) :
  (forall r, In r rows -> Strategy.id r <= last) -> last < new_id ->
  ~ In new_id (map Strategy.id rows).
Proof.
  intros Hle Hlt H. apply in_map_iff in H as (r & E & Hr).
  specialize (Hle r Hr). lia.
Qed.

Lemma committed_ids now new_id provider service args success latency fp cv st :
  NoDup (map Strategy.id (strategies st)) ->
  NoDup (map strategy_key (strategies st)) ->
  ~ In new_id (map Strategy.id (strategies st)) ->
  let st' := committed now new_id provider service args success latency fp cv st in
  map Strategy.id (strategies st') = map Strategy.id (strategies st)
  \/ map Strategy.id (strategies st')
     = map Strategy.id (strategies st) ++ [new_id].
Proof.
  intros Hids Hkeys Hfresh. cbv zeta.
  pose proof (committed_shape now new_id provider service args success latency
                fp cv st Hids Hkeys Hfresh) as H.
  cbv zeta in H.
  destruct (find _ _) as [old |]; destruct H as [-> _].
  - left. rewrite map_map. apply map_ext. intros r.
    destruct (same_key _ _ _ r); [| reflexivity].
    destruct (recomputed_fields (upsert_update now success latency r)) as [-> _].
    apply upsert_update_id.
  - right. rewrite map_app. cbn [map]. f_equal. f_equal.
    destruct (recomputed_fields
                (upsert_insert now new_id provider service args
                   (compute_strategy_hash args) success latency)) as [-> _].
    now destruct (upsert_insert_fields now new_id provider service args
                    (compute_strategy_hash args) success latency) as [-> _].
Qed.

(** The stores reached are in order, and no id is above the last value
    drawn from the sequence. *)
Lemma reachable_at_ordered (last : Z) (st : Store) :
  reachable_at last st ->
  consistent st /\ forall r, In r (strategies st) -> Strategy.id r <= last.
Proof.
  induction 1 as [| faults now new_id body last st _ [C Hle] Hlt
                  | now last st _ [C Hle] | now last st _ [C Hle]].
  - split; [constructor; simpl; try constructor; contradiction | intros r []].
  - pose proof (above_is_fresh last new_id (strategies st) Hle Hlt) as Hfresh.
    destruct (post_report_store faults now new_id body st) as [-> | ->].
    + split; [exact C|]. intros r Hr. specialize (Hle r Hr). lia.
    + split; [now apply consistent_committed|].
      intros r Hr. apply (in_map Strategy.id) in Hr.
      destruct (committed_ids now new_id (ReportRequest.provider_id body)
                  (ReportRequest.service_id body) (ReportRequest.zapret_args body)
                  (ReportRequest.success body) (ReportRequest.latency_ms body)
                  (ReportRequest.fingerprint body)
                  (ReportRequest.client_version body) st
                  (ids_distinct st C) (keys_distinct st C) Hfresh) as [E | E];
        cbv zeta in E; rewrite E in Hr.
      * apply in_map_iff in Hr as (r0 & <- & Hr0). specialize (Hle r0 Hr0). lia.
      * apply in_app_or in Hr as [Hr | [<- | []]]; [| lia].
        apply in_map_iff in Hr as (r0 & <- & Hr0). specialize (Hle r0 Hr0). lia.
  - rewrite run_cleanup_store. split.
    + apply consistent_restatus; [apply swept_restatus | exact C].
    + cbn [strategies]. intros r' Hr'.
      apply in_map_iff in Hr' as (r & <- & Hr). rewrite swept_restatus.
      cbn [Strategy.id Strategy.set_status]. now apply Hle.
  - rewrite mark_stale_rows. split.
    + apply consistent_restatus; [apply swept_stale_restatus | exact C].
    + cbn [strategies]. intros r' Hr'.
      apply in_map_iff in Hr' as (r & <- & Hr). rewrite swept_stale_restatus.
      cbn [Strategy.id Strategy.set_status]. now apply Hle.
Qed.

Lemma reachable_consistent (st : Store) : reachable st -> consistent st.
Proof. intros [last R]. apply (reachable_at_ordered last st R). Qed.

Lemma reachable_cleanup (now : timestamp) (st : Store) :
  reachable st -> reachable (fst (run_cleanup now st)).
Proof. intros [last R]. exists last. now apply reach_cleanup. Qed.

(* ================================================================= *)
(** ** Statuses in the stores the service reaches *)

Lemma votes_bound (id : Z) (log : list Report.t) :
  0 <= votes_of id true log
  /\ 0 <= votes_of id false log
  /\ votes_of id true log + votes_of id false log <= Z.of_nat (List.length log).
Proof.
  unfold votes_of. induction log as [| rep log IH]; cbn [filter List.length].
  - lia.
  - destruct (Report.strategy_id rep =? id), (Report.success rep);
      cbn [andb Bool.eqb List.length]; lia.
Qed.

Lemma consistent_counts (st : Store) (r : Strategy.t) :
  consistent st -> In r (strategies st) ->
  0 <= Strategy.success_count r
  /\ 0 <= Strategy.fail_count r
  /\ Strategy.success_count r + Strategy.fail_count r
     <= Z.of_nat (List.length (reports st)).
Proof.
  intros C Hr. destruct (votes_logged st C r Hr) as [-> ->].
  apply votes_bound.
Qed.

Lemma compute_status_not_degraded (s f : Z) : _compute_status s f <> degraded.
Proof.
  unfold _compute_status.
  destruct (s + f <? Config.MIN_VOTES_VERIFIED); [discriminate|].
  destruct (Float64.geb _ _); [discriminate|].
  destruct (Float64.ltb _ _); discriminate.
Qed.

Lemma degraded_where_current (r : Strategy.t) :
  0 <= Strategy.success_count r -> 0 <= Strategy.fail_count r ->
  Strategy.success_count r + Strategy.fail_count r < 2 ^ 51 ->
  Strategy.status r = stale
  \/ Strategy.status r
     = _compute_status (Strategy.success_count r) (Strategy.fail_count r) ->
  degraded_where r = false.
Proof.
  intros Hs Hf Hb Hst. unfold degraded_where. cbv zeta.
  set (s := Strategy.success_count r) in *.
  set (f := Strategy.fail_count r) in *.
  destruct (Config.MIN_VOTES_VERIFIED <=? s + f) eqn:E5; [| reflexivity].
  apply Z.leb_le in E5. change Config.MIN_VOTES_VERIFIED with 5 in E5.
  destruct (Float64.pg_lt _ _) eqn:Er; [| reflexivity].
  apply sql_rate_below_0_40 in Er; [| lia | lia].
  assert (Hstale : Strategy.status r = stale).
  { destruct Hst as [H | H]; [exact H|]. rewrite H.
    rewrite compute_status_exact by assumption.
    destruct (s + f <? 5) eqn:A; [apply Z.ltb_lt in A; lia|].
    destruct (3 * (s + f) <=? 5 * s) eqn:B; [apply Z.leb_le in B; lia|].
    destruct (5 * s <? 2 * (s + f)) eqn:D; [reflexivity|].
    apply Z.ltb_ge in D. lia. }
  rewrite Hstale. reflexivity.
Qed.

Lemma swept_stale_fields (now : timestamp) (r : Strategy.t) :
  Strategy.success_count (swept_stale now r) = Strategy.success_count r
  /\ Strategy.fail_count (swept_stale now r) = Strategy.fail_count r
  /\ (Strategy.status (swept_stale now r) = stale
      \/ swept_stale now r = r).
Proof.
  unfold swept_stale. destruct (stale_where now r); destruct r; simpl; auto.
Qed.

Lemma swept_stale_current (now : timestamp) (r : Strategy.t) :
  Strategy.status r = stale
  \/ Strategy.status r
     = _compute_status (Strategy.success_count r) (Strategy.fail_count r) ->
  Strategy.status (swept_stale now r) = stale
  \/ Strategy.status (swept_stale now r)
     = _compute_status (Strategy.success_count (swept_stale now r))
                       (Strategy.fail_count (swept_stale now r)).
Proof.
  intros H. destruct (swept_stale_fields now r) as (Es & Ef & [E | E]).
  - now left.
  - now rewrite E.
Qed.

Lemma committed_log (now : timestamp) (new_id : Z) (provider service : string)
  (args : list string) (success : bool) (latency : Float64.float)
  (fp cv : string) (st : Store) :
  consistent st ->
  exists rep,
    reports (committed now new_id provider service args success latency fp cv st)
    = reports st ++ [rep]
    /\ Report.fingerprint rep = fp
    /\ Report.reported_at rep = now
    /\ Report.success rep = success.
Proof.
  intros _.
  destruct (committed_row now new_id provider service args success latency fp cv st)
    as (_ & _ & E).
  cbv zeta in E. rewrite E. eexists. repeat split.
Qed.

Lemma committed_current (now : timestamp) (new_id : Z) (provider service : string)
  (args : list string) (success : bool) (latency : Float64.float)
  (fp cv : string) (st : Store) :
  consistent st -> ~ In new_id (map Strategy.id (strategies st)) ->
  statuses_current st ->
  statuses_current (committed now new_id provider service args success latency fp cv st).
Proof.
  intros C Hfresh Hcur.
  pose proof (committed_shape now new_id provider service args success latency fp cv st
                (ids_distinct st C) (keys_distinct st C) Hfresh) as H.
  cbv zeta in H.
  destruct (find _ _) as [old |]; destruct H as [Hs _];
    intros r' Hr'; rewrite Hs in Hr'.
  - apply in_map_iff in Hr' as (r & <- & Hin).
    destruct (same_key _ _ _ r); [| now apply Hcur].
    right. unfold recomputed. now destruct (upsert_update _ _ _ r).
  - apply in_app_or in Hr' as [Hin | [<- | []]]; [now apply Hcur|].
    right. unfold recomputed. now destruct (upsert_insert _ _ _ _ _ _ _ _).
Qed.

Lemma reachable_at_current (last : Z) (st : Store) :
  reachable_at last st ->
  Z.of_nat (List.length (reports st)) < 2 ^ 51 ->
  statuses_current st.
Proof.
  induction 1 as [| faults now new_id body last st R IH Hlt
                  | now last st R IH | now last st R IH];
    intros Hb.
  - intros r [].
  - destruct (reachable_at_ordered last st R) as [C Hle].
    pose proof (above_is_fresh last new_id (strategies st) Hle Hlt) as Hfresh.
    destruct (post_report_store faults now new_id body st) as [E | E];
      rewrite E in *; [now apply IH|].
    destruct (committed_log now new_id (ReportRequest.provider_id body)
                (ReportRequest.service_id body) (ReportRequest.zapret_args body)
                (ReportRequest.success body) (ReportRequest.latency_ms body)
                (ReportRequest.fingerprint body)
                (ReportRequest.client_version body) st C) as (rep & El & _).
    rewrite El, length_app in Hb. cbn [List.length] in Hb.
    apply committed_current; [exact C | exact Hfresh | apply IH; lia].
  - destruct (reachable_at_ordered last st R) as [C _].
    rewrite run_cleanup_store in *. cbn [strategies reports] in *.
    specialize (IH Hb).
    intros r' Hr'. apply in_map_iff in Hr' as (r & <- & Hin).
    destruct (consistent_counts st r C Hin) as (Hs & Hf & Ht).
    destruct (swept_stale_fields now r) as (Es & Ef & _).
    pose proof (swept_stale_current now r (IH r Hin)) as Hc.
    unfold swept, swept_degraded.
    rewrite degraded_where_current; [exact Hc | | | | exact Hc];
      rewrite ?Es, ?Ef; lia.
  - cbn [strategies reports] in *. specialize (IH Hb).
    intros r' Hr'. rewrite mark_stale_rows in Hr'.
    apply in_map_iff in Hr' as (r & <- & Hin).
    apply swept_stale_current, IH, Hin.
Qed.

Lemma reachable_current (st : Store) :
  reachable st ->
  Z.of_nat (List.length (reports st)) < 2 ^ 51 ->
  statuses_current st.
Proof. intros [last R]. now apply (reachable_at_current last). Qed.

Lemma reachable_not_degraded (st : Store) (r : Strategy.t) :
  reachable st ->
  Z.of_nat (List.length (reports st)) < 2 ^ 51 ->
  In r (strategies st) -> Strategy.status r <> degraded.
Proof.
  intros R Hb Hr. destruct (reachable_current st R Hb r Hr) as [E | E];
    rewrite E; [discriminate | apply compute_status_not_degraded].
Qed.

Lemma sweep_finds_no_degraded (now : timestamp) (st : Store) (r : Strategy.t) :
  reachable st ->
  Z.of_nat (List.length (reports st)) < 2 ^ 51 ->
  In r (map (swept_stale now) (strategies st)) ->
  degraded_where r = false.
Proof.
  intros R Hb Hr. apply in_map_iff in Hr as (r0 & <- & Hin).
  destruct (consistent_counts st r0 (reachable_consistent st R) Hin)
    as (Hs & Hf & Ht).
  destruct (swept_stale_fields now r0) as (Es & Ef & _).
  pose proof (swept_stale_current now r0 (reachable_current st R Hb r0 Hin))
    as Hc.
  apply degraded_where_current; [| | | exact Hc]; rewrite ?Es, ?Ef; lia.
Qed.

(** X8. In a store reached from the empty one by reports and sweeps (with
    fewer than 2^51 reports in the log) no strategy has the status
    ['degraded'], and the second statement of the sweep marks no row: the
    rows it looks for have already been made ['stale'] by the status
    function when their last report was recorded. *)
Theorem degraded_is_never_assigned (st : Store) :
  reachable st ->
  Z.of_nat (List.length (reports st)) < 2 ^ 51 ->
  (forall r, In r (strategies st) -> Strategy.status r <> degraded)
  /\ (forall now, snd (snd (run_cleanup now st)) = 0)
  /\ (forall now r, In r (strategies (fst (run_cleanup now st))) ->
                    Strategy.status r <> degraded).
Proof.
  intros R Hb. split; [| split].
  - intros r. now apply reachable_not_degraded.
  - intros now. unfold run_cleanup.
    destruct (mark_stale now (strategies st)) as [rows1 c1] eqn:E1.
    assert (Hrows : rows1 = map (swept_stale now) (strategies st))
      by (rewrite <- mark_stale_rows, E1; reflexivity).
    unfold mark_degraded. rewrite sql_update_status_none; [reflexivity|].
    intros r Hr. rewrite Hrows in Hr.
    now apply (sweep_finds_no_degraded now st).
  - intros now r. apply reachable_not_degraded.
    + now apply reachable_cleanup.
    + now rewrite (proj2 (run_cleanup_rows now st)).
Qed.

Lemma degraded_is_never_assigned_witness :
  let st :=
    fst (post_report no_fault 20 3 (sample_report "isp" false)
           (fst (post_report no_fault 10 1 (sample_report "isp" false)
                   (mkStore [] [])))) in
  List.length (strategies st) = 1%nat
  /\ (forall r, In r (strategies st) -> Strategy.status r <> degraded)
  /\ (forall now, snd (snd (run_cleanup now st)) = 0)
  /\ (forall now r, In r (strategies (fst (run_cleanup now st))) ->
                    Strategy.status r <> degraded).
Proof.
  cbv zeta. split; [vm_compute; reflexivity|].
  apply degraded_is_never_assigned.
  - exists 3. apply reach_report with (last := 1); [| lia].
  apply reach_report with (last := 0); [apply reach_empty | lia].
  - vm_compute. reflexivity.
Defined.

(* ================================================================= *)
(** ** Rows of the reachable stores *)

Lemma well_formed_set_status (r : Strategy.t) (s : Status) :
  well_formed r -> well_formed (Strategy.set_status r s).
Proof. now destruct r. Qed.

Lemma well_formed_update now success latency (r : Strategy.t) :
  well_formed r -> well_formed (upsert_update now success latency r).
Proof.
  intros (H1 & H2 & H3 & H4 & H5). unfold upsert_update, well_formed.
  destruct success; cbn [updated_on_success updated_on_failure
    Strategy.strategy_hash Strategy.zapret_args Strategy.success_count
    Strategy.fail_count Strategy.last_confirmed].
  - repeat split; try assumption; try lia; try discriminate.
  - repeat split; try assumption; try lia; apply H5.
Qed.

Lemma well_formed_insert now new_id provider service args success latency :
  well_formed (upsert_insert now new_id provider service args
                 (compute_strategy_hash args) success latency).
Proof.
  unfold upsert_insert, well_formed.
  destruct success; cbn [inserted_on_success inserted_on_failure
    Strategy.strategy_hash Strategy.zapret_args Strategy.success_count
    Strategy.fail_count Strategy.last_confirmed];
    repeat split; try lia; try discriminate; reflexivity.
Qed.

Lemma committed_well_formed now new_id provider service args success latency fp cv st :
  consistent st -> ~ In new_id (map Strategy.id (strategies st)) ->
  (forall r, In r (strategies st) -> well_formed r) ->
  forall r, In r (strategies (committed now new_id provider service args success
                                latency fp cv st)) ->
            well_formed r.
Proof.
  intros C Hfresh Hwf.
  pose proof (committed_shape now new_id provider service args success latency fp cv st
                (ids_distinct st C) (keys_distinct st C) Hfresh) as H.
  cbv zeta in H.
  destruct (find _ _) as [old |]; destruct H as [Hs _];
    intros r' Hr'; rewrite Hs in Hr'.
  - apply in_map_iff in Hr' as (r & <- & Hin).
    destruct (same_key _ _ _ r); [| now apply Hwf].
    apply well_formed_set_status, well_formed_update, Hwf, Hin.
  - apply in_app_or in Hr' as [Hin | [<- | []]]; [now apply Hwf|].
    apply well_formed_set_status, well_formed_insert.
Qed.

Lemma reachable_at_well_formed (last : Z) (st : Store) :
  reachable_at last st -> forall r, In r (strategies st) -> well_formed r.
Proof.
  induction 1 as [| faults now new_id body last st R IH Hlt
                  | now last st R IH | now last st R IH].
  - intros r [].
  - destruct (reachable_at_ordered last st R) as [C Hle].
    destruct (post_report_store faults now new_id body st) as [-> | ->];
      [exact IH|].
    apply committed_well_formed;
      [exact C | now apply (above_is_fresh last) | exact IH].
  - rewrite run_cleanup_store. cbn [strategies].
    intros r' Hr'. apply in_map_iff in Hr' as (r & <- & Hin).
    rewrite swept_restatus. apply well_formed_set_status, IH, Hin.
  - cbn [strategies]. rewrite mark_stale_rows.
    intros r' Hr'. apply in_map_iff in Hr' as (r & <- & Hin).
    rewrite swept_stale_restatus. apply well_formed_set_status, IH, Hin.
Qed.

Lemma reachable_well_formed (st : Store) :
  reachable st -> forall r, In r (strategies st) -> well_formed r.
Proof. intros [last R]. now apply (reachable_at_well_formed last). Qed.

(** X9. In every store reached from the empty one by reports and sweeps,
    two rows with the same provider, service and hash are one row, and so
    are two rows with the same id: a triple is never inserted twice,
    whatever statements failed on the way. *)
Theorem one_row_per_triple (st : Store) :
  reachable st ->
  (forall r1 r2, In r1 (strategies st) -> In r2 (strategies st) ->
     Strategy.provider_id r1 = Strategy.provider_id r2 ->
     Strategy.service_id r1 = Strategy.service_id r2 ->
     Strategy.strategy_hash r1 = Strategy.strategy_hash r2 ->
     r1 = r2)
  /\ (forall r1 r2, In r1 (strategies st) -> In r2 (strategies st) ->
        Strategy.id r1 = Strategy.id r2 -> r1 = r2)
  /\ NoDup (strategies st).
Proof.
  intros R. destruct (reachable_consistent st R) as [Hids Hkeys _ _].
  split; [| split].
  - intros r1 r2 H1 H2 Ep Es Eh.
    apply (NoDup_map_injective_on strategy_key (strategies st)); auto.
    unfold strategy_key. now rewrite Ep, Es, Eh.
  - intros r1 r2 H1 H2 E.
    now apply (NoDup_map_injective_on Strategy.id (strategies st)).
  - eapply NoDup_map_inv. exact Hids.
Qed.

Lemma one_row_per_triple_witness :
  let st :=
    fst (post_report no_fault 20 3 (sample_report "isp" true)
           (fst (post_report no_fault 10 1 (sample_report "isp" false)
                   (mkStore [] [])))) in
  List.length (reports st) = 2%nat /\ NoDup (strategies st).
Proof.
  cbv zeta. split; [vm_compute; reflexivity|].
  apply one_row_per_triple.
  exists 3. apply reach_report with (last := 1); [| lia].
  apply reach_report with (last := 0); [apply reach_empty | lia].
Defined.

(** X10. In every reachable store the two counters of a strategy are the
    numbers of its successful and failed reports in the log, and every
    report of the log belongs to a strategy of the table: no vote is
    counted without its report, and none is lost. *)
Theorem counters_match_log (st : Store) :
  reachable st ->
  (forall r, In r (strategies st) ->
     Strategy.success_count r = votes_of (Strategy.id r) true (reports st)
     /\ Strategy.fail_count r = votes_of (Strategy.id r) false (reports st))
  /\ (forall rep, In rep (reports st) ->
        exists r, In r (strategies st)
                  /\ Strategy.id r = Report.strategy_id rep)
  /\ (forall r, In r (strategies st) ->
        Strategy.success_count r + Strategy.fail_count r
        <= Z.of_nat (List.length (reports st))).
Proof.
  intros R. pose proof (reachable_consistent st R) as C.
  split; [| split].
  - exact (votes_logged st C).
  - intros rep Hrep. apply (reports_owned st C) in Hrep.
    apply in_map_iff in Hrep as (r & E & Hr). now exists r.
  - intros r Hr. now apply (consistent_counts st r C).
Qed.

Lemma counters_match_log_witness :
  let st :=
    fst (post_report no_fault 20 3 (sample_report "isp" true)
           (fst (post_report no_fault 10 1 (sample_report "isp" false)
                   (mkStore [] [])))) in
  map Strategy.success_count (strategies st) = [1]
  /\ forall r, In r (strategies st) ->
       Strategy.success_count r = votes_of (Strategy.id r) true (reports st)
       /\ Strategy.fail_count r = votes_of (Strategy.id r) false (reports st).
Proof.
  cbv zeta. split; [vm_compute; reflexivity|].
  apply counters_match_log.
  exists 3. apply reach_report with (last := 1); [| lia].
  apply reach_report with (last := 0); [apply reach_empty | lia].
Defined.

(** X11. Every row of a reachable store is as [upsert_strategy] writes
    rows: its hash is the fingerprint of the parameters stored with it,
    it has at least one vote, and [last_confirmed] is absent exactly when
    its success count is zero. *)
Theorem rows_are_well_formed (st : Store) (r : Strategy.t) :
  reachable st -> In r (strategies st) ->
  Strategy.strategy_hash r = compute_strategy_hash (Strategy.zapret_args r)
  /\ 0 <= Strategy.success_count r
  /\ 0 <= Strategy.fail_count r
  /\ 1 <= Strategy.success_count r + Strategy.fail_count r
  /\ (Strategy.last_confirmed r = None <-> Strategy.success_count r = 0).
Proof. intros R Hr. exact (reachable_well_formed st R r Hr). Qed.

Lemma rows_are_well_formed_witness :
  let st := fst (post_report no_fault 10 1 (sample_report "isp" false)
                   (mkStore [] [])) in
  exists r, In r (strategies st)
    /\ Strategy.success_count r = 0
    /\ Strategy.last_confirmed r = None.
Proof.
  cbv zeta.
  destruct (fst (post_report no_fault 10 1 (sample_report "isp" false)
                   (mkStore [] []))) as [rows log] eqn:E.
  assert (R : reachable (mkStore rows log))
    by (rewrite <- E; exists 1;
        apply reach_report with (last := 0); [apply reach_empty | lia]).
  destruct rows as [| r rows]; [vm_compute in E; discriminate|].
  exists r. split; [now left|].
  destruct (rows_are_well_formed _ r R (or_introl eq_refl))
    as (_ & _ & _ & _ & H).
  assert (H0 : Strategy.success_count r = 0).
  { vm_compute in E. injection E as E _ _. now rewrite <- E. }
  split; [exact H0 | now apply H].
Defined.

(* ================================================================= *)
(** ** What a report changes *)

Lemma variant_same_hash (a b : list string) :
  config_variant a b -> compute_strategy_hash a = compute_strategy_hash b.
Proof.
  intros V. unfold compute_strategy_hash.
  now rewrite (pre_digest_perm a b (config_variant_normalized a b V)).
Qed.

Lemma returned_id now new_id provider service args success latency st :
  fst (returned now new_id provider service args success latency st)
  = match find (same_key provider service (compute_strategy_hash args))
            (strategies st) with
    | Some old => Strategy.id old
    | None => new_id
    end.
Proof.
  unfold returned. cbv zeta. cbn [fst].
  destruct (run_upsert_spec now new_id provider service args
              (compute_strategy_hash args) success latency st) as (_ & _ & H).
  destruct (find _ _) as [old |].
  - destruct H as [_ ->]. now destruct success.
  - destruct H as [_ ->]. now destruct success.
Qed.

Lemma post_report_cases faults now new_id body st :
  post_report faults now new_id body st =
    if negb (check_rate_limit now st (ReportRequest.fingerprint body))
    then (st, TooManyRequests 3600)
    else if faults stmt_upsert
         then (st, InternalError (PersistenceFailure stmt_upsert))
    else if faults stmt_set_status
         then (st, InternalError (PersistenceFailure stmt_set_status))
    else if faults stmt_insert_report
         then (st, InternalError (PersistenceFailure stmt_insert_report))
    else if faults stmt_commit
         then (st, InternalError (PersistenceFailure stmt_commit))
    else
      (committed now new_id (ReportRequest.provider_id body)
         (ReportRequest.service_id body) (ReportRequest.zapret_args body)
         (ReportRequest.success body) (ReportRequest.latency_ms body)
         (ReportRequest.fingerprint body) (ReportRequest.client_version body) st,
       Accepted
         (fst (returned now new_id (ReportRequest.provider_id body)
                 (ReportRequest.service_id body) (ReportRequest.zapret_args body)
                 (ReportRequest.success body) (ReportRequest.latency_ms body) st))
         (snd (returned now new_id (ReportRequest.provider_id body)
                 (ReportRequest.service_id body) (ReportRequest.zapret_args body)
                 (ReportRequest.success body) (ReportRequest.latency_ms body) st))).
Proof.
  unfold post_report.
  destruct (negb (check_rate_limit _ _ _)); [reflexivity|].
  rewrite upsert_strategy_cases.
  destruct (faults stmt_upsert); [reflexivity|].
  destruct (faults stmt_set_status); [reflexivity|].
  destruct (faults stmt_insert_report); [reflexivity|].
  destruct (faults stmt_commit); [reflexivity|].
  now destruct (returned _ _ _ _ _ _ _ _).
Qed.

(** X12. A report touches one row only.  On a table with distinct ids and
    keys, and with a value drawn from the sequence that is the id of no
    row, whatever the outcome of [post_report]: every row of another
    triple is in the table afterwards exactly as it was, nothing of
    another triple appears, the ids already given stay where they are
    with at most one id after them, which is the value drawn, and the
    log is the old log with at most one report added at its end. *)
Theorem report_touches_one_row (faults : Statement -> bool) (now : timestamp)
  (new_id : Z)
  (body : ReportRequest.t) (st : Store) :
  NoDup (map Strategy.id (strategies st)) ->
  NoDup (map strategy_key (strategies st)) ->
  ~ In new_id (map Strategy.id (strategies st)) ->
  let key := same_key (ReportRequest.provider_id body)
               (ReportRequest.service_id body)
               (compute_strategy_hash (ReportRequest.zapret_args body)) in
  let st' := fst (post_report faults now new_id body st) in
  (forall r, key r = false -> (In r (strategies st') <-> In r (strategies st)))
  /\ (map Strategy.id (strategies st') = map Strategy.id (strategies st)
      \/ map Strategy.id (strategies st')
         = map Strategy.id (strategies st) ++ [new_id])
  /\ (reports st' = reports st \/ exists rep, reports st' = reports st ++ [rep]).
Proof.
  intros Hids Hkeys Hfresh key st'.
  destruct (post_report_store faults now new_id body st) as [E | E];
    subst st'; rewrite E.
  { split; [intros r _; reflexivity | split; now left]. }
  pose proof (committed_shape now new_id (ReportRequest.provider_id body)
                (ReportRequest.service_id body) (ReportRequest.zapret_args body)
                (ReportRequest.success body) (ReportRequest.latency_ms body)
                (ReportRequest.fingerprint body)
                (ReportRequest.client_version body) st Hids Hkeys Hfresh) as H.
  cbv zeta in H. fold key in H.
  destruct (find key (strategies st)) as [old |] eqn:F;
    destruct H as [Hs Hr]; rewrite Hs, Hr.
  - split; [| split; [left | right; eexists; reflexivity]].
    + intros r Hk. rewrite in_map_iff. split.
      * intros (r0 & E0 & Hin). destruct (key r0) eqn:K0; [| now subst].
        exfalso. subst r. unfold recomputed in Hk.
        assert (Kk : key (upsert_update now (ReportRequest.success body)
                            (ReportRequest.latency_ms body) r0) = true).
        { apply same_key_iff. rewrite upsert_update_key.
          now apply same_key_iff. }
        apply same_key_iff in Kk.
        assert (key (Strategy.set_status
                       (upsert_update now (ReportRequest.success body)
                          (ReportRequest.latency_ms body) r0)
                       (_compute_status
                          (Strategy.success_count
                             (upsert_update now (ReportRequest.success body)
                                (ReportRequest.latency_ms body) r0))
                          (Strategy.fail_count
                             (upsert_update now (ReportRequest.success body)
                                (ReportRequest.latency_ms body) r0)))) = true)
          by (apply same_key_iff; exact Kk).
        congruence.
      * intros Hin. exists r. now rewrite Hk.
    + rewrite map_map. apply map_ext. intros r.
      destruct (key r); [| reflexivity].
      destruct (recomputed_fields
                  (upsert_update now (ReportRequest.success body)
                     (ReportRequest.latency_ms body) r)) as [-> _].
      apply upsert_update_id.
  - split; [| split; [right | right; eexists; reflexivity]].
    + intros r Hk. rewrite in_app_iff. split; [| now left].
      intros [Hin | [<- | []]]; [exact Hin|]. exfalso.
      destruct (upsert_insert_fields now new_id
                  (ReportRequest.provider_id body)
                  (ReportRequest.service_id body)
                  (ReportRequest.zapret_args body)
                  (compute_strategy_hash (ReportRequest.zapret_args body))
                  (ReportRequest.success body) (ReportRequest.latency_ms body))
        as (_ & Nk & _).
      destruct (recomputed_fields
                  (upsert_insert now new_id
                     (ReportRequest.provider_id body)
                     (ReportRequest.service_id body)
                     (ReportRequest.zapret_args body)
                     (compute_strategy_hash (ReportRequest.zapret_args body))
                     (ReportRequest.success body)
                     (ReportRequest.latency_ms body))) as (_ & Rk & _).
      rewrite Nk in Rk. apply same_key_iff in Rk. fold key in Rk. congruence.
    + rewrite map_app. cbn [map]. f_equal. f_equal.
      destruct (recomputed_fields
                  (upsert_insert now new_id
                     (ReportRequest.provider_id body)
                     (ReportRequest.service_id body)
                     (ReportRequest.zapret_args body)
                     (compute_strategy_hash (ReportRequest.zapret_args body))
                     (ReportRequest.success body)
                     (ReportRequest.latency_ms body))) as [-> _].
      now destruct (upsert_insert_fields now new_id
                  (ReportRequest.provider_id body)
                  (ReportRequest.service_id body)
                  (ReportRequest.zapret_args body)
                  (compute_strategy_hash (ReportRequest.zapret_args body))
                  (ReportRequest.success body) (ReportRequest.latency_ms body))
        as [-> _].
Qed.

Lemma report_touches_one_row_witness :
  let st := fst (post_report no_fault 10 1 (sample_report "isp" false)
                   (mkStore [] [])) in
  let st' := fst (post_report no_fault 20 3 (sample_report "other" true) st) in
  List.length (strategies st') = 2%nat
  /\ forall r, same_key "other" "video"
                 (compute_strategy_hash
                    (ReportRequest.zapret_args (sample_report "other" true))) r
               = false ->
               (In r (strategies st') <-> In r (strategies st)).
Proof.
  cbv zeta. split; [vm_compute; reflexivity|].
  refine (proj1 (report_touches_one_row no_fault 20 3
                   (sample_report "other" true)
                   (fst (post_report no_fault 10 1 (sample_report "isp" false)
                           (mkStore [] []))) _ _ _)).
  - vm_compute. repeat constructor. intros [].
  - vm_compute. repeat constructor. intros [].
  - vm_compute. intros [H | []]. discriminate.
Defined.

(** X13. The three outcomes of [post_report].  A 429 carries Retry-After
    3600 and is given exactly when the rate limit refuses; a 500 means a
    statement failed after the limit allowed the report; in both cases
    the store is the store before the call, so a refused or failed report
    does not count towards the limit.  An accepted report is the last of
    the log, with the fingerprint, outcome and time of the request and
    the returned id; the row of the triple has that id and the returned
    status, which is the status of its counts whatever its status was
    before. *)
Theorem post_report_outcomes (faults : Statement -> bool) (now : timestamp)
  (new_id : Z)
  (body : ReportRequest.t) (st : Store) :
  let fp := ReportRequest.fingerprint body in
  let key := same_key (ReportRequest.provider_id body)
               (ReportRequest.service_id body)
               (compute_strategy_hash (ReportRequest.zapret_args body)) in
  let st' := fst (post_report faults now new_id body st) in
  match snd (post_report faults now new_id body st) with
  | TooManyRequests retry_after =>
      retry_after = 3600 /\ check_rate_limit now st fp = false /\ st' = st
  | InternalError (PersistenceFailure s) =>
      faults s = true /\ check_rate_limit now st fp = true /\ st' = st
  | Accepted strategy_id strategy_status =>
      check_rate_limit now st fp = true
      /\ (forall s, faults s = false)
      /\ reports st'
         = reports st
           ++ [Report.mk strategy_id fp (ReportRequest.success body)
                 (ReportRequest.latency_ms body)
                 (ReportRequest.client_version body) now]
      /\ exists row,
           find key (strategies st') = Some row
           /\ Strategy.id row = strategy_id
           /\ Strategy.status row = strategy_status
           /\ strategy_status
              = _compute_status (Strategy.success_count row)
                                (Strategy.fail_count row)
  end.
Proof.
  cbv zeta. rewrite post_report_cases.
  destruct (check_rate_limit now st (ReportRequest.fingerprint body)) eqn:L;
    cbn [negb fst snd]; [| auto].
  destruct (faults stmt_upsert) eqn:F1; cbn [fst snd]; [auto|].
  destruct (faults stmt_set_status) eqn:F2; cbn [fst snd]; [auto|].
  destruct (faults stmt_insert_report) eqn:F3; cbn [fst snd]; [auto|].
  destruct (faults stmt_commit) eqn:F4; cbn [fst snd]; [auto|].
  split; [reflexivity|]. split; [now intros []|].
  destruct (committed_row now new_id (ReportRequest.provider_id body)
              (ReportRequest.service_id body) (ReportRequest.zapret_args body)
              (ReportRequest.success body) (ReportRequest.latency_ms body)
              (ReportRequest.fingerprint body)
              (ReportRequest.client_version body) st) as (Hf & _ & Hr).
  cbv zeta in Hf, Hr. split; [exact Hr|].
  eexists. split; [exact Hf|].
  unfold returned. cbv zeta. cbn [fst snd].
  split; [| split]; now destruct (snd (run_upsert _ _ _ _ _ _ _ _ _)).
Qed.

(** X14. Two spellings of one configuration vote on one row.  When a
    report for a provider and service has been accepted, an accepted
    report for the same provider and service whose parameters are the
    same configuration written differently (order, casing, surrounding
    whitespace, blank entries) gets the same strategy id and adds no
    row. *)
Theorem variants_vote_on_one_row (now1 now2 : timestamp) (new_id1 new_id2 : Z)
  (body1 body2 : ReportRequest.t) (st st1 st2 : Store)
  (id1 id2 : Z) (status1 status2 : Status) :
  ReportRequest.provider_id body1 = ReportRequest.provider_id body2 ->
  ReportRequest.service_id body1 = ReportRequest.service_id body2 ->
  config_variant (ReportRequest.zapret_args body1)
                 (ReportRequest.zapret_args body2) ->
  post_report no_fault now1 new_id1 body1 st = (st1, Accepted id1 status1) ->
  post_report no_fault now2 new_id2 body2 st1 = (st2, Accepted id2 status2) ->
  id2 = id1
  /\ List.length (strategies st2) = List.length (strategies st1).
Proof.
  intros Ep Es V E1 E2.
  apply variant_same_hash in V.
  rewrite post_report_cases in E1, E2. cbn [no_fault] in E1, E2.
  destruct (negb (check_rate_limit now1 st _)); [discriminate|].
  destruct (negb (check_rate_limit now2 st1 _)); [discriminate|].
  pose proof (f_equal (fun x => match snd x with
                               | Accepted i _ => i
                               | _ => 0
                               end) E1) as Hid1.
  pose proof (f_equal (fun x => match snd x with
                               | Accepted i _ => i
                               | _ => 0
                               end) E2) as Hid2.
  cbn [snd] in Hid1, Hid2.
  apply (f_equal fst) in E1, E2. cbn [fst] in E1, E2.
  destruct (committed_row now1 new_id1 (ReportRequest.provider_id body1)
              (ReportRequest.service_id body1) (ReportRequest.zapret_args body1)
              (ReportRequest.success body1) (ReportRequest.latency_ms body1)
              (ReportRequest.fingerprint body1)
              (ReportRequest.client_version body1) st) as (Hf & _ & _).
  cbv zeta in Hf. rewrite E1 in Hf.
  set (row1 := snd (run_upsert now1 new_id1 (ReportRequest.provider_id body1)
                      (ReportRequest.service_id body1)
                      (ReportRequest.zapret_args body1)
                      (compute_strategy_hash (ReportRequest.zapret_args body1))
                      (ReportRequest.success body1)
                      (ReportRequest.latency_ms body1) st)) in *.
  assert (Hrow : id1 = Strategy.id row1) by (rewrite <- Hid1; reflexivity).
  rewrite Ep, Es, V in Hf.
  split.
  - rewrite <- Hid2, returned_id, Hf, Hrow. now destruct row1.
  - rewrite <- E2.
    destruct (committed_row now2 new_id2 (ReportRequest.provider_id body2)
                (ReportRequest.service_id body2) (ReportRequest.zapret_args body2)
                (ReportRequest.success body2) (ReportRequest.latency_ms body2)
                (ReportRequest.fingerprint body2)
                (ReportRequest.client_version body2) st1) as (_ & -> & _).
    destruct (run_upsert_spec now2 new_id2 (ReportRequest.provider_id body2)
                (ReportRequest.service_id body2) (ReportRequest.zapret_args body2)
                (compute_strategy_hash (ReportRequest.zapret_args body2))
                (ReportRequest.success body2) (ReportRequest.latency_ms body2)
                st1) as (_ & _ & H).
    rewrite Hf in H. now destruct H.
Qed.

Lemma variants_vote_on_one_row_witness :
  exists st1 st2 id1 status1 status2,
    post_report no_fault 10 1 (sample_report "isp" false) (mkStore [] [])
    = (st1, Accepted id1 status1)
    /\ post_report no_fault 20 3 sample_variant st1 = (st2, Accepted id1 status2)
    /\ List.length (strategies st2) = List.length (strategies st1).
Proof.
  destruct (post_report no_fault 10 1 (sample_report "isp" false) (mkStore [] []))
    as [st1 a1] eqn:E1.
  destruct a1 as [id1 status1 | n | e];
    [| vm_compute in E1; discriminate | vm_compute in E1; discriminate].
  destruct (post_report no_fault 20 3 sample_variant st1) as [st2 a2] eqn:E2.
  destruct a2 as [id2 status2 | n | e];
    [| injection E1 as <- _ _; vm_compute in E2; discriminate
     | injection E1 as <- _ _; vm_compute in E2; discriminate].
  assert (V : config_variant
                (ReportRequest.zapret_args (sample_report "isp" false))
                (ReportRequest.zapret_args sample_variant)).
  { cbn [sample_report sample_variant ReportRequest.zapret_args].
    apply variant_trans with (l' := [" --TTL=3 "; "--dpi-desync=fake"]);
      [apply variant_perm, perm_swap|].
    apply variant_trans with (l' := [" --ttl=3 "; "--DPI-Desync=fake"]).
    - apply variant_arg; [apply variant_case; reflexivity|].
      apply variant_arg; [apply variant_case; reflexivity | apply variant_nil].
    - apply variant_trans
        with (l' := ["  "; " --ttl=3 "; "--DPI-Desync=fake"]);
        [| apply variant_perm, perm_swap].
      apply variant_blank; [reflexivity|].
      apply variant_perm. reflexivity. }
  destruct (variants_vote_on_one_row 10 20 1 3 (sample_report "isp" false)
              sample_variant (mkStore [] []) st1 st2 id1 id2 status1 status2
              eq_refl eq_refl V E1 E2) as [-> Hlen].
  exists st1, st2, id1, status1, status2. auto.
Defined.

(* ================================================================= *)
(** ** The rate limit over time *)

Lemma filter_length_le {A : Type} (p q : A -> bool) (l : list A) :
  (forall x, In x l -> p x = true -> q x = true) ->
  (List.length (filter p l) <= List.length (filter q l))%nat.
Proof.
  induction l as [| a l IH]; intros H; cbn [filter]; [lia|].
  assert (IH' : (List.length (filter p l) <= List.length (filter q l))%nat)
    by (apply IH; intros x Hx; apply H; now right).
  destruct (p a) eqn:Pa.
  - rewrite (H a (or_introl eq_refl) Pa). cbn [List.length]. lia.
  - destruct (q a); cbn [List.length]; lia.
Qed.

Lemma count_recent_later (now t : timestamp) (fp : string) (log : list Report.t) :
  now <= t ->
  count_recent_reports t fp log <= count_recent_reports now fp log.
Proof.
  intros Ht. unfold count_recent_reports. apply inj_le.
  apply filter_length_le. intros r _. unfold in_rate_window.
  rewrite !andb_true_iff, !Z.ltb_lt. intros [E H]. split; [exact E | lia].
Qed.

Lemma count_recent_foreign (t : timestamp) (fp : string) (more : list Report.t) :
  (forall rep, In rep more -> Report.fingerprint rep <> fp) ->
  count_recent_reports t fp more = 0.
Proof.
  intros H. apply count_recent_none. intros r Hr E. now apply H in Hr.
Qed.

(** X15. Waiting never closes the limit.  If [check_rate_limit] allows a
    fingerprint at some time, it allows it at every later time too, as
    long as the reports added to the log in between come from other
    fingerprints. *)
Theorem rate_limit_only_relaxes (now t : timestamp) (st st2 : Store)
  (fp : string) (more : list Report.t) :
  now <= t ->
  reports st2 = reports st ++ more ->
  (forall rep, In rep more -> Report.fingerprint rep <> fp) ->
  check_rate_limit now st fp = true ->
  check_rate_limit t st2 fp = true.
Proof.
  intros Ht E Hmore. unfold check_rate_limit. rewrite !Z.ltb_lt, E.
  rewrite count_recent_app, (count_recent_foreign t fp more Hmore).
  pose proof (count_recent_later now t fp (reports st) Ht). lia.
Qed.

Lemma rate_limit_only_relaxes_witness :
  check_rate_limit 50 (mkStore [] (firstn 9 busy_log)) "0123456789abcdef" = true
  /\ check_rate_limit 60
       (mkStore []
          (firstn 9 busy_log
           ++ [Report.mk 2 "another-device00" false (Float64.of_Z 0) "1.0" 55]))
       "0123456789abcdef" = true.
Proof.
  assert (H : check_rate_limit 50 (mkStore [] (firstn 9 busy_log))
                "0123456789abcdef" = true) by (vm_compute; reflexivity).
  split; [exact H|].
  apply (rate_limit_only_relaxes 50 60 (mkStore [] (firstn 9 busy_log)) _
           "0123456789abcdef"
           [Report.mk 2 "another-device00" false (Float64.of_Z 0) "1.0" 55]).
  - lia.
  - reflexivity.
  - intros rep [<- | []]. cbn [Report.fingerprint]. discriminate.
  - exact H.
Defined.

(** X16. The Retry-After of a 429 is long enough.  When [post_report]
    refuses a report with 429 at a time when no report of the
    fingerprint is dated later than now, then from [retry_after] seconds later on the
    limit allows the fingerprint again and the same request is accepted,
    whatever other fingerprints have reported meanwhile. *)
Theorem retry_after_is_enough (faults : Statement -> bool) (now t : timestamp)
  (new_id next_id : Z) (body : ReportRequest.t) (st st2 : Store) (retry_after : Z)
  (more : list Report.t) :
  snd (post_report faults now new_id body st) = TooManyRequests retry_after ->
  (forall rep, In rep (reports st) ->
     Report.fingerprint rep = ReportRequest.fingerprint body ->
     Report.reported_at rep <= now) ->
  now + retry_after * 1000000 <= t ->
  reports st2 = reports st ++ more ->
  (forall rep, In rep more ->
     Report.fingerprint rep <> ReportRequest.fingerprint body) ->
  check_rate_limit t st2 (ReportRequest.fingerprint body) = true
  /\ accepted (snd (post_report no_fault t next_id body st2)) = true.
Proof.
  intros E Hpast Ht Elog Hmore.
  assert (En : retry_after = 3600).
  { rewrite post_report_cases in E.
    destruct (negb (check_rate_limit _ _ _)); [now injection E|].
    destruct (faults stmt_upsert); [discriminate|].
    destruct (faults stmt_set_status); [discriminate|].
    destruct (faults stmt_insert_report); [discriminate|].
    destruct (faults stmt_commit); discriminate. }
  subst retry_after.
  assert (L : check_rate_limit t st2 (ReportRequest.fingerprint body) = true).
  { unfold check_rate_limit. rewrite Elog, count_recent_app.
    rewrite (count_recent_foreign t _ more Hmore).
    rewrite count_recent_none; [reflexivity|].
    intros r Hr Efp. specialize (Hpast r Hr Efp). unfold one_hour. lia. }
  split; [exact L|].
  rewrite post_report_cases, L. reflexivity.
Qed.

Lemma retry_after_is_enough_witness :
  snd (post_report no_fault 10 1 (sample_report "isp" true) (mkStore [] busy_log))
  = TooManyRequests 3600
  /\ accepted
       (snd (post_report no_fault (10 + 3600 * 1000000) 3
               (sample_report "isp" true) (mkStore [] busy_log))) = true.
Proof.
  assert (E : snd (post_report no_fault 10 1 (sample_report "isp" true)
                     (mkStore [] busy_log)) = TooManyRequests 3600)
    by (vm_compute; reflexivity).
  split; [exact E|].
  refine (proj2 (retry_after_is_enough no_fault 10 (10 + 3600 * 1000000) 1 3
                   (sample_report "isp" true) (mkStore [] busy_log)
                   (mkStore [] busy_log) 3600 [] E _ _ _ _)).
  - intros rep Hrep _. apply repeat_spec in Hrep. subst rep.
    cbn [Report.reported_at]. lia.
  - lia.
  - cbn [reports]. now rewrite app_nil_r.
  - intros rep [].
Defined.

(* ================================================================= *)
(** ** The primary query returns the best rows *)

Lemma firstn_sorted_top {A : Type} (R : A -> A -> Prop) (n : nat)
  (l : list A) (x : A) :
  StronglySorted R l -> In x l ->
  In x (firstn n l)
  \/ (List.length (firstn n l) = n /\ forall y, In y (firstn n l) -> R y x).
Proof.
  revert l. induction n as [| n IH]; intros l Hs Hx.
  - right. split; [reflexivity | intros y []].
  - destruct l as [| a l]; [contradiction|].
    apply StronglySorted_inv in Hs as [Hs Ha].
    destruct Hx as [-> | Hx]; [left; now left|].
    destruct (IH l Hs Hx) as [H | [Hlen H]]; [left; now right|].
    right. cbn [firstn List.length]. split; [now rewrite Hlen|].
    intros y [<- | Hy]; [| now apply H].
    rewrite Forall_forall in Ha. now apply Ha.
Qed.

Lemma order_leb_ranks (a b : Row.t) :
  order_leb a b = true -> ranks_before a b.
Proof.
  unfold order_leb, ranks_before.
  destruct (Float64.pg_cmp (Row.success_rate a) (Row.success_rate b));
    [| discriminate | now left].
  intros H. right. split; [reflexivity|]. intros ta tb Ea Eb.
  rewrite Ea, Eb in H. cbn [last_confirmed_desc] in H. now apply Z.leb_le.
Qed.

Lemma primary_query_length (tie : Row.t -> Z) (st : Store)
  (provider service : string) :
  List.length (primary_query tie st provider service)
  = Nat.min 5 (List.length (filter (primary_where provider service)
                              (strategies st))).
Proof.
  unfold primary_query, limit, order_by_rate.
  change (Z.to_nat Config.MAX_STRATEGIES_RESPONSE) with 5%nat.
  rewrite length_firstn.
  rewrite <- (Permutation_length (insertion_sort_perm (order_leb_tie tie) _)).
  now rewrite length_map.
Qed.

(** X17. The primary query leaves out no better row.  Every strategy of
    the provider and service with status verified or unconfirmed is
    either among the rows returned, or five rows are returned and each of
    them ranks before it (higher rate, or equal rate and a [last_confirmed]
    not earlier); the number of rows returned is the number of such
    strategies, capped at five. *)
Theorem primary_query_takes_the_best (tie : Row.t -> Z) (st : Store)
  (provider service : string) :
  let eligible := filter (primary_where provider service) (strategies st) in
  let result := primary_query tie st provider service in
  List.length result = Nat.min 5 (List.length eligible)
  /\ forall r, In r eligible ->
       In (select_row r) result
       \/ (List.length result = 5%nat
           /\ forall row, In row result -> ranks_before row (select_row r)).
Proof.
  cbv zeta. split; [apply primary_query_length|].
  unfold primary_query, limit, order_by_rate.
  change (Z.to_nat Config.MAX_STRATEGIES_RESPONSE) with 5%nat.
  set (rows := map select_row (filter (primary_where provider service)
                                 (strategies st))).
  intros r Hr.
    assert (Hin : In (select_row r) (insertion_sort (order_leb_tie tie) rows)).
    { apply (Permutation_in _ (insertion_sort_perm (order_leb_tie tie) rows)).
      unfold rows. now apply in_map. }
    apply firstn_sorted_top; [| exact Hin].
    apply StronglySorted_weaken
      with (R := fun a b => order_leb_tie tie a b = true);
      [intros a b Hab; now apply order_leb_ranks, (order_leb_tie_leb tie)|].
    apply insertion_sort_strongly;
      [apply order_leb_tie_total | apply order_leb_tie_trans].
Qed.

(* ================================================================= *)
(** ** Rows of other services *)

Lemma filter_under_filter {A : Type} (f g : A -> bool) (l : list A) :
  (forall x, f x = true -> g x = true) ->
  filter f (filter g l) = filter f l.
Proof.
  intros H. induction l as [| a l IH]; cbn [filter]; [reflexivity|].
  destruct (g a) eqn:G; cbn [filter].
  - now rewrite IH.
  - destruct (f a) eqn:F; [| exact IH].
    apply H in F. congruence.
Qed.

(** X18. [get_strategies] reads the strategies of one service only.
    Whatever order the engine gives to level rows, the result is the
    result on the store with every strategy of another service removed
    and the report log emptied; so the lists that the engine can return
    on the two stores are the same lists, and a service with no strategy
    gets the empty list. *)
Theorem get_strategies_reads_one_service (st : Store)
  (provider service : string) :
  let of_service := fun r => String.eqb (Strategy.service_id r) service in
  let st1 := mkStore (filter of_service (strategies st)) [] in
  (forall tie, get_strategies tie st provider service
               = get_strategies tie st1 provider service)
  /\ (forall answer,
        (exists tie, get_strategies tie st provider service = answer)
        <-> (exists tie, get_strategies tie st1 provider service = answer))
  /\ (filter of_service (strategies st) = [] ->
      forall tie, get_strategies tie st provider service = []).
Proof.
  cbv zeta.
  set (of_service := fun r => String.eqb (Strategy.service_id r) service).
  assert (P : forall rows,
             filter (primary_where provider service) (filter of_service rows)
             = filter (primary_where provider service) rows).
  { intros rows. apply filter_under_filter. intros r.
    unfold primary_where, of_service. rewrite !andb_true_iff. tauto. }
  assert (F : forall rows,
             filter (fallback_where provider service) (filter of_service rows)
             = filter (fallback_where provider service) rows).
  { intros rows. apply filter_under_filter. intros r.
    unfold fallback_where, of_service. rewrite !andb_true_iff. tauto. }
  assert (E : forall tie,
             get_strategies tie st provider service
             = get_strategies tie
                 (mkStore (filter of_service (strategies st)) [])
                 provider service).
  { intros tie. unfold get_strategies, primary_query, fallback_query.
    cbn [strategies]. now rewrite P, F. }
  split; [exact E|]. split.
  - intros answer. split; intros [tie H]; exists tie;
      [now rewrite <- E | now rewrite E].
  - intros H tie. rewrite E, H. reflexivity.
Qed.

(* ================================================================= *)
(** ** Sweeps at successive times *)

Lemma set_status_twice (r : Strategy.t) (s s' : Status) :
  Strategy.set_status (Strategy.set_status r s) s' = Strategy.set_status r s'.
Proof. reflexivity. Qed.

Lemma swept_as_status (now : timestamp) (r : Strategy.t) :
  swept now r
  = Strategy.set_status r
      (sweep_status (aged now r) (rate_low r) (Strategy.status r)).
Proof.
  unfold swept, swept_degraded, swept_stale.
  change (stale_where now r)
    with (aged now r && negb (Status_eqb (Strategy.status r) stale)).
  unfold sweep_status.
  destruct (aged now r && negb (Status_eqb (Strategy.status r) stale)).
  - change (degraded_where (Strategy.set_status r stale))
      with (rate_low r && negb (Status_eqb stale stale || Status_eqb stale degraded)).
    cbn [Status_eqb orb negb]. now rewrite andb_false_r.
  - change (degraded_where r)
      with (rate_low r
            && negb (Status_eqb (Strategy.status r) stale
                     || Status_eqb (Strategy.status r) degraded)).
    destruct (rate_low r && _); [reflexivity | apply eq_sym, set_status_same].
Qed.

Lemma sweep_status_later (a1 a2 d : bool) (s : Status) :
  (a1 = true -> a2 = true) ->
  sweep_status a2 d (sweep_status a1 d s) = sweep_status a2 d s.
Proof.
  intros H. destruct a1, a2, d, s; try reflexivity;
    specialize (H eq_refl); discriminate.
Qed.

Lemma aged_later (now1 now2 : timestamp) (r : Strategy.t) :
  now1 <= now2 -> aged now1 r = true -> aged now2 r = true.
Proof.
  unfold aged. destruct (Strategy.last_confirmed r); [| discriminate].
  rewrite !Z.ltb_lt. lia.
Qed.

Lemma swept_later (now1 now2 : timestamp) (r : Strategy.t) :
  now1 <= now2 -> swept now2 (swept now1 r) = swept now2 r.
Proof.
  intros Ht. rewrite (swept_as_status now1 r).
  rewrite (swept_as_status now2 (Strategy.set_status r _)).
  rewrite set_status_twice, (swept_as_status now2 r).
  f_equal.
  change (aged now2 (Strategy.set_status r
                       (sweep_status (aged now1 r) (rate_low r)
                          (Strategy.status r))))
    with (aged now2 r).
  change (rate_low (Strategy.set_status r
                      (sweep_status (aged now1 r) (rate_low r)
                         (Strategy.status r))))
    with (rate_low r).
  cbn [Strategy.status Strategy.set_status].
  apply sweep_status_later. now apply aged_later.
Qed.

(** X19. A later sweep makes up for an earlier one.  Sweeping at a time
    and then at a later time leaves the store that the later sweep alone
    leaves: running the sweep more often, or missing a run, changes no
    status in the end. *)
Theorem sweeps_compose (now1 now2 : timestamp) (st : Store) :
  now1 <= now2 ->
  fst (run_cleanup now2 (fst (run_cleanup now1 st))) = fst (run_cleanup now2 st).
Proof.
  intros Ht. rewrite !run_cleanup_store. cbn [strategies reports].
  rewrite map_map. f_equal. apply map_ext. intros r. now apply swept_later.
Qed.

Lemma sweeps_compose_witness :
  let st :=
    mkStore
      [Strategy.mk 1 "isp" "video" ["--a"] (compute_strategy_hash ["--a"])
         1 5 (Float64.of_Z 30) unconfirmed 0 (Some 0);
       Strategy.mk 2 "isp" "video" ["--b"] (compute_strategy_hash ["--b"])
         6 0 (Float64.of_Z 30) verified 0 (Some (3 * one_day))] [] in
  map Strategy.status (strategies (fst (run_cleanup (8 * one_day) st)))
  = [stale; verified]
  /\ fst (run_cleanup (11 * one_day) (fst (run_cleanup (8 * one_day) st)))
     = fst (run_cleanup (11 * one_day) st).
Proof.
  cbv zeta. split; [vm_compute; reflexivity|].
  apply sweeps_compose. vm_compute. discriminate.
Defined.

(* ================================================================= *)
(** ** GET /health and the sweep *)

Lemma count_status_cons (s : Status) (r : Strategy.t) (rows : list Strategy.t) :
  count_status s (r :: rows)
  = ind (Status_eqb (Strategy.status r) s) + count_status s rows.
Proof.
  unfold count_status, ind. cbn [filter].
  destruct (Status_eqb (Strategy.status r) s); cbn [List.length]; lia.
Qed.

Lemma marked_cons {A : Type} (p : A -> bool) (a : A) (l : list A) :
  Z.of_nat (List.length (filter p (a :: l)))
  = ind (p a) + Z.of_nat (List.length (filter p l)).
Proof. unfold ind. cbn [filter]. destruct (p a); cbn [List.length]; lia. Qed.

Lemma count_status_partition (rows : list Strategy.t) :
  Z.of_nat (List.length rows)
  = count_status verified rows + count_status unconfirmed rows
    + count_status degraded rows + count_status stale rows.
Proof.
  induction rows as [| r rows IH]; [reflexivity|].
  rewrite !count_status_cons. cbn [List.length]. rewrite Nat2Z.inj_succ, IH.
  unfold ind. destruct (Strategy.status r); cbn [Status_eqb]; lia.
Qed.

Lemma count_status_nonneg (s : Status) (rows : list Strategy.t) :
  0 <= count_status s rows.
Proof. unfold count_status. lia. Qed.

Lemma count_status_none (s : Status) (rows : list Strategy.t) :
  (forall r, In r rows -> Strategy.status r <> s) -> count_status s rows = 0.
Proof.
  intros H. unfold count_status.
  replace (filter _ rows) with (@nil Strategy.t); [reflexivity|].
  symmetry. induction rows as [| r rows IH]; cbn [filter]; [reflexivity|].
  destruct (Status_eqb (Strategy.status r) s) eqn:E.
  - apply Status_eqb_eq in E. exfalso. apply (H r); [now left | exact E].
  - apply IH. intros x Hx. apply H. now right.
Qed.

(** X20. The counts of [/health] add up.  When the query goes through,
    [strategies_count] is the number of rows and the sum of the four
    counts by status, none of which is negative; when it raises, the
    answer is the error answer with every count zero; and on a store
    reached by reports and sweeps (fewer than 2^51 reports)
    [degraded_count] is zero. *)
Theorem health_counts_add_up (db_raises : bool) (st : Store) :
  let h := health db_raises st in
  HealthResponse.strategies_count h
  = HealthResponse.verified_count h + HealthResponse.unconfirmed_count h
    + HealthResponse.degraded_count h + HealthResponse.stale_count h
  /\ 0 <= HealthResponse.verified_count h
  /\ 0 <= HealthResponse.unconfirmed_count h
  /\ 0 <= HealthResponse.degraded_count h
  /\ 0 <= HealthResponse.stale_count h
  /\ HealthResponse.db_connected h = negb db_raises
  /\ (db_raises = true -> HealthResponse.strategies_count h = 0)
  /\ (db_raises = false ->
      HealthResponse.strategies_count h = Z.of_nat (List.length (strategies st)))
  /\ (reachable st -> Z.of_nat (List.length (reports st)) < 2 ^ 51 ->
      HealthResponse.degraded_count h = 0).
Proof.
  cbv zeta. unfold health, get_health_stats. destruct db_raises.
  - cbn. repeat split; try lia; try reflexivity; discriminate.
  - cbn [HealthResponse.strategies_count HealthResponse.verified_count
         HealthResponse.unconfirmed_count HealthResponse.degraded_count
         HealthResponse.stale_count HealthResponse.db_connected
         HealthStats.total HealthStats.verified HealthStats.unconfirmed
         HealthStats.degraded HealthStats.stale negb].
    split; [apply count_status_partition|].
    repeat (split; [apply count_status_nonneg|]).
    split; [reflexivity|]. split; [discriminate|]. split; [reflexivity|].
    intros R Hb. apply count_status_none. intros r Hr.
    now apply (reachable_not_degraded st).
Qed.

Lemma degraded_where_swept_stale (now : timestamp) (r : Strategy.t) :
  degraded_where (swept_stale now r)
  = rate_low r
    && negb (Status_eqb
               (if aged now r && negb (Status_eqb (Strategy.status r) stale)
                then stale else Strategy.status r) stale
             || Status_eqb
                  (if aged now r && negb (Status_eqb (Strategy.status r) stale)
                   then stale else Strategy.status r) degraded).
Proof.
  unfold swept_stale.
  change (stale_where now r)
    with (aged now r && negb (Status_eqb (Strategy.status r) stale)).
  now destruct (aged now r && negb (Status_eqb (Strategy.status r) stale)).
Qed.

Lemma sweep_row_tally (now : timestamp) (r : Strategy.t) (s : Status) :
  ind (Status_eqb (Strategy.status (swept now r)) s)
  = match s with
    | stale => ind (Status_eqb (Strategy.status r) stale)
               + ind (stale_where now r)
    | degraded => ind (Status_eqb (Strategy.status r) degraded)
                  - ind (Status_eqb (Strategy.status r) degraded
                         && stale_where now r)
                  + ind (degraded_where (swept_stale now r))
    | verified =>
        ind (Status_eqb (Strategy.status r) verified)
        - ind (Status_eqb (Strategy.status r) verified
               && (stale_where now r || degraded_where (swept_stale now r)))
    | unconfirmed =>
        ind (Status_eqb (Strategy.status r) unconfirmed)
        - ind (Status_eqb (Strategy.status r) unconfirmed
               && (stale_where now r || degraded_where (swept_stale now r)))
    end.
Proof.
  rewrite degraded_where_swept_stale, swept_as_status.
  change (stale_where now r)
    with (aged now r && negb (Status_eqb (Strategy.status r) stale)).
  cbn [Strategy.status Strategy.set_status]. unfold sweep_status.
  destruct (aged now r), (rate_low r), (Strategy.status r), s; reflexivity.
Qed.

Lemma sweep_row_marks (now : timestamp) (r : Strategy.t) :
  ind (stale_where now r) + ind (degraded_where (swept_stale now r))
  = ind (Status_eqb (Strategy.status r) verified
         && (stale_where now r || degraded_where (swept_stale now r)))
    + ind (Status_eqb (Strategy.status r) unconfirmed
           && (stale_where now r || degraded_where (swept_stale now r)))
    + ind (Status_eqb (Strategy.status r) degraded && stale_where now r).
Proof.
  rewrite degraded_where_swept_stale.
  change (stale_where now r)
    with (aged now r && negb (Status_eqb (Strategy.status r) stale)).
  destruct (aged now r), (rate_low r), (Strategy.status r); reflexivity.
Qed.

Lemma sweep_tally (now : timestamp) (rows : list Strategy.t) :
  let rows' := map (swept now) rows in
  let stale_marked := Z.of_nat (List.length (filter (stale_where now) rows)) in
  let degraded_marked :=
    Z.of_nat (List.length (filter degraded_where (map (swept_stale now) rows))) in
  count_status stale rows' = count_status stale rows + stale_marked
  /\ count_status degraded rows' + count_status verified rows'
     + count_status unconfirmed rows' + stale_marked
     = count_status degraded rows + count_status verified rows
       + count_status unconfirmed rows
  /\ count_status degraded rows' <= count_status degraded rows + degraded_marked
  /\ count_status verified rows' <= count_status verified rows
  /\ count_status unconfirmed rows' <= count_status unconfirmed rows.
Proof.
  cbv zeta. induction rows as [| r rows IH].
  - repeat split; reflexivity || (cbn; lia).
  - cbn [map]. rewrite !count_status_cons, !marked_cons.
    rewrite !sweep_row_tally.
    pose proof (sweep_row_marks now r) as M.
    destruct IH as (I1 & I2 & I3 & I4 & I5).
    assert (B : forall b, 0 <= ind b <= 1) by (intros []; cbn; lia).
    pose proof (B (Status_eqb (Strategy.status r) verified
                   && (stale_where now r || degraded_where (swept_stale now r)))).
    pose proof (B (Status_eqb (Strategy.status r) unconfirmed
                   && (stale_where now r || degraded_where (swept_stale now r)))).
    pose proof (B (Status_eqb (Strategy.status r) degraded && stale_where now r))
      as Bd.
    pose proof (B (degraded_where (swept_stale now r))).
    pose proof (B (stale_where now r)).
    assert (D : ind (Status_eqb (Strategy.status r) degraded && stale_where now r)
                <= ind (stale_where now r)).
    { destruct (Status_eqb (Strategy.status r) degraded), (stale_where now r);
        cbn; lia. }
    repeat split; lia.
Qed.

(** X21. What a sweep does to the counts of [/health].  The number of rows
    is unchanged and every row keeps everything but its status; the stale
    count grows by exactly [stale_marked]; the counts of verified and of
    unconfirmed rows never grow, the degraded count grows by at most
    [degraded_marked], and the rows that are not stale are fewer by
    exactly [stale_marked]. *)
Theorem sweep_accounts (now : timestamp) (st : Store) :
  let st' := fst (run_cleanup now st) in
  let stale_marked := fst (snd (run_cleanup now st)) in
  let degraded_marked := snd (snd (run_cleanup now st)) in
  let h := get_health_stats st in
  let h' := get_health_stats st' in
  HealthStats.total h' = HealthStats.total h
  /\ HealthStats.stale h' = HealthStats.stale h + stale_marked
  /\ HealthStats.verified h' + HealthStats.unconfirmed h'
     + HealthStats.degraded h' + stale_marked
     = HealthStats.verified h + HealthStats.unconfirmed h
       + HealthStats.degraded h
  /\ HealthStats.verified h' <= HealthStats.verified h
  /\ HealthStats.unconfirmed h' <= HealthStats.unconfirmed h
  /\ HealthStats.degraded h' <= HealthStats.degraded h + degraded_marked
  /\ 0 <= stale_marked /\ 0 <= degraded_marked
  /\ Forall2 (fun r r' => r' = Strategy.set_status r (Strategy.status r'))
       (strategies st) (strategies st')
  /\ reports st' = reports st.
Proof.
  cbv zeta. rewrite run_cleanup_store.
  unfold get_health_stats. cbn [strategies reports HealthStats.total
    HealthStats.verified HealthStats.unconfirmed HealthStats.degraded
    HealthStats.stale].
  assert (Em : snd (run_cleanup now st)
               = (Z.of_nat (List.length (filter (stale_where now) (strategies st))),
                  Z.of_nat (List.length
                              (filter degraded_where
                                 (map (swept_stale now) (strategies st))))))
    by reflexivity.
  rewrite Em. cbn [fst snd].
  destruct (sweep_tally now (strategies st)) as (T1 & T2 & T3 & T4 & T5).
  cbv zeta in T1, T2, T3, T4, T5.
  rewrite length_map.
  repeat (split; [lia|]).
  split; [| reflexivity].
  clear. induction (strategies st) as [| r rows IH]; cbn [map].
  - constructor.
  - constructor; [apply swept_restatus | exact IH].
Qed.

(* ================================================================= *)
(** ** GET /services *)

Lemma counted_for_primary (provider service : string) (r : Strategy.t) :
  counted_for provider service r = primary_where provider service r.
Proof.
  unfold counted_for, primary_where.
  destruct (String.eqb (Strategy.provider_id r) provider),
           (String.eqb (Strategy.service_id r) service),
           (Status_eqb (Strategy.status r) verified
            || Status_eqb (Strategy.status r) unconfirmed); reflexivity.
Qed.

Lemma strategy_count_of_primary (st : Store) (provider service : string) :
  strategy_count_of st provider service
  = Z.of_nat (List.length (filter (primary_where provider service)
                             (strategies st))).
Proof.
  unfold strategy_count_of. f_equal. f_equal.
  apply filter_ext. intros r. apply counted_for_primary.
Qed.

Lemma insert_by_count (collate : string -> string -> bool) (x : ServiceRow.t)
  (l : list ServiceRow.t) :
  StronglySorted (fun a b => ServiceRow.strategy_count b
                             <= ServiceRow.strategy_count a) l ->
  StronglySorted (fun a b => ServiceRow.strategy_count b
                             <= ServiceRow.strategy_count a)
    (insert_sorted (service_leb collate) x l).
Proof.
  induction l as [| y l IH]; intros Hs; cbn [insert_sorted].
  - repeat constructor.
  - apply StronglySorted_inv in Hs as [Hl Hy].
    assert (C : forall a b, service_leb collate a b = true ->
                  ServiceRow.strategy_count b <= ServiceRow.strategy_count a).
    { intros a b. unfold service_leb.
      destruct (Z.compare_spec (ServiceRow.strategy_count a)
                  (ServiceRow.strategy_count b)); [lia | discriminate | lia]. }
    assert (C' : forall a b, service_leb collate a b = false ->
                   ServiceRow.strategy_count a <= ServiceRow.strategy_count b).
    { intros a b. unfold service_leb.
      destruct (Z.compare_spec (ServiceRow.strategy_count a)
                  (ServiceRow.strategy_count b)); [lia | lia | discriminate]. }
    destruct (service_leb collate x y) eqn:E.
    + constructor; [constructor; assumption|].
      constructor; [now apply C|].
      apply C in E. rewrite Forall_forall in *. intros z Hz.
      specialize (Hy z Hz). lia.
    + constructor; [now apply IH|].
      apply C' in E. rewrite Forall_forall in *. intros z Hz.
      apply (Permutation_in _ (Permutation_sym
               (insert_sorted_perm (service_leb collate) x l))) in Hz.
      destruct Hz as [<- | Hz]; [exact E | now apply Hy].
Qed.

(** X22. [get_services] lists the catalog.  Its result has one row for each
    row of the catalog, carrying the columns of that row; the count of a
    row is the number of verified and unconfirmed strategies of the
    provider for that service, zero when there is none; and the counts
    never increase along the result, whatever the collation of the
    names. *)
Theorem get_services_lists_the_catalog (collate : string -> string -> bool)
  (catalog : list Service.t) (st : Store) (provider : string) :
  let result := get_services collate catalog st provider in
  Permutation (map (service_row st provider) catalog) result
  /\ List.length result = List.length catalog
  /\ StronglySorted (fun a b => ServiceRow.strategy_count b
                                <= ServiceRow.strategy_count a) result
  /\ forall row, In row result ->
       0 <= ServiceRow.strategy_count row
       /\ ServiceRow.strategy_count row
          = Z.of_nat
              (List.length
                 (filter (fun r =>
                            String.eqb (Strategy.provider_id r) provider
                            && String.eqb (Strategy.service_id r)
                                          (ServiceRow.id row)
                            && (Status_eqb (Strategy.status r) verified
                                || Status_eqb (Strategy.status r) unconfirmed))
                         (strategies st))).
Proof.
  cbv zeta. unfold get_services.
  pose proof (insertion_sort_perm (service_leb collate)
                (map (service_row st provider) catalog)) as P.
  split; [exact P|]. split.
  - rewrite <- (Permutation_length P). apply length_map.
  - split.
    + induction (map (service_row st provider) catalog) as [| x l IH];
        cbn [insertion_sort]; [constructor|].
      apply insert_by_count, IH. apply insertion_sort_perm.
    + intros row Hrow.
      apply (Permutation_in _ (Permutation_sym P)) in Hrow.
      apply in_map_iff in Hrow as (sc & <- & _).
      cbn [service_row ServiceRow.strategy_count ServiceRow.id].
      rewrite strategy_count_of_primary. split; [lia | reflexivity].
Qed.

Lemma service_leb_listed (collate : string -> string -> bool)
  (a b : ServiceRow.t) :
  service_leb collate a b = true <-> listed_before collate a b.
Proof.
  unfold service_leb, listed_before.
  destruct (Z.compare_spec (ServiceRow.strategy_count a)
              (ServiceRow.strategy_count b)) as [E | E | E].
  - split; [intros H; right; now split | intros [H | [_ H]]; [lia | exact H]].
  - split; [discriminate | intros [H | [H _]]; lia].
  - split; [intros _; now left | reflexivity].
Qed.

(** X23. With a collation that is a total preorder, the result of
    [get_services] is in the order of its ORDER BY: of two rows, the one
    listed first has the larger count, or the same count and a name that
    the collation puts first. *)
Theorem get_services_ordered (collate : string -> string -> bool)
  (catalog : list Service.t) (st : Store) (provider : string) :
  (forall x y, collate x y = true \/ collate y x = true) ->
  (forall x y z, collate x y = true -> collate y z = true ->
                 collate x z = true) ->
  StronglySorted (listed_before collate)
    (get_services collate catalog st provider).
Proof.
  intros Htot Htrans. unfold get_services.
  apply StronglySorted_weaken
    with (R := fun a b => service_leb collate a b = true);
    [intros a b; apply service_leb_listed|].
  apply insertion_sort_strongly.
  - intros a b. rewrite !service_leb_listed. unfold listed_before.
    destruct (Z.compare_spec (ServiceRow.strategy_count a)
                (ServiceRow.strategy_count b)) as [E | E | E];
      [| right; now left | left; now left].
    destruct (Htot (ServiceRow.display_name a) (ServiceRow.display_name b));
      [left | right]; right; split; auto.
  - intros a b c. rewrite !service_leb_listed. unfold listed_before.
    intros [H1 | [E1 H1]] [H2 | [E2 H2]]; try (left; lia).
    right. split; [lia | eapply Htrans; eassumption].
Qed.

Lemma get_services_ordered_witness :
  let st := fst (post_report no_fault 10 1 (sample_report "isp" true)
                   (mkStore [] [])) in
  map ServiceRow.id (get_services String.leb sample_catalog st "isp")
  = ["video"; "audio"; "chat"]
  /\ StronglySorted (listed_before String.leb)
       (get_services String.leb sample_catalog st "isp").
Proof.
  cbv zeta. split; [vm_compute; reflexivity|].
  apply get_services_ordered.
  - apply String.leb_total.
  - apply string_leb_trans.
Defined.

(** X24. The count shown by [get_services] is the supply of the primary
    query.  For a provider and service, the first query of
    [get_strategies] returns as many rows as the catalog count says,
    capped at five; with a count of three or more [get_strategies]
    returns the primary rows alone, and with a count of zero every row
    it returns is a verified strategy of another provider. *)
Theorem services_count_is_primary_supply (tie : Row.t -> Z) (st : Store)
  (provider service : string) :
  let count := strategy_count_of st provider service in
  Z.of_nat (List.length (primary_query tie st provider service)) = Z.min 5 count
  /\ (3 <= count ->
      get_strategies tie st provider service = primary_query tie st provider service)
  /\ (count = 0 ->
      forall row, In row (get_strategies tie st provider service) ->
        exists r, In r (strategies st) /\ row = select_row r
          /\ Strategy.service_id r = service
          /\ Strategy.provider_id r <> provider
          /\ Strategy.status r = verified).
Proof.
  cbv zeta. rewrite strategy_count_of_primary.
  pose proof (primary_query_length tie st provider service) as Hlen.
  split; [rewrite Hlen; lia|]. split.
  - intros H. rewrite get_strategies_unfold. cbv zeta.
    replace (List.length (primary_query tie st provider service) <? 3)%nat
      with false; [reflexivity|].
    symmetry. apply Nat.ltb_ge. lia.
  - intros H. rewrite get_strategies_unfold. cbv zeta.
    assert (E : primary_query tie st provider service = []).
    { apply length_zero_iff_nil. lia. }
    rewrite E. cbn [List.length Nat.ltb Nat.leb app].
    intros row Hrow. apply in_firstn in Hrow. apply filter_In in Hrow as [Hrow _].
    apply select_in in Hrow as (r & Hr & Hc & ->).
    apply fallback_where_iff in Hc as (Hs & Hp & Hv & _).
    exists r. auto.
Qed.

(* ================================================================= *)
(** ** Recommendations after a sweep *)

Lemma get_strategies_rows (tie : Row.t -> Z) (st : Store)
  (provider service : string) (row : Row.t) :
  In row (get_strategies tie st provider service) ->
  exists r, In r (strategies st) /\ row = select_row r
    /\ Strategy.service_id r = service
    /\ (Strategy.status r = verified \/ Strategy.status r = unconfirmed).
Proof.
  rewrite get_strategies_unfold. cbv zeta.
  intros H.
  assert (H' : In row (primary_query tie st provider service)
               \/ In row (fallback_query tie st provider service
                            (5 - Z.of_nat (List.length
                                             (primary_query tie st provider service))))).
  { destruct (List.length (primary_query tie st provider service) <? 3)%nat;
      [| now left].
    apply in_app_or in H as [H | H]; [now left | right].
    apply in_firstn in H. now apply filter_In in H as [H _]. }
  destruct H' as [H' | H'].
  - apply primary_rows_in in H' as (r & Hr & -> & _ & Hs & Hst).
    exists r. auto.
  - apply select_in in H' as (r & Hr & Hc & ->).
    apply fallback_where_iff in Hc as (Hs & _ & Hv & _).
    exists r. auto.
Qed.

Lemma sweep_status_kept (a d : bool) (s : Status) :
  sweep_status a d s = verified \/ sweep_status a d s = unconfirmed ->
  a = false /\ d = false /\ sweep_status a d s = s.
Proof. destruct a, d, s; cbn; intros [H | H]; auto; discriminate. Qed.

(** X25. After a sweep the recommendations are fresh.  On the store that
    [run_cleanup] leaves at a time, every row that [get_strategies]
    returns is a row the sweep left as it was; if it has a
    [last_confirmed], that is not older than seven days before the time
    of the sweep; and if it has five votes or more, its rate is not
    below 0.40. *)
Theorem swept_recommendations_are_fresh (tie : Row.t -> Z) (now : timestamp)
  (st : Store) (provider service : string) (row : Row.t) :
  In row (get_strategies tie (fst (run_cleanup now st)) provider service) ->
  (exists r, In r (strategies st) /\ row = select_row r)
  /\ (forall t, Row.last_confirmed row = Some t ->
        now - Config.STALE_DAYS * one_day <= t)
  /\ (Config.MIN_VOTES_VERIFIED <= Row.success_count row + Row.fail_count row ->
      Float64.pg_lt (Row.success_rate row) Config.STALE_RATE_THRESHOLD = false).
Proof.
  intros H. apply get_strategies_rows in H as (r' & Hr' & -> & _ & Hst).
  rewrite run_cleanup_store in Hr'. cbn [strategies] in Hr'.
  apply in_map_iff in Hr' as (r & <- & Hr).
  rewrite swept_as_status in *. cbn [Strategy.status Strategy.set_status] in Hst.
  apply sweep_status_kept in Hst as (Ha & Hd & Hs).
  rewrite Hs, set_status_same.
  split; [now exists r|]. split.
  - intros t Et. cbn [select_row Row.last_confirmed] in Et.
    unfold aged in Ha. rewrite Et in Ha. now apply Z.ltb_ge in Ha.
  - cbn [select_row Row.success_count Row.fail_count Row.success_rate].
    intros Hv. unfold rate_low in Hd. cbv zeta in Hd.
    apply andb_false_iff in Hd as [Hd | Hd];
      [apply Z.leb_gt in Hd; lia|].
    unfold sql_success_rate. cbv zeta.
    replace (0 <? Strategy.success_count r + Strategy.fail_count r) with true;
      [exact Hd|].
    symmetry. apply Z.ltb_lt. change Config.MIN_VOTES_VERIFIED with 5 in Hv. lia.
Qed.

Lemma swept_recommendations_are_fresh_witness :
  let st :=
    mkStore
      [Strategy.mk 1 "isp" "video" ["--a"] (compute_strategy_hash ["--a"])
         6 0 (Float64.of_Z 30) verified 0 (Some 0);
       Strategy.mk 2 "isp" "video" ["--b"] (compute_strategy_hash ["--b"])
         6 0 (Float64.of_Z 30) verified 0 (Some (3 * one_day))] [] in
  exists row,
    get_strategies table_order (fst (run_cleanup (8 * one_day) st))
      "isp" "video" = [row]
    /\ forall t, Row.last_confirmed row = Some t ->
         8 * one_day - Config.STALE_DAYS * one_day <= t.
Proof.
  cbv zeta.
  destruct (get_strategies table_order
              (fst (run_cleanup (8 * one_day)
                      (mkStore
                         [Strategy.mk 1 "isp" "video" ["--a"]
                            (compute_strategy_hash ["--a"])
                            6 0 (Float64.of_Z 30) verified 0 (Some 0);
                          Strategy.mk 2 "isp" "video" ["--b"]
                            (compute_strategy_hash ["--b"])
                            6 0 (Float64.of_Z 30) verified 0
                            (Some (3 * one_day))] [])))
              "isp" "video") as [| row rest] eqn:E;
    [vm_compute in E; discriminate|].
  destruct rest as [| row2 rest]; [| vm_compute in E; discriminate].
  exists row. split; [reflexivity|].
  refine (proj1 (proj2 (swept_recommendations_are_fresh table_order
                          (8 * one_day) _ "isp" "video" row _))).
  rewrite E. now left.
Defined.

(* ================================================================= *)
(** ** The endpoint and the text of [zapret_args] *)

Lemma strategy_item_raises (jsonb_out : list string -> string)
  (round : Float64.float -> Z -> Float64.float) (r : Row.t) :
  Main.strategy_item jsonb_out round r = None.
Proof. reflexivity. Qed.

Lemma strategy_items_raise (jsonb_out : list string -> string)
  (round : Float64.float -> Z -> Float64.float) (rows : list Row.t) :
  Main.strategy_items jsonb_out round rows
  = match rows with
    | [] => Some []
    | _ :: _ => None
    end.
Proof. now destruct rows. Qed.

Lemma primary_supply_is_returned (tie : Row.t -> Z) (st : Store)
  (provider service : string) (r : Strategy.t) :
  In r (strategies st) -> primary_where provider service r = true ->
  get_strategies tie st provider service <> [].
Proof.
  intros Hr Hw E.
  assert (L : List.length (primary_query tie st provider service) <> 0%nat).
  { rewrite primary_query_length.
    assert (Hin : In r (filter (primary_where provider service) (strategies st)))
      by now apply filter_In.
    destruct (filter (primary_where provider service) (strategies st));
      [contradiction | discriminate]. }
  rewrite get_strategies_unfold in E. cbv zeta in E.
  destruct (primary_query tie st provider service) as [| row rows];
    [now apply L|].
  destruct (List.length (row :: rows) <? 3)%nat; discriminate.
Qed.

(** X26. The endpoint GET /strategies raises on every strategy.  The
    handler reads [zapret_args] as the JSON text of the column, which
    the response model, asking for a list, refuses: the request raises
    exactly when [db.get_strategies] returns a row, whatever the row
    holds; when it returns none, the answer has no strategy and a
    [count] of 0.  So a provider with a verified or unconfirmed strategy
    of the service, the case the endpoint is for, gets no answer. *)
Theorem endpoint_raises_on_every_row (jsonb_out : list string -> string)
  (round : Float64.float -> Z -> Float64.float) (tie : Row.t -> Z)
  (st : Store) (provider service : string) :
  let answer := Main.get_strategies jsonb_out round tie st provider service in
  (answer = None <-> get_strategies tie st provider service <> [])
  /\ (answer = Some (StrategiesResponse.mk [] 0)
      <-> get_strategies tie st provider service = [])
  /\ (forall r, In r (strategies st) -> primary_where provider service r = true ->
        answer = None)
  /\ ((forall r, In r (strategies st) -> Strategy.service_id r <> service) ->
      answer = Some (StrategiesResponse.mk [] 0)).
Proof.
  cbv zeta. unfold Main.get_strategies. rewrite strategy_items_raise.
  assert (N : forall r, In r (strategies st) ->
                primary_where provider service r = true ->
                get_strategies tie st provider service <> [])
    by (intros r; apply primary_supply_is_returned).
  assert (O : (forall r, In r (strategies st) -> Strategy.service_id r <> service) ->
              get_strategies tie st provider service = []).
  { intros H.
    destruct (get_strategies tie st provider service) as [| row rows] eqn:E;
      [reflexivity|].
    assert (Hin : In row (get_strategies tie st provider service))
      by (rewrite E; now left).
    apply get_strategies_rows in Hin as (r & Hr & _ & Hs & _).
    now apply H in Hr. }
  destruct (get_strategies tie st provider service) as [| row rows].
  - split; [split; [discriminate | now intros H] |].
    split; [now split |].
    split; [intros r Hr Hw; now apply (N r Hr) in Hw | reflexivity].
  - split; [now split |].
    split; [split; discriminate |].
    split; [reflexivity | intros H; now apply O in H].
Qed.

(** After one report of a provider, its request for the service raises. *)
Example endpoint_raises_after_a_report :
  let st := fst (post_report no_fault 10 1 (sample_report "isp" true)
                   (mkStore [] [])) in
  List.length (get_strategies table_order st "isp" "video") = 1%nat
  /\ Main.get_strategies (fun _ => "[]") (fun x _ => x) table_order st
       "isp" "video" = None
  /\ Main.get_strategies (fun _ => "[]") (fun x _ => x) table_order st
       "isp" "audio" = Some (StrategiesResponse.mk [] 0).
Proof. vm_compute. repeat split. Qed.
